(** * HashPay: swap quotes, transaction-history queries and escrow handlers

    A shallow embedding of the TypeScript sources

    - [src/screens/SwapScreen.tsx]   (quote effect, [handleSwap], mesh toggle),
    - [src/unnamed/part_001]         (the transaction-history screen:
                                      [parseDate], [filteredTransactions],
                                      [stats], [exportToCSV]),
    - [src/screens/ReceiveScreen.tsx] (second half, the escrow screen:
                                      [handleCreateEscrow], [handleAction]),

    together with the fragments of the JavaScript runtime those functions
    call: IEEE-754 binary64 numbers, [parseFloat], [Number.toLocaleString],
    string helpers, and the [Date] time-value arithmetic of ECMA-262.

    Conventions of the embedding.

    - A JavaScript number is a [spec_float] at precision 53 and maximal
      exponent 1024, with the arithmetic of the Standard Library's
      [SpecFloat]: nothing is idealised to rationals.
    - A JavaScript string is a [string] of 8-bit characters; case mapping and
      white space are those of ASCII.
    - A [Date] is its time value, [Some t] with [t] in milliseconds since the
      epoch, or [None] for an invalid date.  The local time zone is a constant
      offset [tza]; the clock is read once per evaluation ([now]).
    - An event handler is the list of calls it makes into the wallet context
      and the user interface, in order; the context functions themselves
      ([swapAssets], [createEscrow], ...) live in [WalletContext], which is
      not part of the sources, and are parameters. *)

From Stdlib Require Import ZArith List Ascii String Bool Lia.
From Stdlib Require Import Floats.SpecFloat.
From stdpp Require Import gmap strings.

Local Open Scope Z_scope.

(* ===================================================================== *)
(** * The JavaScript runtime fragments                                    *)
(* ===================================================================== *)

Module JS.

(** ** Numbers: IEEE-754 binary64 *)

Abbreviation number := spec_float.

Definition prec : Z := 53.
Definition emax : Z := 1024.

Definition NaN : number := S754_nan.
Definition Number_of_Z (z : Z) : number := binary_normalize prec emax z 0 false.
Definition one : number := Number_of_Z 1.
Definition zero : number := S754_zero false.

Definition mul : number -> number -> number := SFmul prec emax.
Definition div : number -> number -> number := SFdiv prec emax.
Definition add : number -> number -> number := SFadd prec emax.
Definition sub : number -> number -> number := SFsub prec emax.

(** [x < y], [x <= y], [x > y] on numbers; every comparison with [NaN] is
    [false]. *)
Definition ltb (x y : number) : bool := SFltb x y.
Definition leb (x y : number) : bool := SFleb x y.
Definition gtb (x y : number) : bool := SFltb y x.

(** [ToBoolean] on a number: [+0], [-0] and [NaN] are falsy. *)
Definition ToBoolean (x : number) : bool :=
  match x with
  | S754_zero _ | S754_nan => false
  | _ => true
  end.

(** [v || d] where [v] is a number or [undefined] ([None]). *)
Definition or_else (v : option number) (d : number) : number :=
  match v with
  | Some x => if ToBoolean x then x else d
  | None => d
  end.

(** ** Strings *)

Definition dquote : ascii := "034"%char.
Definition newline : string := String "010"%char EmptyString.

Definition is_upper (c : ascii) : bool :=
  let n := nat_of_ascii c in ((65 <=? n) && (n <=? 90))%nat.

Definition lower_char (c : ascii) : ascii :=
  if is_upper c then ascii_of_nat (nat_of_ascii c + 32) else c.

Fixpoint toLowerCase (s : string) : string :=
  match s with
  | EmptyString => EmptyString
  | String c r => String (lower_char c) (toLowerCase r)
  end.

Fixpoint startsWith (p s : string) : bool :=
  match p, s with
  | EmptyString, _ => true
  | String a p', String b s' => Ascii.eqb a b && startsWith p' s'
  | String _ _, EmptyString => false
  end.

(** [s.includes(sub)] *)
Fixpoint includes (s sub : string) : bool :=
  startsWith sub s ||
  match s with
  | EmptyString => false
  | String _ r => includes r sub
  end.

Definition is_space (c : ascii) : bool := Ascii.is_space c.

Fixpoint trimStart (s : string) : string :=
  match s with
  | EmptyString => EmptyString
  | String c r => if is_space c then trimStart r else s
  end.

Definition trim (s : string) : string :=
  String.rev (trimStart (String.rev (trimStart s))).

(** The truth value of a string: only the empty string is falsy. *)
Definition truthy_string (s : string) : bool :=
  match s with EmptyString => false | _ => true end.

(** [s.replace(/,/g, '')] *)
Fixpoint remove_commas (s : string) : string :=
  match s with
  | EmptyString => EmptyString
  | String c r =>
      if Ascii.eqb c ","%char then remove_commas r
      else String c (remove_commas r)
  end.

(** [parts.join(sep)] *)
Fixpoint join (sep : string) (parts : list string) : string :=
  match parts with
  | nil => EmptyString
  | p :: nil => p
  | p :: rest => String.append p (String.append sep (join sep rest))
  end.

(** ** Decimal digits *)

Definition is_digit (c : ascii) : bool :=
  let n := nat_of_ascii c in ((48 <=? n) && (n <=? 57))%nat.

Definition digit_value (c : ascii) : Z := Z.of_nat (nat_of_ascii c) - 48.

Definition digit_char (d : Z) : ascii := ascii_of_nat (Z.to_nat (48 + d)).

(** The longest prefix of decimal digits: its value, its length, the rest. *)
Fixpoint span_digits_from (s : string) (acc : Z) (n : nat) : Z * nat * string :=
  match s with
  | String c r =>
      if is_digit c then span_digits_from r (10 * acc + digit_value c) (S n)
      else (acc, n, s)
  | EmptyString => (acc, n, s)
  end.

Definition span_digits (s : string) : Z * nat * string := span_digits_from s 0 O.

(** ** [parseFloat]

    ECMA-262 [parseFloat]: leading white space is skipped, the longest prefix
    that is a [StrDecimalLiteral] is read, the rest is ignored; without such a
    prefix the result is [NaN].  The decimal value [m * 10^e] is rounded to the
    nearest binary64, ties to even. *)

Definition decimal_value (neg : bool) (m e : Z) : number :=
  match m with
  | Z0 => S754_zero neg
  | Zpos p =>
      if 0 <=? e
      then binary_normalize prec emax ((if neg then Zneg p else Zpos p) * 10 ^ e) 0 false
      else SFdiv prec emax (S754_finite neg p 0)
                           (S754_finite false (Z.to_pos (10 ^ (- e))) 0)
  | Zneg _ => NaN
  end.

Definition parse_sign (s : string) : bool * string :=
  match s with
  | String c r =>
      if Ascii.eqb c "-"%char then (true, r)
      else if Ascii.eqb c "+"%char then (false, r)
      else (false, s)
  | EmptyString => (false, s)
  end.

(** [ExponentPart]: [e] or [E], an optional sign, at least one digit;
    otherwise nothing is consumed. *)
Definition parse_exponent (s : string) : Z :=
  match s with
  | String c r =>
      if Ascii.eqb c "e"%char || Ascii.eqb c "E"%char then
        let '(neg, r1) := parse_sign r in
        let '(v, n, _) := span_digits r1 in
        match n with
        | O => 0
        | S _ => if neg then - v else v
        end
      else 0
  | EmptyString => 0
  end.

Definition parse_fraction (s : string) : Z * nat * string :=
  match s with
  | String c r => if Ascii.eqb c "."%char then span_digits r else (0, O, s)
  | EmptyString => (0, O, s)
  end.

Definition parseFloat (input : string) : number :=
  let '(neg, s1) := parse_sign (trimStart input) in
  if startsWith "Infinity" s1 then S754_infinity neg
  else
    let '(iv, il, r1) := span_digits s1 in
    let '(fv, fl, r2) := parse_fraction r1 in
    match (il + fl)%nat with
    | O => NaN
    | S _ => decimal_value neg (iv * 10 ^ Z.of_nat fl + fv)
                           (parse_exponent r2 - Z.of_nat fl)
    end.

(** [parseInt(s)] on a string of decimal digits, as the capture group of
    [parseDate] delivers it.  The integer is kept exact; where it exceeds
    2^53 the date computed from it is out of range either way. *)
Definition parseInt (s : string) : option Z :=
  let '(v, n, _) := span_digits (trimStart s) in
  match n with
  | O => None
  | S _ => Some v
  end.

(** ** [Number.prototype.toLocaleString] with fraction-digit bounds

    [x.toLocaleString(undefined, { minimumFractionDigits, maximumFractionDigits })]
    in an [en-US] locale: the exact value of [x] is rounded to
    [maxFD] fraction digits, ties away from zero, trailing zeros are dropped
    down to [minFD] digits, the integer part is grouped by thousands. *)

(** [|x| * 10^k] rounded to an integer, ties up, for [|x| = m * 2^e]. *)
Definition scaled_round (m : positive) (e : Z) (k : nat) : Z :=
  let num := Zpos m * 10 ^ Z.of_nat k in
  if 0 <=? e then num * 2 ^ e
  else let den := 2 ^ (- e) in (2 * num + den) / (2 * den).

(** The [k] low decimal digits of [n], least significant first. *)
Fixpoint low_digits (k : nat) (n : Z) : list Z :=
  match k with
  | O => nil
  | S k' => (n mod 10) :: low_digits k' (n / 10)
  end.

(** Drop at most [extra] zeros from the front (the trailing zeros of the
    fraction, which is held least significant digit first). *)
Fixpoint drop_zeros (extra : nat) (ds : list Z) : list Z :=
  match extra, ds with
  | S e, d :: r => if d =? 0 then drop_zeros e r else ds
  | _, _ => ds
  end.

Definition fraction_digits (minFD maxFD : nat) (n : Z) : list Z :=
  drop_zeros (maxFD - minFD) (low_digits maxFD n).

(** Digits of a non-negative integer, least significant first; at least one. *)
Fixpoint int_digits_fuel (fuel : nat) (n : Z) : list Z :=
  match fuel with
  | O => nil
  | S f =>
      if n <? 10 then n :: nil
      else (n mod 10) :: int_digits_fuel f (n / 10)
  end.

Definition int_digits (n : Z) : list Z :=
  int_digits_fuel (S (Z.to_nat (Z.log2 n))) n.

(** Write digits held least significant first, most significant first, onto
    [acc]; [grouped] inserts a comma between groups of three. *)
Fixpoint write_digits (grouped : bool) (pos : nat) (ds : list Z) (acc : string) : string :=
  match ds with
  | nil => acc
  | d :: r =>
      let acc' :=
        if grouped && (0 <? pos)%nat && (pos mod 3 =? 0)%nat
        then String (digit_char d) (String ","%char acc)
        else String (digit_char d) acc in
      write_digits grouped (S pos) r acc'
  end.

Definition format_scaled (neg : bool) (minFD maxFD : nat) (n : Z) : string :=
  let scale := 10 ^ Z.of_nat maxFD in
  let frac := fraction_digits minFD maxFD (n mod scale) in
  let frac_str :=
    match frac with
    | nil => EmptyString
    | _ => String "."%char (write_digits false O frac EmptyString)
    end in
  let body := write_digits true O (int_digits (n / scale)) frac_str in
  if neg then String "-"%char body else body.

Definition infinity_sign : string :=
  String "226"%char (String "136"%char (String "158"%char EmptyString)).

Definition toLocaleString (x : number) (minFD maxFD : nat) : string :=
  match x with
  | S754_nan => "NaN"
  | S754_infinity s => if s then String "-"%char infinity_sign else infinity_sign
  | S754_zero s => format_scaled s minFD maxFD 0
  | S754_finite s m e => format_scaled s minFD maxFD (scaled_round m e maxFD)
  end.

(** ** [Number.prototype.toString] on an integer, and [String.prototype.slice] *)

Definition Z_toString (z : Z) : string :=
  let body := write_digits false O (int_digits (Z.abs z)) EmptyString in
  if z <? 0 then String "-"%char body else body.

Fixpoint drop (n : nat) (s : string) : string :=
  match n, s with
  | S n', String _ r => drop n' r
  | _, _ => s
  end.

(** [s.slice(-k)]: the last [k] characters, the whole string when shorter. *)
Definition slice_last (k : nat) (s : string) : string :=
  drop (String.length s - k) s.

(** The [k] low decimal digits of [n], most significant first: a number
    below [10^k] padded with zeros to [k] digits. *)
Definition pad_digits (k : nat) (n : Z) : string :=
  write_digits false O (low_digits k n) EmptyString.

(** [Number.isFinite] *)
Definition isFinite (x : number) : bool :=
  match x with
  | S754_zero _ | S754_finite _ _ _ => true
  | _ => false
  end.

(** A string of decimal digits only. *)
Fixpoint all_digits (s : string) : bool :=
  match s with
  | EmptyString => true
  | String c r => is_digit c && all_digits r
  end.

End JS.

(* ===================================================================== *)
(** * [Date]: time values and the local calendar (ECMA-262, 21.4.1)       *)
(* ===================================================================== *)

Module JSDate.

Definition msPerDay : Z := 86400000.
Definition msPerMinute : Z := 60000.
Definition msPerHour : Z := 3600000.
Definition maxTime : Z := 8640000000000000.

(** A [Date] object: [None] is the invalid date, whose time value is [NaN]. *)
Definition Date : Type := option Z.

Definition Day (t : Z) : Z := t / msPerDay.
Definition TimeWithinDay (t : Z) : Z := t mod msPerDay.

Definition DaysInYear (y : Z) : Z :=
  if negb (y mod 4 =? 0) then 365
  else if negb (y mod 100 =? 0) then 366
  else if negb (y mod 400 =? 0) then 365
  else 366.

Definition DayFromYear (y : Z) : Z :=
  365 * (y - 1970) + (y - 1969) / 4 - (y - 1901) / 100 + (y - 1601) / 400.

Definition TimeFromYear (y : Z) : Z := msPerDay * DayFromYear y.

(** The largest [y] with [TimeFromYear y <= t], from the mean year length
    and one step of adjustment. *)
Definition YearFromTime (t : Z) : Z :=
  let d := Day t in
  let y := 1970 + (400 * d) / 146097 in
  if d <? DayFromYear y then y - 1
  else if DayFromYear (y + 1) <=? d then y + 1
  else y.

Definition InLeapYear (t : Z) : Z :=
  if DaysInYear (YearFromTime t) =? 366 then 1 else 0.

Definition DayWithinYear (t : Z) : Z := Day t - DayFromYear (YearFromTime t).

(** The day within the year on which month [m] (0 to 11) starts. *)
Definition month_start (m leap : Z) : Z :=
  match m with
  | 0 => 0
  | 1 => 31
  | 2 => 59 + leap
  | 3 => 90 + leap
  | 4 => 120 + leap
  | 5 => 151 + leap
  | 6 => 181 + leap
  | 7 => 212 + leap
  | 8 => 243 + leap
  | 9 => 273 + leap
  | 10 => 304 + leap
  | _ => 334 + leap
  end.

Definition MonthFromTime (t : Z) : Z :=
  let d := DayWithinYear t in
  let l := InLeapYear t in
  if d <? 31 then 0
  else if d <? 59 + l then 1
  else if d <? 90 + l then 2
  else if d <? 120 + l then 3
  else if d <? 151 + l then 4
  else if d <? 181 + l then 5
  else if d <? 212 + l then 6
  else if d <? 243 + l then 7
  else if d <? 273 + l then 8
  else if d <? 304 + l then 9
  else if d <? 334 + l then 10
  else 11.

Definition DateFromTime (t : Z) : Z :=
  DayWithinYear t - month_start (MonthFromTime t) (InLeapYear t) + 1.

Definition leap_of_year (y : Z) : Z := if DaysInYear y =? 366 then 1 else 0.

(** [MakeDay(year, month, date)]: the day number of the first of the month
    [month mod 12] of year [year + floor(month / 12)], plus [date - 1]. *)
Definition MakeDay (year month date : Z) : Z :=
  let ym := year + month / 12 in
  let mn := month mod 12 in
  DayFromYear ym + month_start mn (leap_of_year ym) + date - 1.

Definition MakeTime (h m s ms : Z) : Z :=
  h * msPerHour + m * msPerMinute + s * 1000 + ms.

Definition MakeDate (day time : Z) : Z := day * msPerDay + time.

Definition TimeClip (t : Z) : Date :=
  if Z.abs t <=? maxTime then Some t else None.

(** [a >= b] on two dates: both are converted to their time values, and a
    comparison with [NaN] is [false]. *)
Definition geb (a b : Date) : bool :=
  match a, b with
  | Some x, Some y => y <=? x
  | _, _ => false
  end.

Definition DaysInMonth (y m : Z) : Z :=
  if m =? 11 then 31
  else month_start (m + 1) (leap_of_year y) - month_start m (leap_of_year y).

(** ** Reading a fixed number of decimal digits *)

Fixpoint take_digits_from (n : nat) (s : string) (acc : Z) : option (Z * string) :=
  match n with
  | O => Some (acc, s)
  | S n' =>
      match s with
      | String c r =>
          if JS.is_digit c then take_digits_from n' r (10 * acc + JS.digit_value c)
          else None
      | EmptyString => None
      end
  end.

Definition take_digits (n : nat) (s : string) : option (Z * string) :=
  take_digits_from n s 0.

Definition expect (c : ascii) (s : string) : option string :=
  match s with
  | String a r => if Ascii.eqb a c then Some r else None
  | EmptyString => None
  end.

Definition next_is (c : ascii) (s : string) : bool :=
  match s with
  | String a _ => Ascii.eqb a c
  | EmptyString => false
  end.

(** ** The date-time string format (ECMA-262, 21.4.1.32)

    [YYYY], [YYYY-MM] or [YYYY-MM-DD], optionally followed by [T] and
    [HH:mm], [HH:mm:ss] or [HH:mm:ss.sss], optionally followed by [Z] or an
    offset [+HH:mm] / [-HH:mm]. *)

(** Year, month (1 to 12), day of the month, and the rest of the input. *)
Definition parse_ymd (s : string) : option (Z * Z * Z * string) :=
  match take_digits 4 s with
  | None => None
  | Some (y, r) =>
      if next_is "-"%char r then
        match expect "-"%char r with
        | None => None
        | Some r1 =>
            match take_digits 2 r1 with
            | None => None
            | Some (m, r2) =>
                if next_is "-"%char r2 then
                  match expect "-"%char r2 with
                  | None => None
                  | Some r3 =>
                      match take_digits 2 r3 with
                      | None => None
                      | Some (d, r4) => Some (y, m, d, r4)
                      end
                  end
                else Some (y, m, 1, r2)
            end
        end
      else Some (y, 1, 1, r)
  end.

(** Seconds and milliseconds after [HH:mm], when present. *)
Definition parse_seconds (s : string) : option (Z * Z * string) :=
  if next_is ":"%char s then
    match expect ":"%char s with
    | None => None
    | Some r =>
        match take_digits 2 r with
        | None => None
        | Some (ss, r1) =>
            if next_is "."%char r1 then
              match expect "."%char r1 with
              | None => None
              | Some r2 =>
                  match take_digits 3 r2 with
                  | None => None
                  | Some (ms, r3) => Some (ss, ms, r3)
                  end
              end
            else Some (ss, 0, r1)
        end
    end
  else Some (0, 0, s).

(** The time within the day, in milliseconds, and the rest of the input. *)
Definition parse_time (s : string) : option (Z * string) :=
  match take_digits 2 s with
  | None => None
  | Some (hh, r) =>
      match expect ":"%char r with
      | None => None
      | Some r1 =>
          match take_digits 2 r1 with
          | None => None
          | Some (mm, r2) =>
              match parse_seconds r2 with
              | None => None
              | Some (ss, ms, r3) =>
                  if (hh <=? 23) && (mm <=? 59) && (ss <=? 59)
                     || (hh =? 24) && (mm =? 0) && (ss =? 0) && (ms =? 0)
                  then Some (MakeTime hh mm ss ms, r3)
                  else None
              end
          end
      end
  end.

Inductive zone : Type :=
  | ZoneLocal
  | ZoneOffset (ms : Z).

Definition parse_hhmm_end (s : string) : option Z :=
  match take_digits 2 s with
  | None => None
  | Some (hh, r) =>
      match expect ":"%char r with
      | None => None
      | Some r1 =>
          match take_digits 2 r1 with
          | Some (mm, EmptyString) =>
              if (hh <=? 23) && (mm <=? 59)
              then Some (hh * msPerHour + mm * msPerMinute)
              else None
          | _ => None
          end
      end
  end.

Definition parse_zone (s : string) : option zone :=
  match s with
  | EmptyString => Some ZoneLocal
  | String c r =>
      if Ascii.eqb c "Z"%char then
        match r with
        | EmptyString => Some (ZoneOffset 0)
        | _ => None
        end
      else if Ascii.eqb c "+"%char then
        match parse_hhmm_end r with
        | Some off => Some (ZoneOffset off)
        | None => None
        end
      else if Ascii.eqb c "-"%char then
        match parse_hhmm_end r with
        | Some off => Some (ZoneOffset (- off))
        | None => None
        end
      else None
  end.

Section LocalTime.

(** The offset of local time from UTC, in milliseconds. *)
Variable tza : Z.

(** [Date.parse] on a string that is not in the date-time string format:
    the formats accepted there are left to the implementation. *)
Variable legacy_parse : string -> Date.

Definition LocalTime (t : Z) : Z := t + tza.
Definition UTC (t : Z) : Z := t - tza.

Definition getFullYear (t : Z) : Z := YearFromTime (LocalTime t).
Definition getMonth (t : Z) : Z := MonthFromTime (LocalTime t).
Definition getDate (t : Z) : Z := DateFromTime (LocalTime t).

(** [d.setDate(dt)], [d.setMonth(m)], [d.setFullYear(y)] on a valid date
    with time value [t]: the new time value. *)
Definition setDate (t dt : Z) : Date :=
  let lt := LocalTime t in
  TimeClip (UTC (MakeDate (MakeDay (YearFromTime lt) (MonthFromTime lt) dt)
                          (TimeWithinDay lt))).

Definition setMonth (t m : Z) : Date :=
  let lt := LocalTime t in
  TimeClip (UTC (MakeDate (MakeDay (YearFromTime lt) m (DateFromTime lt))
                          (TimeWithinDay lt))).

Definition setFullYear (t y : Z) : Date :=
  let lt := LocalTime t in
  TimeClip (UTC (MakeDate (MakeDay y (MonthFromTime lt) (DateFromTime lt))
                          (TimeWithinDay lt))).

(** [new Date(year, month, date)]: local midnight of that day; a year from
    0 to 99 stands for 1900 + year. *)
Definition Date_of_ymd (year month date : Z) : Date :=
  let yr := if (0 <=? year) && (year <=? 99) then 1900 + year else year in
  TimeClip (UTC (MakeDate (MakeDay yr month date) (MakeTime 0 0 0 0))).

(** A string in the date-time string format: date-only forms are UTC,
    date-time forms without an offset are local time. *)
Definition parse_iso (s : string) : Date :=
  match parse_ymd s with
  | None => None
  | Some (y, m, d, r) =>
      if (1 <=? m) && (m <=? 12) && (1 <=? d) && (d <=? DaysInMonth y (m - 1))
      then
        let day := MakeDay y (m - 1) d in
        match r with
        | EmptyString => TimeClip (MakeDate day 0)
        | String c r1 =>
            if Ascii.eqb c "T"%char then
              match parse_time r1 with
              | None => None
              | Some (tm, r2) =>
                  match parse_zone r2 with
                  | None => None
                  | Some ZoneLocal => TimeClip (UTC (MakeDate day tm))
                  | Some (ZoneOffset off) => TimeClip (MakeDate day tm - off)
                  end
              end
            else None
        end
      else None
  end.

(** [new Date(dateStr)] *)
Definition Date_of_string (s : string) : Date :=
  match parse_iso s with
  | Some t => Some t
  | None => legacy_parse s
  end.

End LocalTime.

End JSDate.

(* ===================================================================== *)
(** * The wallet context, as the screens see it                           *)
(* ===================================================================== *)

Module Wallet.

(** One asset of the account ([wallets] of the context). *)
Record WalletAsset : Type := {
  symbol : string;
  balance : string;
  fiatValue : string;
  color : string;
  icon : string
}.

(** Modelled from the spec: [types.ts] is not part of the sources; the data
    model gives a transaction the type [sent] or [received]. *)
Inductive TxType : Type := sent | received.

Module Tx.
Record t : Type := {
  id : string;
  type : TxType;
  amount : string;
  currency : string;
  recipient : string;
  date : string
}.
End Tx.
Abbreviation Transaction := Tx.t.

(** Modelled from the spec: [types.ts] is not part of the sources; the
    escrow registry of the spec has these six states. *)
Inductive EscrowStatus : Type :=
  pending | signed | disputed | released | refunded | expired.

Module Esc.
Record t : Type := {
  id : string;
  amount : string;
  recipient : string;
  expiryDate : string;
  status : EscrowStatus
}.
End Esc.
Abbreviation Escrow := Esc.t.

Record Contact : Type := {
  name : string;
  address : string
}.

(** The price cache: symbol to rate in the pivot currency. *)
Abbreviation Prices := (gmap string JS.number).

(** The mutable part of the context. *)
Record Ctx : Type := {
  wallets : list WalletAsset;
  transactions : list Transaction;
  escrows : list Escrow
}.

Inductive ToastKind : Type := success | error | warning | info.

Inductive Tab : Type := create | active.

(** What a handler does: calls into the wallet context, and calls that only
    touch the screen, the console or the browser. *)
Inductive Call : Type :=
  | SwapAssets (fromSymbol toSymbol : string) (amount : JS.number)
  | CreateEscrow (e : Escrow)
  | CreateEscrowOnChain (recipientAddress amount : string)
  | ReleaseEscrow (id : string)
  | ShowToast (message : string) (kind : ToastKind)
  | ConsoleWarn (message reason : string)
  | SetAmount (value : string)
  | SetActiveTab (tab : Tab)
  | SetShowExportMenu (shown : bool)
  | Download (filename content : string)
  | OnBack.

(** The calls that reach the wallet context. *)
Definition is_context_call (c : Call) : bool :=
  match c with
  | SwapAssets _ _ _ | CreateEscrow _ | CreateEscrowOnChain _ _ | ReleaseEscrow _ => true
  | _ => false
  end.

(** The calls that report a failure to the user. *)
Definition is_error_toast (c : Call) : bool :=
  match c with
  | ShowToast _ error => true
  | _ => false
  end.

Section Run.

(** The mutators of [WalletContext]; the file is not part of the sources,
    so the screens are verified for every implementation of them. *)
Variable swapAssets : string -> string -> JS.number -> Ctx -> Ctx.
Variable createEscrow : Escrow -> Ctx -> Ctx.
Variable releaseEscrow : string -> Ctx -> Ctx.

(** Modelled from the spec: [createEscrowOnChain] is the external
    settlement call of escrow creation; it is simulated, resolves or
    rejects, and commits nothing to the local context. *)
Definition step (w : Ctx) (c : Call) : Ctx :=
  match c with
  | SwapAssets f t a => swapAssets f t a w
  | CreateEscrow e => createEscrow e w
  | ReleaseEscrow i => releaseEscrow i w
  | _ => w
  end.

Definition run (calls : list Call) (w : Ctx) : Ctx := fold_left step calls w.

End Run.

End Wallet.

(* ===================================================================== *)
(** * [SwapScreen]                                                        *)
(* ===================================================================== *)

Module SwapScreen.
Import Wallet.

(** The component state. *)
Record State : Type := {
  fromAsset : WalletAsset;
  toAsset : WalletAsset;
  amount : string;
  estimatedOutput : string;
  useMesh : bool
}.

(** [const output = (parseFloat(amount) * fromRate) / toRate] *)
Definition output (prices : Prices) (st : State) : JS.number :=
  let fromRate := JS.or_else (prices !! symbol (fromAsset st)) JS.one in
  let toRate := JS.or_else (prices !! symbol (toAsset st)) JS.one in
  JS.div (JS.mul (JS.parseFloat (amount st)) fromRate) toRate.

(** The effect on [amount, fromAsset, toAsset, prices]: the new value of
    [estimatedOutput]. *)
Definition estimate (prices : Prices) (st : State) : string :=
  if JS.truthy_string (amount st) && JS.gtb (JS.parseFloat (amount st)) JS.zero
  then JS.toLocaleString (output prices st) 2 6
  else "0.00"%string.

Definition quote_effect (prices : Prices) (st : State) : State :=
  {| fromAsset := fromAsset st;
     toAsset := toAsset st;
     amount := amount st;
     estimatedOutput := estimate prices st;
     useMesh := useMesh st |}.

(** [setUseMesh(!useMesh)] *)
Definition toggleMesh (st : State) : State :=
  {| fromAsset := fromAsset st;
     toAsset := toAsset st;
     amount := amount st;
     estimatedOutput := estimatedOutput st;
     useMesh := negb (useMesh st) |}.

(** How [await swapAssets(...)] ends. *)
Inductive SwapResult : Type := SwapResolved | SwapRejected.

(** The handler awaits [swapAssets] outside any [try]: when the promise
    rejects, the rejection leaves the handler and neither [setAmount('')]
    nor [onBack()] runs. [swapped] tells how the promise ends; it is read
    only when the call is made. *)
Definition handleSwap (st : State) (swapped : SwapResult) : list Call :=
  if negb (JS.truthy_string (amount st)) || JS.leb (JS.parseFloat (amount st)) JS.zero
  then ShowToast "Please enter a valid amount" error :: nil
  else if JS.gtb (JS.parseFloat (amount st))
                 (JS.parseFloat (JS.remove_commas (balance (fromAsset st))))
  then ShowToast "Insufficient balance" error :: nil
  else SwapAssets (symbol (fromAsset st)) (symbol (toAsset st))
                  (JS.parseFloat (amount st))
       :: match swapped with
          | SwapResolved => SetAmount "" :: OnBack :: nil
          | SwapRejected => nil
          end.

End SwapScreen.

(* ===================================================================== *)
(** * [TransactionHistoryScreen]                                          *)
(* ===================================================================== *)

Module History.
Import Wallet.

(** [type FilterType = 'all' | 'sent' | 'received'] *)
Inductive FilterType : Type := type_all | type_sent | type_received.

(** [type DateFilter = 'all' | 'today' | 'week' | 'month' | 'year'] *)
Inductive DateFilter : Type :=
  date_all | date_today | date_week | date_month | date_year.

(** [tx.type === typeFilter] *)
Definition type_is (f : FilterType) (tx : Transaction) : bool :=
  match Tx.type tx, f with
  | sent, type_sent => true
  | received, type_received => true
  | _, _ => false
  end.

(** ** The pattern [/(\d+)\s*days?\s*ago/]

    After the digits the pattern continues with white space or the letter
    [d], so giving back digits never helps: the greedy run of digits is the
    only candidate at a start position.  The optional [s] is tried with and
    without. *)

(** [\s*ago] *)
Definition ago_here (s : string) : bool := JS.startsWith "ago" (JS.trimStart s).

(** [\s*days?\s*ago] *)
Definition days_ago_here (s : string) : bool :=
  let r := JS.trimStart s in
  if JS.startsWith "day" r then
    let r1 := JS.drop 3 r in
    (JS.startsWith "s" r1 && ago_here (JS.drop 1 r1)) || ago_here r1
  else false.

(** The pattern anchored at the start of [s]: the capture group. *)
Definition match_here (s : string) : option string :=
  let '(_, n, r) := JS.span_digits s in
  match n with
  | O => None
  | S _ => if days_ago_here r then Some (String.substring 0 n s) else None
  end.

(** [lower.match(...)]: the leftmost match; its first capture group. *)
Fixpoint daysMatch (s : string) : option string :=
  match match_here s with
  | Some d => Some d
  | None =>
      match s with
      | EmptyString => None
      | String _ r => daysMatch r
      end
  end.

Section Screen.

Variable tza : Z.
Variable legacy_parse : string -> JSDate.Date.

Local Abbreviation getDate := (JSDate.getDate tza).
Local Abbreviation getMonth := (JSDate.getMonth tza).
Local Abbreviation getFullYear := (JSDate.getFullYear tza).
Local Abbreviation setDate := (JSDate.setDate tza).
Local Abbreviation setMonth := (JSDate.setMonth tza).
Local Abbreviation setFullYear := (JSDate.setFullYear tza).

(** [parseDate]; [now] is the reading of the clock. *)
Definition parseDate (now : Z) (dateStr : string) : JSDate.Date :=
  let lower := JS.toLowerCase dateStr in
  let standard :=
    match JSDate.Date_of_string tza legacy_parse dateStr with
    | Some t => Some t
    | None => Some now
    end in
  if JS.includes lower "today" then Some now
  else if JS.includes lower "yesterday" then setDate now (getDate now - 1)
  else if JS.includes lower "days ago" then
    match daysMatch lower with
    | Some digits =>
        match JS.parseInt digits with
        | Some days => setDate now (getDate now - days)
        | None => None
        end
    | None => standard
    end
  else standard.

(** The search predicate; [query] is the lower-cased search text. *)
Definition matches_query (query : string) (tx : Transaction) : bool :=
  JS.includes (JS.toLowerCase (Tx.recipient tx)) query
  || JS.includes (JS.toLowerCase (Tx.amount tx)) query
  || JS.includes (JS.toLowerCase (Tx.currency tx)) query
  || JS.includes (JS.toLowerCase (Tx.id tx)) query.

(** The date predicate of the [switch]. *)
Definition in_range (now : Z) (dateFilter : DateFilter) (tx : Transaction) : bool :=
  let startOfToday :=
    JSDate.Date_of_ymd tza (getFullYear now) (getMonth now) (getDate now) in
  let txDate := parseDate now (Tx.date tx) in
  match dateFilter with
  | date_today => JSDate.geb txDate startOfToday
  | date_week => JSDate.geb txDate (setDate now (getDate now - 7))
  | date_month => JSDate.geb txDate (setMonth now (getMonth now - 1))
  | date_year => JSDate.geb txDate (setFullYear now (getFullYear now - 1))
  | date_all => true
  end.

Definition filteredTransactions (transactions : list Transaction)
    (searchQuery : string) (typeFilter : FilterType) (dateFilter : DateFilter)
    (now : Z) : list Transaction :=
  let filtered := transactions in
  let filtered :=
    if JS.truthy_string (JS.trim searchQuery)
    then List.filter (matches_query (JS.toLowerCase searchQuery)) filtered
    else filtered in
  let filtered :=
    match typeFilter with
    | type_all => filtered
    | _ => List.filter (type_is typeFilter) filtered
    end in
  let filtered :=
    match dateFilter with
    | date_all => filtered
    | _ => List.filter (in_range now dateFilter) filtered
    end in
  filtered.

End Screen.

(** ** Statistics *)

Record Stats : Type := {
  totalTransactions : nat;
  sentCount : nat;
  receivedCount : nat;
  totalSent : JS.number;
  totalReceived : JS.number;
  netFlow : JS.number
}.

(** The reducer of both totals: [acc + amount * rate]. *)
Definition add_value (prices : Prices) (acc : JS.number) (tx : Transaction) : JS.number :=
  let amount := JS.parseFloat (JS.remove_commas (Tx.amount tx)) in
  let rate := JS.or_else (prices !! Tx.currency tx) JS.one in
  JS.add acc (JS.mul amount rate).

Definition stats (filteredTransactions : list Transaction) (prices : Prices) : Stats :=
  let sent_txs := List.filter (type_is type_sent) filteredTransactions in
  let received_txs := List.filter (type_is type_received) filteredTransactions in
  let totalSent := fold_left (add_value prices) sent_txs JS.zero in
  let totalReceived := fold_left (add_value prices) received_txs JS.zero in
  {| totalTransactions := List.length filteredTransactions;
     sentCount := List.length sent_txs;
     receivedCount := List.length received_txs;
     totalSent := totalSent;
     totalReceived := totalReceived;
     netFlow := JS.sub totalReceived totalSent |}.

(** ** Export *)

Definition type_name (t : TxType) : string :=
  match t with
  | sent => "sent"
  | received => "received"
  end.

Definition headers : list string :=
  "ID" :: "Type" :: "Amount" :: "Currency" :: "Recipient" :: "Date" :: nil.

Definition row (tx : Transaction) : list string :=
  Tx.id tx :: type_name (Tx.type tx) :: Tx.amount tx :: Tx.currency tx
  :: Tx.recipient tx :: Tx.date tx :: nil.

(** The template [`"${cell}"`] *)
Definition quoted (cell : string) : string :=
  String JS.dquote (String.append cell (String JS.dquote EmptyString)).

Definition csv_line (r : list string) : string := JS.join "," (List.map quoted r).

Definition csvContent (filteredTransactions : list Transaction) : string :=
  JS.join JS.newline
    (JS.join "," headers :: List.map csv_line (List.map row filteredTransactions)).

(** [new Date().toISOString().split('T')[0]] *)
Definition iso_year (y : Z) : string :=
  if (0 <=? y) && (y <=? 9999) then JS.pad_digits 4 y
  else String (if y <? 0 then "-"%char else "+"%char) (JS.pad_digits 6 (Z.abs y)).

Definition isoDate (now : Z) : string :=
  String.append (iso_year (JSDate.YearFromTime now))
    (String "-"%char
      (String.append (JS.pad_digits 2 (JSDate.MonthFromTime now + 1))
        (String "-"%char (JS.pad_digits 2 (JSDate.DateFromTime now))))).

Definition exportToCSV (filteredTransactions : list Transaction) (now : Z) : list Call :=
  Download
    (String.append "hashpay_transactions_" (String.append (isoDate now) ".csv"))
    (csvContent filteredTransactions)
  :: ShowToast "Transactions exported to CSV" success
  :: SetShowExportMenu false
  :: nil.

End History.

(* ===================================================================== *)
(** * [EscrowScreen]                                                      *)
(* ===================================================================== *)

Module EscrowScreen.
Import Wallet.

(** The form of the create tab. *)
Record Form : Type := {
  amount : string;
  recipient : string;
  currency : string
}.

(** How the awaited on-chain call ends. *)
Inductive Settlement : Type :=
  | Resolved
  | Rejected (reason : string).

Inductive Action : Type := sign | dispute | release.

(** [contacts.find(c => c.name === recipient)] *)
Definition find_contact (contacts : list Contact) (recipient : string) : option Contact :=
  List.find (fun c => String.eqb (name c) recipient) contacts.

(** [contact?.address || recipient] *)
Definition recipientAddress (contacts : list Contact) (recipient : string) : string :=
  match find_contact contacts recipient with
  | Some c => if JS.truthy_string (address c) then address c else recipient
  | None => recipient
  end.

(** The record handed to [createEscrow]; [dateNow] is [Date.now()]. *)
Definition newEscrow (form : Form) (dateNow : Z) : Escrow :=
  {| Esc.id := JS.slice_last 6 (JS.Z_toString dateNow);
     Esc.amount := String.append (amount form) (String " "%char (currency form));
     Esc.recipient := recipient form;
     Esc.expiryDate := "7 Days";
     Esc.status := pending |}.

Definition handleCreateEscrow (form : Form) (contacts : list Contact)
    (dateNow : Z) (onChain : Settlement) : list Call :=
  CreateEscrow (newEscrow form dateNow)
  :: CreateEscrowOnChain (recipientAddress contacts (recipient form)) (amount form)
  :: match onChain with
     | Resolved => nil
     | Rejected e => ConsoleWarn "On-chain escrow simulated" e :: nil
     end
  ++ SetActiveTab active
  :: ShowToast "Escrow Created Successfully" success
  :: nil.

Definition handleAction (id : string) (action : Action) : list Call :=
  match action with
  | sign => ShowToast "Escrow Signed & Approved" success :: nil
  | dispute => ShowToast "Dispute Opened (Stubborn Mode)" warning :: nil
  | release => ReleaseEscrow id :: ShowToast "Funds Released" success :: nil
  end.

(** The action buttons of a listed escrow: all three are rendered only
    while [escrow.status === 'pending']. *)
Definition offered (e : Escrow) (action : Action) : bool :=
  match Esc.status e with
  | pending => true
  | _ => false
  end.

End EscrowScreen.


(* ===================================================================== *)
(** * The operations of the specification, in its own words              *)
(* ===================================================================== *)

Module Spec.
Import Wallet.

(** [getRate(symbol)]: the stored rate of a known symbol whose rate is a
    non-zero number, and [1] otherwise. *)
Definition getRate (prices : Prices) (sym : string) : JS.number :=
  match prices !! sym with
  | Some (S754_zero _) => JS.one
  | Some S754_nan => JS.one
  | Some r => r
  | None => JS.one
  end.

(** The look-up without the clause on the stored rate: the stored rate of
    every known symbol, and [1] for an absent one. *)
Definition stored_rate_or_one (prices : Prices) (sym : string) : JS.number :=
  match prices !! sym with
  | Some r => r
  | None => JS.one
  end.

(** [quote(from, to, amount)]: [amount * rate(from) / rate(to)]. *)
Definition quote (prices : Prices) (from to : string) (amount : JS.number) : JS.number :=
  JS.div (JS.mul amount (getRate prices from)) (getRate prices to).

(** The validation errors of [executeSwap]. *)
Inductive SwapError : Type := InvalidAmount | InsufficientFunds.

(** The preconditions of [execute(from, to, amount)]: [amount > 0], else
    [InvalidAmount]; [amount <= balance(from)], else [InsufficientFunds]. *)
Definition precondition_failure (amount balance : JS.number) : option SwapError :=
  if negb (JS.gtb amount JS.zero) then Some InvalidAmount
  else if JS.gtb amount balance then Some InsufficientFunds
  else None.

(** The notification of each validation error. *)
Definition notification (e : SwapError) : Call :=
  match e with
  | InvalidAmount => ShowToast "Please enter a valid amount" error
  | InsufficientFunds => ShowToast "Insufficient balance" error
  end.

(** The tabular export, line by line: the header row, then one row of six
    quoted fields per transaction. *)
Definition csv_header : string := "ID,Type,Amount,Currency,Recipient,Date".

Definition in_quotes (field : string) : string :=
  String.append (String JS.dquote field) (String JS.dquote EmptyString).

Definition csv_row (tx : Transaction) : string :=
  String.append (in_quotes (Tx.id tx))
    (String.append ","
      (String.append (in_quotes (History.type_name (Tx.type tx)))
        (String.append ","
          (String.append (in_quotes (Tx.amount tx))
            (String.append ","
              (String.append (in_quotes (Tx.currency tx))
                (String.append ","
                  (String.append (in_quotes (Tx.recipient tx))
                    (String.append "," (in_quotes (Tx.date tx))))))))))).

Definition csv_lines (txs : list Transaction) : list string :=
  csv_header :: List.map csv_row txs.

(** The search and type steps of [query(filter)], without the date step. *)
Definition search_step (searchQuery : string) (txs : list Transaction) : list Transaction :=
  if JS.truthy_string (JS.trim searchQuery)
  then List.filter (History.matches_query (JS.toLowerCase searchQuery)) txs
  else txs.

Definition type_step (typeFilter : History.FilterType) (txs : list Transaction) : list Transaction :=
  match typeFilter with
  | History.type_all => txs
  | _ => List.filter (History.type_is typeFilter) txs
  end.

(** Where the window of a date filter starts, [now] being the query time and
    [tza] the offset of local time: [today] at local midnight, [week] 7 days
    before [now], [month] one calendar month before [now] (28 to 31 days),
    [year] one calendar year before [now] (365 or 366 days). *)
Definition window_start (tza : Z) (d : History.DateFilter) (now start : Z) : Prop :=
  match d with
  | History.date_all => True
  | History.date_today => start = now - JSDate.TimeWithinDay (now + tza)
  | History.date_week => start = now - 7 * JSDate.msPerDay
  | History.date_month =>
      exists k, 28 <= k <= 31 /\ start = now - k * JSDate.msPerDay
  | History.date_year =>
      exists k, 365 <= k <= 366 /\ start = now - k * JSDate.msPerDay
  end.

(** A window that starts at [start] and ends at the query time. *)
Definition in_window_ending_now (start now : Z) (parsed : JSDate.Date) : bool :=
  match parsed with
  | Some p => (start <=? p) && (p <=? now)
  | None => false
  end.

(** The letter [a], in either case: every marker of [parseDate] has one,
    no string in the date-time string format has one. *)
Definition is_a (c : ascii) : bool :=
  Ascii.eqb c "a"%char || Ascii.eqb c "A"%char.

Fixpoint has_a (s : string) : bool :=
  match s with
  | EmptyString => false
  | String c r => is_a c || has_a r
  end.

(** A decimal digit, as a number. *)
Definition is_decimal_digit (d : Z) : Prop := 0 <= d <= 9.

(** What the amount field of the swap form can hold: it is an
    [<input type="number">], whose value is the empty string or a valid
    floating-point number. *)
Definition number_input (s : string) : Prop :=
  s = EmptyString \/ JS.parseFloat s <> JS.NaN.

(** A number in the canonical binary64 representation, as every JavaScript
    number is: the mantissa of a finite number has the width that goes with
    its exponent, and the exponent is in range. *)
Definition is_double (x : JS.number) : Prop :=
  valid_binary JS.prec JS.emax x = true.

(** The fiat value of transactions in a currency at parity with the pivot
    currency: the sum of the amounts, each taken at the rate [1]. *)
Definition value_at_parity (txs : list Transaction) : JS.number :=
  fold_left
    (fun acc tx =>
       JS.add acc (JS.mul (JS.parseFloat (JS.remove_commas (Tx.amount tx))) JS.one))
    txs JS.zero.

End Spec.

(* ===================================================================== *)
(** * The scenarios of the specification, and sample inputs               *)
(* ===================================================================== *)

Module Scenario.
Import Wallet.

Definition asset (sym bal : string) : WalletAsset :=
  {| symbol := sym; balance := bal; fiatValue := "0";
     color := "bg-primary"; icon := "payments" |}.

(** [rate(SUI) = 1.5], [rate(USDC) = 1.0] *)
Definition swap_prices : Prices :=
  <["SUI" := JS.parseFloat "1.5"]> (<["USDC" := JS.parseFloat "1.0"]> ∅).

(** A cache in which [SUI] is stored with the rate 0. *)
Definition zero_rate_prices : Prices :=
  <["SUI" := JS.zero]> (<["USDC" := JS.parseFloat "1.0"]> ∅).

(** The swap form holding [amount], from [SUI] (1,000 owned) to [USDC]. *)
Definition swap_form (amount : string) (mesh : bool) : SwapScreen.State :=
  {| SwapScreen.fromAsset := asset "SUI" "1,000";
     SwapScreen.toAsset := asset "USDC" "25.00";
     SwapScreen.amount := amount;
     SwapScreen.estimatedOutput := "0.00";
     SwapScreen.useMesh := mesh |}.

(** [quoteSwap(SUI, USDC, 100)] *)
Definition swap_state : SwapScreen.State := swap_form "100" false.

(** The transaction of the export scenario, and two more. *)
Definition T1 : Transaction :=
  {| Tx.id := "T1"; Tx.type := sent; Tx.amount := "100"; Tx.currency := "USD";
     Tx.recipient := "Jane"; Tx.date := "today" |}.

Definition T2 : Transaction :=
  {| Tx.id := "T2"; Tx.type := received; Tx.amount := "1,250.50";
     Tx.currency := "SUI"; Tx.recipient := "Bob"; Tx.date := "2999-01-01" |}.

Definition T3 : Transaction :=
  {| Tx.id := "T3"; Tx.type := received; Tx.amount := "3"; Tx.currency := "BTC";
     Tx.recipient := "Al"; Tx.date := "8 days ago" |}.

Definition T4 : Transaction :=
  {| Tx.id := "T4"; Tx.type := sent; Tx.amount := "12"; Tx.currency := "USDC";
     Tx.recipient := "Eve"; Tx.date := "Oct 24" |}.

(** 2026-11-02T01:02:03.004Z, read on a clock one hour ahead of UTC. *)
Definition now : Z := 1793581323004.
Definition tza : Z := 3600000.

(** A [Date.parse] that accepts the date-time string format only. *)
Definition strict_parse (s : string) : JSDate.Date := None.

(** A sample context, and sample mutators for it: a swap and a release each
    record a transaction, a creation registers the escrow. *)
Definition ctx0 : Ctx :=
  {| wallets := asset "SUI" "1,000" :: asset "USDC" "25.00" :: nil;
     transactions := T1 :: nil;
     escrows := nil |}.

Definition swapAssets (fromSymbol toSymbol : string) (amount : JS.number) (w : Ctx) : Ctx :=
  {| wallets := wallets w;
     transactions :=
       {| Tx.id := "S1"; Tx.type := sent; Tx.amount := JS.toLocaleString amount 2 6;
          Tx.currency := fromSymbol; Tx.recipient := toSymbol; Tx.date := "today" |}
       :: transactions w;
     escrows := escrows w |}.

Definition createEscrow (e : Escrow) (w : Ctx) : Ctx :=
  {| wallets := wallets w;
     transactions := transactions w;
     escrows := e :: escrows w |}.

Definition releaseEscrow (id : string) (w : Ctx) : Ctx :=
  {| wallets := wallets w;
     transactions :=
       {| Tx.id := id; Tx.type := sent; Tx.amount := "0"; Tx.currency := "USD";
          Tx.recipient := "escrow"; Tx.date := "today" |}
       :: transactions w;
     escrows := escrows w |}.

(** The escrow form as the screen opens it, and an escrow that is listed as
    pending. *)
Definition escrow_form : EscrowScreen.Form :=
  {| EscrowScreen.amount := "500.00";
     EscrowScreen.recipient := "Jane Cooper";
     EscrowScreen.currency := "USD" |}.

Definition contacts : list Contact :=
  {| name := "Jane Cooper"; address := "0xA11CE" |} :: nil.

Definition pending_escrow : Escrow :=
  {| Esc.id := "323004"; Esc.amount := "500.00 USD"; Esc.recipient := "Jane Cooper";
     Esc.expiryDate := "7 Days"; Esc.status := pending |}.

Definition ctx_with_escrow : Ctx :=
  {| wallets := wallets ctx0;
     transactions := transactions ctx0;
     escrows := pending_escrow :: nil |}.

End Scenario.

(* ===================================================================== *)
(** * [encodeURIComponent]                                                *)
(* ===================================================================== *)

Module URI.

(** The characters [encodeURIComponent] leaves as they are: letters, digits
    and [- _ . ! ~ * ' ( )]. *)
Definition unreserved (c : ascii) : bool :=
  let n := nat_of_ascii c in
  ((65 <=? n) && (n <=? 90) || (97 <=? n) && (n <=? 122)
   || (48 <=? n) && (n <=? 57)
   || (n =? 45) || (n =? 95) || (n =? 46) || (n =? 33) || (n =? 126)
   || (n =? 42) || (n =? 39) || (n =? 40) || (n =? 41))%nat.

Definition hex_digit (n : nat) : ascii :=
  if (n <? 10)%nat then ascii_of_nat (48 + n) else ascii_of_nat (55 + n).

(** [%XX], with upper-case hexadecimal digits. *)
Definition percent_encode (c : ascii) : string :=
  String "%"%char
    (String (hex_digit (nat_of_ascii c / 16))
       (String (hex_digit (nat_of_ascii c mod 16)) EmptyString)).

(** A string stands for its UTF-8 bytes: every byte that is not an
    unreserved character is written [%XX]. *)
Fixpoint encodeURIComponent (s : string) : string :=
  match s with
  | EmptyString => EmptyString
  | String c r =>
      if unreserved c then String c (encodeURIComponent r)
      else String.append (percent_encode c) (encodeURIComponent r)
  end.

End URI.

(* ===================================================================== *)
(** * [ReceiveScreen]                                                     *)
(* ===================================================================== *)

Module ReceiveScreen.

(** The component state; [address] is [userProfile.address]. *)
Record State : Type := {
  isRequesting : bool;
  amount : string;
  selectedToken : string;
  note : string
}.

(** What the handlers of this screen do. *)
Inductive Effect : Type :=
  | ClipboardWriteText (text : string)
  | NavigatorShare (title text url : string)
  | ShowToast (message : string) (kind : Wallet.ToastKind).

(** How the promise of [navigator.share] ends. *)
Inductive ShareResult : Type := Shared | ShareRejected.

(** The effect on [isRequesting, amount, selectedToken, note, address]: the
    new value of [qrData]. *)
Definition qrData (address : string) (st : State) : string :=
  if isRequesting st && JS.truthy_string (amount st)
  then String.append "hashpay:"
         (String.append address
           (String.append "?amount="
             (String.append (amount st)
               (String.append "&token="
                 (String.append (selectedToken st)
                   (String.append "&note="
                     (URI.encodeURIComponent (note st))))))))
  else address.

Definition copyToClipboard (address : string) : list Effect :=
  ClipboardWriteText address
  :: ShowToast "Address copied to clipboard" Wallet.success
  :: nil.

(** [navigatorShare] tells whether the browser has [navigator.share]. *)
Definition handleShare (navigatorShare : bool) (result : ShareResult)
    (address : string) (st : State) : list Effect :=
  if navigatorShare then
    NavigatorShare "My Hash-pay Address"
      (if isRequesting st
       then String.append "Pay me "
              (String.append (amount st)
                (String.append " "
                  (String.append (selectedToken st) " on Hash-pay")))
       else String.append "My Hash-pay Address: " address)
      (qrData address st)
    :: match result with
       | Shared => nil
       | ShareRejected => ShowToast "Sharing failed" Wallet.error :: nil
       end
  else
    ShowToast "Native sharing not supported, address copied" Wallet.info
    :: copyToClipboard address.

End ReceiveScreen.

(* ===================================================================== *)
(** * [SwapScreen]: switching and selecting assets                        *)
(* ===================================================================== *)

Module SwapControls.

Definition switchAssets (st : SwapScreen.State) : SwapScreen.State :=
  {| SwapScreen.fromAsset := SwapScreen.toAsset st;
     SwapScreen.toAsset := SwapScreen.fromAsset st;
     SwapScreen.amount := SwapScreen.amount st;
     SwapScreen.estimatedOutput := SwapScreen.estimatedOutput st;
     SwapScreen.useMesh := SwapScreen.useMesh st |}.

(** An entry of [assetsList]. *)
Module Entry.
Record t : Type := {
  symbol : string;
  name : string;
  balance : string
}.
End Entry.

(** [wallets.find(w => w.symbol === symbol)?.balance || '0'] *)
Definition listedBalance (wallets : list Wallet.WalletAsset) (symbol : string) : string :=
  match List.find (fun w => String.eqb (Wallet.symbol w) symbol) wallets with
  | Some w => if JS.truthy_string (Wallet.balance w) then Wallet.balance w else "0"
  | None => "0"
  end.

(** The callback of [Object.keys(prices).map(...)]. *)
Definition assetEntry (wallets : list Wallet.WalletAsset) (symbol : string) : Entry.t :=
  {| Entry.symbol := symbol;
     Entry.name :=
       if String.eqb symbol "SUI" then "Sui"
       else if String.eqb symbol "USDC" then "USD Coin"
       else symbol;
     Entry.balance := listedBalance wallets symbol |}.

(** [showAssetModal] while the modal is open. *)
Inductive AssetModal : Type := modal_from | modal_to.

(** The click on an entry of the modal. *)
Definition selectAsset (showAssetModal : AssetModal) (asset : Entry.t)
    (st : SwapScreen.State) : SwapScreen.State :=
  let newAsset :=
    {| Wallet.symbol := Entry.symbol asset;
       Wallet.balance := Entry.balance asset;
       Wallet.fiatValue := Wallet.fiatValue (SwapScreen.fromAsset st);
       Wallet.color := Wallet.color (SwapScreen.fromAsset st);
       Wallet.icon := Wallet.icon (SwapScreen.fromAsset st) |} in
  match showAssetModal with
  | modal_from =>
      {| SwapScreen.fromAsset := newAsset;
         SwapScreen.toAsset := SwapScreen.toAsset st;
         SwapScreen.amount := SwapScreen.amount st;
         SwapScreen.estimatedOutput := SwapScreen.estimatedOutput st;
         SwapScreen.useMesh := SwapScreen.useMesh st |}
  | modal_to =>
      {| SwapScreen.fromAsset := SwapScreen.fromAsset st;
         SwapScreen.toAsset := newAsset;
         SwapScreen.amount := SwapScreen.amount st;
         SwapScreen.estimatedOutput := SwapScreen.estimatedOutput st;
         SwapScreen.useMesh := SwapScreen.useMesh st |}
  end.

End SwapControls.

(* ===================================================================== *)
(** * [TransactionHistoryScreen]: filter state and image export           *)
(* ===================================================================== *)

Module HistoryControls.

(** The filter states of the component. *)
Record Filters : Type := {
  searchQuery : string;
  typeFilter : History.FilterType;
  dateFilter : History.DateFilter
}.

Definition clearFilters (f : Filters) : Filters * list Wallet.Call :=
  ({| searchQuery := "";
      typeFilter := History.type_all;
      dateFilter := History.date_all |},
   Wallet.ShowToast "Filters cleared" Wallet.info :: nil).

(** The condition under which the list is labelled [Filtered]:
    [searchQuery || typeFilter !== 'all' || dateFilter !== 'all']. *)
Definition labelledFiltered (f : Filters) : bool :=
  JS.truthy_string (searchQuery f)
  || match typeFilter f with History.type_all => false | _ => true end
  || match dateFilter f with History.date_all => false | _ => true end.

(** How [html2canvas] ends. *)
Inductive Render : Type :=
  | Rendered (imgData : string)
  | RenderFailed.

(** [imported] tells whether the dynamic import of [html2canvas] succeeded
    (a rejection leaves the handler before its first call), [elementFound]
    whether [document.getElementById('transaction-list')] found the list. *)
Definition exportToPDF (imported elementFound : bool) (render : Render) (now : Z)
    : list Wallet.Call :=
  if negb imported then nil
  else if negb elementFound
  then Wallet.ShowToast "Failed to generate PDF" Wallet.error :: nil
  else
    match render with
    | Rendered imgData =>
        Wallet.Download
          (String.append "hashpay_transactions_"
             (String.append (History.isoDate now) ".png"))
          imgData
        :: Wallet.ShowToast "Transactions exported as image" Wallet.success
        :: nil
    | RenderFailed => Wallet.ShowToast "Export failed" Wallet.error :: nil
    end
    ++ Wallet.SetShowExportMenu false :: nil.

End HistoryControls.

(* ===================================================================== *)
(** * Notions used to state the further properties                        *)
(* ===================================================================== *)

Module Notions.

(** Every character of [s] satisfies [p]. *)
Fixpoint all_chars (p : ascii -> bool) (s : string) : bool :=
  match s with
  | EmptyString => true
  | String c r => p c && all_chars p r
  end.

(** How often [c] occurs in [s]. *)
Fixpoint count_char (c : ascii) (s : string) : nat :=
  match s with
  | EmptyString => O
  | String a r => ((if Ascii.eqb a c then 1 else 0) + count_char c r)%nat
  end.

(** [c] occurs in [s]. *)
Fixpoint has_char (c : ascii) (s : string) : bool :=
  match s with
  | EmptyString => false
  | String a r => Ascii.eqb a c || has_char c r
  end.

(** A transaction passes the three tests of the history screen. *)
Definition passes (tza : Z) (legacy_parse : string -> JSDate.Date)
    (q : string) (t : History.FilterType) (d : History.DateFilter) (now : Z)
    (tx : Wallet.Transaction) : bool :=
  (negb (JS.truthy_string (JS.trim q))
   || History.matches_query (JS.toLowerCase q) tx)
  && match t with
     | History.type_all => true
     | _ => History.type_is t tx
     end
  && match d with
     | History.date_all => true
     | _ => History.in_range tza legacy_parse now d tx
     end.

(** The number a string of decimal digits denotes. *)
Definition decimal (digits : string) : Z := fst (fst (JS.span_digits digits)).

(** The six fields of a transaction, as exported, and how often [c] occurs
    in them. *)
Definition fields (tx : Wallet.Transaction) : list string := History.row tx.

Definition count_in_fields (c : ascii) (tx : Wallet.Transaction) : nat :=
  list_sum (List.map (count_char c) (fields tx)).

Definition count_in_all_fields (c : ascii) (txs : list Wallet.Transaction) : nat :=
  list_sum (List.map (count_in_fields c) txs).

Definition is_toast (c : Wallet.Call) : bool :=
  match c with
  | Wallet.ShowToast _ _ => true
  | _ => false
  end.

Definition is_download (c : Wallet.Call) : bool :=
  match c with
  | Wallet.Download _ _ => true
  | _ => false
  end.

Definition closes_export_menu (c : Wallet.Call) : bool :=
  match c with
  | Wallet.SetShowExportMenu false => true
  | _ => false
  end.

(** The clock and time zone the calendar lemmas are proved for: local time
    at or after the epoch, a time value in range, an offset of at most a
    day. *)
Definition usual_clock (tza now : Z) : Prop :=
  0 <= now + tza /\ now <= JSDate.maxTime /\ Z.abs tza <= JSDate.msPerDay.

End Notions.

(* ===================================================================== *)
(** * Properties of the runtime fragments                                 *)
(* ===================================================================== *)

Import Wallet.

(** ** Sample evaluations of the runtime fragments *)

Example parseFloat_tenth :
  JS.parseFloat "0.1" = S754_finite false 7205759403792794 (-56).
Proof. vm_compute. reflexivity. Qed.

Example parseFloat_reads_a_prefix :
  JS.parseFloat "  -12.5e-1 SUI" = S754_finite true 5629499534213120 (-52)
  /\ JS.parseFloat "1,250.50" = JS.one
  /\ JS.parseFloat (JS.remove_commas "1,250.50")
     = S754_finite false 5499757162135552 (-42).
Proof. repeat split; vm_compute; reflexivity. Qed.

Example parseFloat_not_a_number :
  JS.parseFloat "" = JS.NaN /\ JS.parseFloat "abc" = JS.NaN
  /\ JS.parseFloat "." = JS.NaN /\ JS.parseFloat "1e400" = S754_infinity false.
Proof. repeat split; vm_compute; reflexivity. Qed.

Example toLocaleString_samples :
  JS.toLocaleString (JS.div JS.one (JS.Number_of_Z 3)) 2 6 = "0.333333"%string
  /\ JS.toLocaleString (JS.parseFloat "1234567.891") 2 6 = "1,234,567.891"%string
  /\ JS.toLocaleString (JS.parseFloat "999.9999999") 2 6 = "1,000.00"%string
  /\ JS.toLocaleString (JS.parseFloat "2.5") 2 6 = "2.50"%string
  /\ JS.toLocaleString JS.NaN 2 6 = "NaN"%string.
Proof. repeat split; vm_compute; reflexivity. Qed.

Example parse_iso_samples :
  JSDate.parse_iso 0 "1970-01-01" = Some 0
  /\ JSDate.parse_iso 0 "2024-02-29" = Some 1709164800000
  /\ JSDate.parse_iso 0 "2023-02-29" = None
  /\ JSDate.parse_iso 3600000 "2024-01-15T10:30:00" = Some 1705311000000
  /\ JSDate.parse_iso 3600000 "2024-01-15T10:30:00.123Z" = Some 1705314600123
  /\ JSDate.parse_iso 0 "Oct 24, 2023" = None.
Proof. repeat split; vm_compute; reflexivity. Qed.

Example calendar_samples :
  (JSDate.YearFromTime Scenario.now, JSDate.MonthFromTime Scenario.now,
   JSDate.DateFromTime Scenario.now) = (2026, 10, 2)
  /\ (JSDate.YearFromTime (-1), JSDate.MonthFromTime (-1), JSDate.DateFromTime (-1))
     = (1969, 11, 31)
  /\ History.isoDate Scenario.now = "2026-11-02"%string.
Proof. repeat split; vm_compute; reflexivity. Qed.

Example parseDate_samples :
  let parse := History.parseDate Scenario.tza Scenario.strict_parse Scenario.now in
  parse "Today, 10:45 AM" = Some Scenario.now
  /\ parse "3 days ago" = Some (Scenario.now - 3 * JSDate.msPerDay)
  /\ parse "Oct 24" = Some Scenario.now
  /\ parse "99999999999999 days ago" = None.
Proof. repeat split; vm_compute; reflexivity. Qed.

Example week_filter_sample :
  List.map Tx.id
    (History.filteredTransactions Scenario.tza Scenario.strict_parse
       (Scenario.T1 :: Scenario.T2 :: Scenario.T3 :: Scenario.T4 :: nil)
       "" History.type_all History.date_week Scenario.now)
  = ("T1" :: "T2" :: "T4" :: nil)%string.
Proof. vm_compute. reflexivity. Qed.

Example stats_sample :
  let s := History.stats (Scenario.T1 :: Scenario.T2 :: Scenario.T3 :: nil)
                         Scenario.zero_rate_prices in
  (History.sentCount s, History.receivedCount s) = (1%nat, 2%nat)
  /\ JS.toLocaleString (History.totalSent s) 2 6 = "100.00"%string
  /\ JS.toLocaleString (History.totalReceived s) 2 6 = "1,253.50"%string
  /\ JS.toLocaleString (History.netFlow s) 2 6 = "1,153.50"%string.
Proof. repeat split; vm_compute; reflexivity. Qed.

Example handleCreateEscrow_sample :
  EscrowScreen.handleCreateEscrow Scenario.escrow_form Scenario.contacts
    Scenario.now (EscrowScreen.Rejected "network down")
  = CreateEscrow Scenario.pending_escrow
    :: CreateEscrowOnChain "0xA11CE" "500.00"
    :: ConsoleWarn "On-chain escrow simulated" "network down"
    :: SetActiveTab active
    :: ShowToast "Escrow Created Successfully" success
    :: nil.
Proof. vm_compute. reflexivity. Qed.

Section NumberFacts.

Lemma gtb_zero_false_leb (x : JS.number) :
  x <> JS.NaN -> JS.gtb x JS.zero = false -> JS.leb x JS.zero = true.
Proof.
  unfold JS.gtb, JS.leb, JS.zero, JS.NaN, SFltb, SFleb.
  destruct x as [s | s | | s m e]; simpl; try congruence;
    destruct s; simpl; congruence.
Qed.

Lemma gtb_zero_true_leb (x : JS.number) :
  JS.gtb x JS.zero = true -> JS.leb x JS.zero = false.
Proof.
  unfold JS.gtb, JS.leb, JS.zero, SFltb, SFleb.
  destruct x as [s | s | | s m e]; simpl; try congruence;
    destruct s; simpl; congruence.
Qed.

Lemma or_else_absent (d : JS.number) : JS.or_else None d = d.
Proof. reflexivity. Qed.

Lemma or_else_truthy (x d : JS.number) :
  JS.ToBoolean x = true -> JS.or_else (Some x) d = x.
Proof. intros H. simpl. now rewrite H. Qed.

Lemma or_else_zero (s : bool) (d : JS.number) :
  JS.or_else (Some (S754_zero s)) d = d.
Proof. reflexivity. Qed.

End NumberFacts.

(** ** The rate fall-back *)

Lemma or_else_getRate (prices : Prices) (sym : string) :
  JS.or_else (prices !! sym) JS.one = Spec.getRate prices sym.
Proof.
  unfold Spec.getRate.
  destruct (prices !! sym) as [r|]; [|reflexivity].
  destruct r; reflexivity.
Qed.

Lemma getRate_delete_zero (prices : Prices) (sym : string) (sgn : bool) :
  prices !! sym = Some (S754_zero sgn) ->
  forall other, Spec.getRate (delete sym prices) other = Spec.getRate prices other.
Proof.
  intros Hz other. unfold Spec.getRate.
  destruct (decide (sym = other)) as [<- | Hne].
  - rewrite lookup_delete_eq, Hz. reflexivity.
  - rewrite lookup_delete_ne by assumption. reflexivity.
Qed.

Lemma output_quote (prices : Prices) (st : SwapScreen.State) :
  SwapScreen.output prices st
  = Spec.quote prices (symbol (SwapScreen.fromAsset st))
               (symbol (SwapScreen.toAsset st))
               (JS.parseFloat (SwapScreen.amount st)).
Proof.
  unfold SwapScreen.output, Spec.quote.
  now rewrite !or_else_getRate.
Qed.

Lemma add_value_getRate (prices : Prices) (acc : JS.number) (tx : Transaction) :
  History.add_value prices acc tx
  = JS.add acc (JS.mul (JS.parseFloat (JS.remove_commas (Tx.amount tx)))
                       (Spec.getRate prices (Tx.currency tx))).
Proof.
  unfold History.add_value. now rewrite or_else_getRate.
Qed.

Lemma fold_left_pointwise {A B : Type} (f g : A -> B -> A) (l : list B) :
  (forall a b, f a b = g a b) -> forall a, fold_left f l a = fold_left g l a.
Proof.
  intros Hfg. induction l as [|b l IH]; intros a; simpl.
  - reflexivity.
  - rewrite Hfg. apply IH.
Qed.

(** ** The shape of a formatted number *)

Lemma append_cons (c : ascii) (s t : string) :
  String.append (String c s) t = String c (String.append s t).
Proof. reflexivity. Qed.

Lemma append_empty_l (t : string) : String.append EmptyString t = t.
Proof. reflexivity. Qed.

Lemma append_assoc (a b c : string) :
  String.append (String.append a b) c = String.append a (String.append b c).
Proof.
  induction a as [|x a IH].
  - reflexivity.
  - rewrite !append_cons. now rewrite IH.
Qed.

Lemma write_digits_acc (g : bool) (ds : list Z) :
  forall (p : nat) (acc : string),
    JS.write_digits g p ds acc
    = String.append (JS.write_digits g p ds EmptyString) acc.
Proof.
  induction ds as [|d r IH]; intros p acc.
  - reflexivity.
  - cbn [JS.write_digits]. rewrite IH. symmetry. rewrite IH.
    rewrite append_assoc. f_equal.
    destruct (g && (0 <? p)%nat && (p mod 3 =? 0)%nat); reflexivity.
Qed.

Lemma write_digits_plain_length (ds : list Z) :
  forall (p : nat) (acc : string),
    String.length (JS.write_digits false p ds acc)
    = (List.length ds + String.length acc)%nat.
Proof.
  induction ds as [|d r IH]; intros p acc; simpl.
  - reflexivity.
  - rewrite IH. simpl. lia.
Qed.

Lemma digit_char_is_digit (d : Z) :
  Spec.is_decimal_digit d -> JS.is_digit (JS.digit_char d) = true.
Proof.
  intros [Hlo Hhi].
  assert (H : d = 0 \/ d = 1 \/ d = 2 \/ d = 3 \/ d = 4 \/ d = 5 \/ d = 6
              \/ d = 7 \/ d = 8 \/ d = 9) by lia.
  repeat (destruct H as [-> | H]; [reflexivity|]). subst d. reflexivity.
Qed.

Lemma write_digits_plain_all_digits (ds : list Z) :
  Forall Spec.is_decimal_digit ds ->
  forall (p : nat) (acc : string),
    JS.all_digits acc = true ->
    JS.all_digits (JS.write_digits false p ds acc) = true.
Proof.
  induction 1 as [|d r Hd Hr IH]; intros p acc Hacc; simpl.
  - exact Hacc.
  - apply IH. simpl. now rewrite digit_char_is_digit, Hacc.
Qed.

Lemma low_digits_length (k : nat) : forall n, List.length (JS.low_digits k n) = k.
Proof. induction k as [|k IH]; intros n; simpl; [reflexivity | now rewrite IH]. Qed.

Lemma low_digits_range (k : nat) : forall n, Forall Spec.is_decimal_digit (JS.low_digits k n).
Proof.
  induction k as [|k IH]; intros n; simpl; constructor.
  - unfold Spec.is_decimal_digit. pose proof (Z.mod_pos_bound n 10). lia.
  - apply IH.
Qed.

Lemma drop_zeros_length (extra : nat) :
  forall ds,
    (List.length ds - extra <= List.length (JS.drop_zeros extra ds)
     <= List.length ds)%nat.
Proof.
  induction extra as [|e IH]; intros ds; simpl.
  - destruct ds; simpl; lia.
  - destruct ds as [|d r]; simpl; [lia|].
    destruct (d =? 0); simpl; [|lia].
    specialize (IH r). lia.
Qed.

Lemma drop_zeros_range (extra : nat) :
  forall ds, Forall Spec.is_decimal_digit ds ->
             Forall Spec.is_decimal_digit (JS.drop_zeros extra ds).
Proof.
  induction extra as [|e IH]; intros ds Hds; simpl.
  - destruct ds; assumption.
  - destruct ds as [|d r]; [assumption|].
    destruct (d =? 0); [|assumption].
    apply IH. now inversion Hds.
Qed.

(** A formatted finite number is a whole part, a point, and between
    [minFD] and [maxFD] decimal digits. *)
Lemma format_scaled_shape (neg : bool) (minFD maxFD : nat) (n : Z) :
  (0 < minFD <= maxFD)%nat ->
  exists whole frac : string,
    JS.format_scaled neg minFD maxFD n
    = String.append whole (String "."%char frac)
    /\ (minFD <= String.length frac <= maxFD)%nat
    /\ JS.all_digits frac = true.
Proof.
  intros Hfd. unfold JS.format_scaled.
  set (ds := JS.fraction_digits minFD maxFD (n mod 10 ^ Z.of_nat maxFD)).
  assert (Hlen : (minFD <= List.length ds <= maxFD)%nat).
  { subst ds. unfold JS.fraction_digits.
    pose proof (drop_zeros_length (maxFD - minFD)
                  (JS.low_digits maxFD (n mod 10 ^ Z.of_nat maxFD))) as H.
    rewrite low_digits_length in H. lia. }
  assert (Hrange : Forall Spec.is_decimal_digit ds).
  { subst ds. apply drop_zeros_range, low_digits_range. }
  set (frac := JS.write_digits false O ds EmptyString).
  set (int := JS.write_digits true O
                (JS.int_digits (n / 10 ^ Z.of_nat maxFD)) EmptyString).
  exists (if neg then String "-"%char int else int), frac.
  split; [|split].
  - destruct ds as [|d r] eqn:Eds; [simpl in Hlen; lia|].
    rewrite write_digits_acc. fold int. fold frac.
    destruct neg; reflexivity.
  - subst frac. rewrite write_digits_plain_length. simpl. lia.
  - subst frac. now apply write_digits_plain_all_digits.
Qed.

Lemma toLocaleString_shape (x : JS.number) (minFD maxFD : nat) :
  (0 < minFD <= maxFD)%nat ->
  JS.isFinite x = true ->
  exists whole frac : string,
    JS.toLocaleString x minFD maxFD
    = String.append whole (String "."%char frac)
    /\ (minFD <= String.length frac <= maxFD)%nat
    /\ JS.all_digits frac = true.
Proof.
  intros Hfd Hfin.
  destruct x as [s | s | | s m e]; try discriminate; simpl;
    now apply format_scaled_shape.
Qed.

(** The display rounds to the nearest multiple of [10^-k], ties up: the
    integer [n] shown satisfies [|x| * 10^k - 1/2 < n <= |x| * 10^k + 1/2]
    for [|x| = m * 2^e], here with both sides scaled by [2 * 2^-e]. *)
Lemma scaled_round_nearest (m : positive) (e : Z) (k : nat) :
  e < 0 ->
  let num := Zpos m * 10 ^ Z.of_nat k in
  let den := 2 ^ (- e) in
  let n := JS.scaled_round m e k in
  2 * den * n <= 2 * num + den < 2 * den * (n + 1).
Proof.
  intros He num den n. subst n. unfold JS.scaled_round.
  destruct (Z.leb_spec 0 e) as [Hge | _]; [lia|].
  fold num. fold den.
  assert (Hden : 0 < den) by (subst den; apply Z.pow_pos_nonneg; lia).
  pose proof (Z.div_mod (2 * num + den) (2 * den)) as Hdm.
  pose proof (Z.mod_pos_bound (2 * num + den) (2 * den)) as Hmod.
  nia.
Qed.

(** An integral value is displayed as it is. *)
Lemma scaled_round_integral (m : positive) (e : Z) (k : nat) :
  0 <= e -> JS.scaled_round m e k = Zpos m * 2 ^ e * 10 ^ Z.of_nat k.
Proof.
  intros He. unfold JS.scaled_round.
  destruct (Z.leb_spec 0 e) as [_ | Hlt]; lia.
Qed.

(* ===================================================================== *)
(** * The swap quote                                                      *)
(* ===================================================================== *)

(** C1, as stated, fails: the scenario [quoteSwap(SUI, USDC, 100)] at the
    rates 1.5 and 1.0 is displayed with two fraction digits, not six. *)
Lemma quote_scenario_is_not_six_digits :
  SwapScreen.estimate Scenario.swap_prices Scenario.swap_state = "150.00"%string
  /\ SwapScreen.estimate Scenario.swap_prices Scenario.swap_state
     <> "150.000000"%string.
Proof. split; [vm_compute; reflexivity | vm_compute; discriminate]. Qed.

(** C1, amended: for every quote of a positive amount the output is
    [amount * rate(from) / rate(to)] at the current prices, in binary64
    arithmetic; it is rounded only in the display, which shows a finite
    output with at least 2 and at most 6 fraction digits; the scenario
    [quoteSwap(SUI, USDC, 100)] at the rates 1.5 and 1.0 displays [150.00]. *)
Theorem quote_output_and_display (prices : Prices) (st : SwapScreen.State) :
  JS.truthy_string (SwapScreen.amount st) = true ->
  JS.gtb (JS.parseFloat (SwapScreen.amount st)) JS.zero = true ->
  let q := Spec.quote prices (symbol (SwapScreen.fromAsset st))
                      (symbol (SwapScreen.toAsset st))
                      (JS.parseFloat (SwapScreen.amount st)) in
  SwapScreen.output prices st = q
  /\ SwapScreen.estimatedOutput (SwapScreen.quote_effect prices st)
     = JS.toLocaleString q 2 6
  /\ (JS.isFinite q = true ->
      exists whole frac : string,
        SwapScreen.estimatedOutput (SwapScreen.quote_effect prices st)
        = String.append whole (String "."%char frac)
        /\ (2 <= String.length frac <= 6)%nat
        /\ JS.all_digits frac = true)
  /\ SwapScreen.estimate Scenario.swap_prices Scenario.swap_state
     = "150.00"%string.
Proof.
  intros Hamount Hpos q.
  assert (Hout : SwapScreen.output prices st = q) by apply output_quote.
  assert (Hshow : SwapScreen.estimatedOutput (SwapScreen.quote_effect prices st)
                  = JS.toLocaleString q 2 6).
  { simpl. unfold SwapScreen.estimate. now rewrite Hamount, Hpos, Hout. }
  split; [|split; [|split]].
  - exact Hout.
  - exact Hshow.
  - intros Hfin. rewrite Hshow. apply toLocaleString_shape; [lia | exact Hfin].
  - vm_compute. reflexivity.
Qed.

Lemma quote_output_and_display_witness :
  JS.truthy_string (SwapScreen.amount Scenario.swap_state) = true
  /\ JS.gtb (JS.parseFloat (SwapScreen.amount Scenario.swap_state)) JS.zero = true
  /\ SwapScreen.output Scenario.swap_prices Scenario.swap_state
     = Spec.quote Scenario.swap_prices "SUI" "USDC" (JS.parseFloat "100").
Proof.
  split; [reflexivity | split; [reflexivity|]].
  apply (quote_output_and_display Scenario.swap_prices Scenario.swap_state);
    reflexivity.
Defined.

(** C9: two runs of the quote computation that differ only in the mesh flag
    (and in what was displayed before) give the same output, the same
    display, and hand the same amount to the swap; toggling the flag leaves
    the quote as it is. *)
Theorem mesh_flag_does_not_alter_quote (prices : Prices)
    (from to : WalletAsset) (amount shown1 shown2 : string) (mesh1 mesh2 : bool)
    (swapped : SwapScreen.SwapResult) :
  let run1 := SwapScreen.Build_State from to amount shown1 mesh1 in
  let run2 := SwapScreen.Build_State from to amount shown2 mesh2 in
  SwapScreen.output prices run1 = SwapScreen.output prices run2
  /\ SwapScreen.estimatedOutput (SwapScreen.quote_effect prices run1)
     = SwapScreen.estimatedOutput (SwapScreen.quote_effect prices run2)
  /\ SwapScreen.handleSwap run1 swapped = SwapScreen.handleSwap run2 swapped
  /\ SwapScreen.estimate prices (SwapScreen.toggleMesh run1)
     = SwapScreen.estimate prices run1.
Proof.
  intros run1 run2. subst run1 run2.
  split; [|split; [|split]].
  - unfold SwapScreen.output. reflexivity.
  - unfold SwapScreen.quote_effect, SwapScreen.estimate, SwapScreen.output.
    reflexivity.
  - unfold SwapScreen.handleSwap. reflexivity.
  - unfold SwapScreen.toggleMesh, SwapScreen.estimate, SwapScreen.output.
    reflexivity.
Qed.

(* ===================================================================== *)
(** * The rate look-up                                                    *)
(* ===================================================================== *)

(** C8, as stated, fails: [SUI] is a known symbol whose stored rate is 0;
    the look-up gives 1 for it, not the stored rate, and the quote of 100 SUI
    is 100 USDC where the stored rates give 0. *)
Lemma stored_zero_rate_is_not_returned :
  Scenario.zero_rate_prices !! "SUI"%string = Some JS.zero
  /\ JS.or_else (Scenario.zero_rate_prices !! "SUI"%string) JS.one
     <> Spec.stored_rate_or_one Scenario.zero_rate_prices "SUI"
  /\ SwapScreen.output Scenario.zero_rate_prices Scenario.swap_state
     = JS.Number_of_Z 100
  /\ JS.div (JS.mul (JS.parseFloat "100")
                    (Spec.stored_rate_or_one Scenario.zero_rate_prices "SUI"))
            (Spec.stored_rate_or_one Scenario.zero_rate_prices "USDC")
     = JS.zero.
Proof.
  split; [|split; [|split]]; try (vm_compute; reflexivity).
  vm_compute. discriminate.
Qed.

(** C8, amended: the rate look-up returns the stored rate of a known symbol
    whose stored rate is a non-zero number, and 1 for a symbol that is absent
    from the cache, as a fall-back and not as an error; the swap quote and
    the sent, received and net-flow totals all apply this look-up. *)
Theorem rate_lookup_with_fallback (prices : Prices) (sym : string) :
  (forall r, prices !! sym = Some r -> JS.ToBoolean r = true ->
             JS.or_else (prices !! sym) JS.one = r)
  /\ (prices !! sym = None -> JS.or_else (prices !! sym) JS.one = JS.one)
  /\ JS.or_else (prices !! sym) JS.one = Spec.getRate prices sym
  /\ (forall st,
        SwapScreen.output prices st
        = JS.div (JS.mul (JS.parseFloat (SwapScreen.amount st))
                         (Spec.getRate prices (symbol (SwapScreen.fromAsset st))))
                 (Spec.getRate prices (symbol (SwapScreen.toAsset st))))
  /\ (forall txs,
        let value acc tx :=
          JS.add acc (JS.mul (JS.parseFloat (JS.remove_commas (Tx.amount tx)))
                             (Spec.getRate prices (Tx.currency tx))) in
        let s := History.stats txs prices in
        History.totalSent s
        = fold_left value (List.filter (History.type_is History.type_sent) txs) JS.zero
        /\ History.totalReceived s
           = fold_left value (List.filter (History.type_is History.type_received) txs) JS.zero
        /\ History.netFlow s
           = JS.sub (History.totalReceived s) (History.totalSent s)).
Proof.
  split; [|split; [|split; [|split]]].
  - intros r Hr Ht. rewrite Hr. now apply or_else_truthy.
  - intros Hn. now rewrite Hn.
  - apply or_else_getRate.
  - intros st. apply output_quote.
  - intros txs value s. subst s. simpl.
    split; [|split]; try reflexivity;
      apply fold_left_pointwise; intros acc tx; apply add_value_getRate.
Qed.

Lemma rate_lookup_with_fallback_witness :
  Scenario.swap_prices !! "SUI"%string = Some (JS.parseFloat "1.5")
  /\ JS.ToBoolean (JS.parseFloat "1.5") = true
  /\ JS.or_else (Scenario.swap_prices !! "SUI"%string) JS.one = JS.parseFloat "1.5"
  /\ Scenario.swap_prices !! "BTC"%string = None
  /\ JS.or_else (Scenario.swap_prices !! "BTC"%string) JS.one = JS.one.
Proof.
  assert (Hsui : Scenario.swap_prices !! "SUI"%string = Some (JS.parseFloat "1.5"))
    by (vm_compute; reflexivity).
  assert (Hbtc : Scenario.swap_prices !! "BTC"%string = None)
    by (vm_compute; reflexivity).
  split; [exact Hsui | split; [reflexivity | split; [|split; [exact Hbtc|]]]].
  - exact (proj1 (rate_lookup_with_fallback Scenario.swap_prices "SUI")
             (JS.parseFloat "1.5") Hsui eq_refl).
  - exact (proj1 (proj2 (rate_lookup_with_fallback Scenario.swap_prices "BTC")) Hbtc).
Defined.

(** ** Multiplying and dividing by one *)

Lemma one_mantissa : JS.one = S754_finite false 4503599627370496 (-52).
Proof. vm_compute. reflexivity. Qed.

Lemma mul_two_52 (m : positive) :
  (m * 4503599627370496)%positive = Pos.iter xO m 52.
Proof. cbv [Pos.iter]. rewrite !Pos.mul_xO_r, Pos.mul_1_r. reflexivity. Qed.

Lemma digits_two_52 (m : positive) :
  Z.pos (digits2_pos (Pos.iter xO m 52)) = Z.pos (digits2_pos m) + 52.
Proof. cbv [Pos.iter]. cbn [digits2_pos]. rewrite !Pos2Z.inj_succ. lia. Qed.

Lemma shr_two_52 (m : positive) :
  SpecFloat.iter_pos shr_1 52
    {| shr_m := Z.pos (Pos.iter xO m 52); shr_r := false; shr_s := false |}
  = {| shr_m := Z.pos m; shr_r := false; shr_s := false |}.
Proof. reflexivity. Qed.

Lemma mul_one_r (a : JS.number) :
  valid_binary JS.prec JS.emax a = true -> JS.mul a JS.one = a.
Proof.
  intros Hvalid. unfold JS.mul. rewrite one_mantissa.
  destruct a as [s | s | | s m e]; try (destruct s; reflexivity); try reflexivity.
  cbn [valid_binary] in Hvalid. unfold bounded, canonical_mantissa in Hvalid.
  apply andb_true_iff in Hvalid as [Hcanon Hmax].
  apply Z.eqb_eq in Hcanon.
  cbn [SFmul]. rewrite mul_two_52. unfold binary_round_aux.
  assert (Hfirst : shr_fexp JS.prec JS.emax (Z.pos (Pos.iter xO m 52)) (e + -52)
                     loc_Exact
                   = ({| shr_m := Z.pos m; shr_r := false; shr_s := false |}, e)).
  { unfold shr_fexp. cbn [Zdigits2]. rewrite digits_two_52.
    replace (Z.pos (digits2_pos m) + 52 + (e + -52))
      with (Z.pos (digits2_pos m) + e) by lia.
    rewrite Hcanon.
    replace (e - (e + -52)) with 52 by lia.
    cbn [shr shr_record_of_loc]. rewrite shr_two_52. f_equal. lia. }
  rewrite Hfirst. cbn [shr_m loc_of_shr_record round_nearest_even].
  assert (Hsecond : shr_fexp JS.prec JS.emax (Z.pos m) e loc_Exact
                    = ({| shr_m := Z.pos m; shr_r := false; shr_s := false |}, e)).
  { unfold shr_fexp. cbn [Zdigits2]. rewrite Hcanon, Z.sub_diag. reflexivity. }
  rewrite Hsecond. cbn [shr_m]. rewrite Hmax.
  destruct s; reflexivity.
Qed.

Lemma add_zero_l (a : JS.number) : JS.ToBoolean a = true -> JS.add JS.zero a = a.
Proof. destruct a; try reflexivity; discriminate. Qed.

Lemma div_one_r (a : JS.number) :
  valid_binary JS.prec JS.emax a = true -> JS.div a JS.one = a.
Proof.
  intros Hvalid. unfold JS.div. rewrite one_mantissa.
  destruct a as [s | s | | s m e]; try (destruct s; reflexivity); try reflexivity.
  cbn [valid_binary] in Hvalid. unfold bounded, canonical_mantissa in Hvalid.
  apply andb_true_iff in Hvalid as [Hcanon Hmax].
  apply Z.eqb_eq in Hcanon.
  assert (Hsecond : shr_fexp JS.prec JS.emax (Z.pos m) e loc_Exact
                    = ({| shr_m := Z.pos m; shr_r := false; shr_s := false |}, e)).
  { unfold shr_fexp. cbn [Zdigits2]. rewrite Hcanon, Z.sub_diag. reflexivity. }
  cbn [SFdiv]. unfold SFdiv_core_binary.
  change (Zdigits2 4503599627370496) with 53.
  cbn [Zdigits2].
  replace (Z.pos (digits2_pos m) + e - (53 + -52))
    with (Z.pos (digits2_pos m) + e - 1) by lia.
  replace (e - -52) with (e + 52) by lia.
  assert (Hcases :
            Z.min (fexp JS.prec JS.emax (Z.pos (digits2_pos m) + e - 1)) (e + 52) = e
            \/ (Z.min (fexp JS.prec JS.emax (Z.pos (digits2_pos m) + e - 1)) (e + 52)
                = e - 1
                /\ fexp JS.prec JS.emax (Z.pos (digits2_pos m) + 1 + (e - 1)) = e)).
  { unfold fexp, emin, JS.prec, JS.emax in *. lia. }
  destruct Hcases as [He | [He Hcanon']].
  - rewrite He. replace (e + 52 - e) with 52 by lia.
    rewrite Z.shiftl_mul_pow2 by lia.
    change (2 ^ 52) with 4503599627370496.
    destruct (Z.div_eucl (Z.pos m * 4503599627370496) 4503599627370496)
      as [q r] eqn:Hdiv.
    assert (Hq : q = Z.pos m).
    { change q with (fst (q, r)). rewrite <- Hdiv.
      change (fst (Z.div_eucl ?x ?y)) with (x / y).
      apply Z.div_mul. discriminate. }
    assert (Hr : r = 0).
    { change r with (snd (q, r)). rewrite <- Hdiv.
      change (snd (Z.div_eucl ?x ?y)) with (x mod y).
      apply Z.mod_mul. discriminate. }
    subst q r. change (new_location 4503599627370496 0) with loc_Exact.
    unfold binary_round_aux. rewrite Hsecond.
    cbn [shr_m loc_of_shr_record round_nearest_even]. rewrite Hsecond.
    cbn [shr_m]. rewrite Hmax. destruct s; reflexivity.
  - rewrite He. replace (e + 52 - (e - 1)) with 53 by lia.
    rewrite Z.shiftl_mul_pow2 by lia.
    change (2 ^ 53) with (2 * 4503599627370496).
    destruct (Z.div_eucl (Z.pos m * (2 * 4503599627370496)) 4503599627370496)
      as [q r] eqn:Hdiv.
    assert (Hq : q = Z.pos m~0).
    { change q with (fst (q, r)). rewrite <- Hdiv.
      change (fst (Z.div_eucl ?x ?y)) with (x / y).
      rewrite Z.mul_assoc. rewrite Z.div_mul by discriminate. lia. }
    assert (Hr : r = 0).
    { change r with (snd (q, r)). rewrite <- Hdiv.
      change (snd (Z.div_eucl ?x ?y)) with (x mod y).
      rewrite Z.mul_assoc. apply Z.mod_mul. discriminate. }
    subst q r. change (new_location 4503599627370496 0) with loc_Exact.
    unfold binary_round_aux.
    assert (Hfirst : shr_fexp JS.prec JS.emax (Z.pos m~0) (e - 1) loc_Exact
                     = ({| shr_m := Z.pos m; shr_r := false; shr_s := false |}, e)).
    { unfold shr_fexp. cbn [Zdigits2 digits2_pos]. rewrite Pos2Z.inj_succ.
      replace (Z.succ (Z.pos (digits2_pos m)) + (e - 1))
        with (Z.pos (digits2_pos m) + 1 + (e - 1)) by lia.
      rewrite Hcanon'. replace (e - (e - 1)) with 1 by lia.
      cbn [shr shr_record_of_loc SpecFloat.iter_pos shr_1]. f_equal. lia. }
    rewrite Hfirst. cbn [shr_m loc_of_shr_record round_nearest_even].
    rewrite Hsecond. cbn [shr_m]. rewrite Hmax. destruct s; reflexivity.
Qed.

Lemma fold_add_value_parity (prices : Prices) (sym : string) (sgn : bool) :
  prices !! sym = Some (S754_zero sgn) ->
  forall txs, Forall (fun tx => Tx.currency tx = sym) txs ->
  fold_left (History.add_value prices) txs JS.zero = Spec.value_at_parity txs.
Proof.
  intros Hz txs Hall. unfold Spec.value_at_parity. generalize JS.zero.
  induction Hall as [|tx txs Hcur Hall IH]; intros acc; [reflexivity|].
  cbn [fold_left]. rewrite IH. f_equal.
  unfold History.add_value. now rewrite Hcur, Hz.
Qed.

Lemma Forall_list_filter {A : Type} (P : A -> Prop) (f : A -> bool) (l : list A) :
  Forall P l -> Forall P (List.filter f l).
Proof.
  induction 1 as [|x l Hx Hl IH]; simpl; [constructor|].
  destruct (f x); [constructor; assumption | assumption].
Qed.

(** C10: a symbol whose stored rate is exactly 0 is treated as a symbol that
    is not in the cache at all: the rate 1 is applied, the quote and the
    totals are those of the cache without the symbol, and an amount in that
    currency is valued at parity, not at zero: the quote from that currency
    is the amount at the rate 1 over the rate of the target (the amount
    itself when the target is at the rate 1), the totals of transactions in
    that currency are the sums of their amounts at the rate 1, and the total
    of one such transaction with a non-zero amount is that amount. *)
Theorem zero_rate_is_treated_as_unknown (prices : Prices) (sym : string) (sgn : bool) :
  prices !! sym = Some (S754_zero sgn) ->
  JS.or_else (prices !! sym) JS.one = JS.one
  /\ JS.or_else (delete sym prices !! sym) JS.one = JS.one
  /\ (forall st,
        SwapScreen.output prices st = SwapScreen.output (delete sym prices) st
        /\ SwapScreen.estimate prices st = SwapScreen.estimate (delete sym prices) st)
  /\ (forall txs, History.stats txs prices = History.stats txs (delete sym prices))
  /\ (forall acc tx,
        Tx.currency tx = sym ->
        History.add_value prices acc tx
        = JS.add acc (JS.mul (JS.parseFloat (JS.remove_commas (Tx.amount tx))) JS.one))
  /\ (forall st,
        symbol (SwapScreen.fromAsset st) = sym ->
        let a := JS.parseFloat (SwapScreen.amount st) in
        let toRate := Spec.getRate prices (symbol (SwapScreen.toAsset st)) in
        SwapScreen.output prices st = JS.div (JS.mul a JS.one) toRate
        /\ (JS.truthy_string (SwapScreen.amount st) && JS.gtb a JS.zero = true ->
            SwapScreen.estimate prices st
            = JS.toLocaleString (JS.div (JS.mul a JS.one) toRate) 2 6)
        /\ (Spec.is_double a -> SwapScreen.output prices st = JS.div a toRate)
        /\ (Spec.is_double a -> toRate = JS.one -> SwapScreen.output prices st = a))
  /\ (forall st,
        symbol (SwapScreen.toAsset st) = sym ->
        let value :=
          JS.mul (JS.parseFloat (SwapScreen.amount st))
                 (Spec.getRate prices (symbol (SwapScreen.fromAsset st))) in
        SwapScreen.output prices st = JS.div value JS.one
        /\ (Spec.is_double value -> SwapScreen.output prices st = value))
  /\ (forall txs,
        Forall (fun tx => Tx.currency tx = sym) txs ->
        let sent_txs := List.filter (History.type_is History.type_sent) txs in
        let received_txs := List.filter (History.type_is History.type_received) txs in
        History.totalSent (History.stats txs prices) = Spec.value_at_parity sent_txs
        /\ History.totalReceived (History.stats txs prices)
           = Spec.value_at_parity received_txs
        /\ History.netFlow (History.stats txs prices)
           = JS.sub (Spec.value_at_parity received_txs)
                    (Spec.value_at_parity sent_txs))
  /\ (forall tx,
        Tx.currency tx = sym ->
        let a := JS.parseFloat (JS.remove_commas (Tx.amount tx)) in
        Spec.is_double a -> JS.ToBoolean a = true ->
        History.add_value prices JS.zero tx = a
        /\ match Tx.type tx with
           | sent =>
               History.totalSent (History.stats (tx :: nil) prices) = a
               /\ History.netFlow (History.stats (tx :: nil) prices)
                  = JS.sub JS.zero a
           | received =>
               History.totalReceived (History.stats (tx :: nil) prices) = a
               /\ History.netFlow (History.stats (tx :: nil) prices)
                  = JS.sub a JS.zero
           end).
Proof.
  intros Hz.
  assert (Hrate : forall other,
             JS.or_else (delete sym prices !! other) JS.one
             = JS.or_else (prices !! other) JS.one).
  { intros other. rewrite !or_else_getRate. now apply getRate_delete_zero with sgn. }
  assert (Hout : forall st,
             SwapScreen.output prices st = SwapScreen.output (delete sym prices) st).
  { intros st. unfold SwapScreen.output. now rewrite !Hrate. }
  assert (Hsym : Spec.getRate prices sym = JS.one)
    by (unfold Spec.getRate; now rewrite Hz).
  assert (Hvalue : forall acc tx,
            Tx.currency tx = sym ->
            History.add_value prices acc tx
            = JS.add acc
                (JS.mul (JS.parseFloat (JS.remove_commas (Tx.amount tx))) JS.one)).
  { intros acc tx Hcur. unfold History.add_value. subst sym. now rewrite Hz. }
  assert (Hone : forall tx,
            Tx.currency tx = sym ->
            Spec.is_double (JS.parseFloat (JS.remove_commas (Tx.amount tx))) ->
            JS.ToBoolean (JS.parseFloat (JS.remove_commas (Tx.amount tx))) = true ->
            History.add_value prices JS.zero tx
            = JS.parseFloat (JS.remove_commas (Tx.amount tx))).
  { intros tx Hcur Hdouble Hnonzero.
    rewrite (Hvalue _ _ Hcur), (mul_one_r _ Hdouble).
    now apply add_zero_l. }
  split; [|split; [|split; [|split; [|split; [|split; [|split; [|split]]]]]]].
  - now rewrite Hz.
  - now rewrite lookup_delete_eq.
  - intros st. split; [apply Hout|].
    unfold SwapScreen.estimate. now rewrite Hout.
  - intros txs. unfold History.stats.
    assert (Hfold : forall l,
               fold_left (History.add_value (delete sym prices)) l JS.zero
               = fold_left (History.add_value prices) l JS.zero).
    { intros l. apply fold_left_pointwise. intros acc tx.
      unfold History.add_value. now rewrite Hrate. }
    now rewrite !Hfold.
  - exact Hvalue.
  - intros st Hfrom a toRate. subst a toRate.
    assert (Hquote : SwapScreen.output prices st
                     = JS.div (JS.mul (JS.parseFloat (SwapScreen.amount st)) JS.one)
                         (Spec.getRate prices (symbol (SwapScreen.toAsset st)))).
    { rewrite output_quote. unfold Spec.quote. now rewrite Hfrom, Hsym. }
    split; [exact Hquote | split; [|split]].
    + intros Hshown. unfold SwapScreen.estimate. now rewrite Hshown, Hquote.
    + intros Hdouble. now rewrite Hquote, (mul_one_r _ Hdouble).
    + intros Hdouble Hto.
      rewrite Hquote, Hto, (mul_one_r _ Hdouble). now apply div_one_r.
  - intros st Hto value. subst value.
    assert (Hquote : SwapScreen.output prices st
                     = JS.div
                         (JS.mul (JS.parseFloat (SwapScreen.amount st))
                            (Spec.getRate prices (symbol (SwapScreen.fromAsset st))))
                         JS.one).
    { rewrite output_quote. unfold Spec.quote. now rewrite Hto, Hsym. }
    split; [exact Hquote|].
    intros Hdouble. rewrite Hquote. now apply div_one_r.
  - intros txs Hall sent_txs received_txs. subst sent_txs received_txs.
    unfold History.stats.
    cbn [History.totalSent History.totalReceived History.netFlow].
    rewrite !(fold_add_value_parity prices sym sgn Hz)
      by now apply Forall_list_filter.
    split; [reflexivity | split; reflexivity].
  - intros tx Hcur a Hdouble Hnonzero. subst a.
    split; [now apply Hone|].
    unfold History.stats, History.type_is.
    cbn [History.totalSent History.totalReceived History.netFlow List.filter].
    destruct (Tx.type tx); cbn [fold_left]; rewrite (Hone tx Hcur Hdouble Hnonzero);
      split; reflexivity.
Qed.

Lemma zero_rate_is_treated_as_unknown_witness :
  Scenario.zero_rate_prices !! "SUI"%string = Some (S754_zero false)
  /\ JS.or_else (Scenario.zero_rate_prices !! "SUI"%string) JS.one = JS.one
  /\ History.stats (Scenario.T2 :: nil) Scenario.zero_rate_prices
     = History.stats (Scenario.T2 :: nil) (delete "SUI"%string Scenario.zero_rate_prices)
  /\ SwapScreen.output Scenario.zero_rate_prices Scenario.swap_state
     = JS.parseFloat "100"
  /\ History.totalReceived (History.stats (Scenario.T2 :: nil) Scenario.zero_rate_prices)
     = JS.parseFloat "1250.50".
Proof.
  assert (Hz : Scenario.zero_rate_prices !! "SUI"%string = Some (S754_zero false))
    by (vm_compute; reflexivity).
  pose proof (zero_rate_is_treated_as_unknown
                Scenario.zero_rate_prices "SUI" false Hz)
    as (Hrate & _ & _ & Hstats & _ & Hfrom & _ & _ & Hone).
  split; [exact Hz | split; [exact Hrate | split; [exact (Hstats _) | split]]].
  - destruct (Hfrom Scenario.swap_state eq_refl) as (_ & _ & _ & Hquote).
    apply Hquote; vm_compute; reflexivity.
  - destruct (Hone Scenario.T2 eq_refl) as [_ Htotal];
      [vm_compute; reflexivity | reflexivity |].
    exact (proj1 Htotal).
Defined.

(* ===================================================================== *)
(** * Handlers against an arbitrary wallet context                        *)
(* ===================================================================== *)

Section Handlers.

Variable swapAssets : string -> string -> JS.number -> Ctx -> Ctx.
Variable createEscrow : Escrow -> Ctx -> Ctx.
Variable releaseEscrow : string -> Ctx -> Ctx.

Local Abbreviation run := (Wallet.run swapAssets createEscrow releaseEscrow).

Lemma run_screen_only (calls : list Call) (w : Ctx) :
  existsb is_context_call calls = false -> run calls w = w.
Proof.
  unfold Wallet.run. revert w.
  induction calls as [|c calls IH]; intros w Hnone; simpl in *.
  - reflexivity.
  - apply orb_false_iff in Hnone as [Hc Hrest].
    rewrite <- (IH w Hrest) at 2. f_equal.
    destruct c; simpl in Hc; try discriminate; reflexivity.
Qed.

Lemma run_app (calls1 calls2 : list Call) (w : Ctx) :
  run (calls1 ++ calls2) w = run calls2 (run calls1 w).
Proof. unfold Wallet.run. apply fold_left_app. Qed.

Lemma parseFloat_positive_nonempty (s : string) :
  JS.gtb (JS.parseFloat s) JS.zero = true -> JS.truthy_string s = true.
Proof. destruct s; [vm_compute; discriminate | reflexivity]. Qed.

(** C2: when the amount is not greater than 0 the swap fails with the
    invalid-amount notification, when it exceeds the balance of the source
    asset with the insufficient-funds notification; in both cases the handler
    returns before it calls the wallet context, so that no balance changes
    and no transaction is appended. *)
Theorem handleSwap_rejects_before_any_mutation
    (st : SwapScreen.State) (swapped : SwapScreen.SwapResult) (w : Ctx)
    (e : Spec.SwapError) :
  Spec.number_input (SwapScreen.amount st) ->
  Spec.precondition_failure
    (JS.parseFloat (SwapScreen.amount st))
    (JS.parseFloat (JS.remove_commas (balance (SwapScreen.fromAsset st))))
  = Some e ->
  SwapScreen.handleSwap st swapped = Spec.notification e :: nil
  /\ existsb is_context_call (SwapScreen.handleSwap st swapped) = false
  /\ run (SwapScreen.handleSwap st swapped) w = w
  /\ wallets (run (SwapScreen.handleSwap st swapped) w) = wallets w
  /\ transactions (run (SwapScreen.handleSwap st swapped) w) = transactions w.
Proof.
  intros Hinput Hfail.
  assert (Hcalls : SwapScreen.handleSwap st swapped = Spec.notification e :: nil).
  { unfold Spec.precondition_failure in Hfail. unfold SwapScreen.handleSwap.
    destruct (JS.gtb (JS.parseFloat (SwapScreen.amount st)) JS.zero) eqn:Hpos;
      simpl in Hfail.
    - rewrite (parseFloat_positive_nonempty _ Hpos).
      rewrite (gtb_zero_true_leb _ Hpos). simpl.
      destruct (JS.gtb (JS.parseFloat (SwapScreen.amount st))
                  (JS.parseFloat
                     (JS.remove_commas (balance (SwapScreen.fromAsset st)))));
        [|discriminate].
      now inversion Hfail.
    - inversion Hfail; subst e. simpl.
      destruct Hinput as [Hempty | Hnum].
      + now rewrite Hempty.
      + rewrite (gtb_zero_false_leb _ Hnum Hpos). now rewrite orb_true_r. }
  assert (Hnone : existsb is_context_call (SwapScreen.handleSwap st swapped) = false).
  { rewrite Hcalls. now destruct e. }
  assert (Hsame : run (SwapScreen.handleSwap st swapped) w = w)
    by now apply run_screen_only.
  rewrite Hsame. repeat (split; [assumption || reflexivity|]). reflexivity.
Qed.

(** When both preconditions hold the handler does call the context,
    however the call ends: the rejection above is not vacuous. *)
Lemma handleSwap_accepts (st : SwapScreen.State) (swapped : SwapScreen.SwapResult)
    (w : Ctx) :
  Spec.precondition_failure
    (JS.parseFloat (SwapScreen.amount st))
    (JS.parseFloat (JS.remove_commas (balance (SwapScreen.fromAsset st))))
  = None ->
  run (SwapScreen.handleSwap st swapped) w
  = swapAssets (symbol (SwapScreen.fromAsset st)) (symbol (SwapScreen.toAsset st))
               (JS.parseFloat (SwapScreen.amount st)) w.
Proof.
  unfold Spec.precondition_failure, SwapScreen.handleSwap. intros Hok.
  destruct (JS.gtb (JS.parseFloat (SwapScreen.amount st)) JS.zero) eqn:Hpos;
    simpl in Hok; [|discriminate].
  rewrite (parseFloat_positive_nonempty _ Hpos), (gtb_zero_true_leb _ Hpos).
  simpl.
  destruct (JS.gtb (JS.parseFloat (SwapScreen.amount st))
              (JS.parseFloat
                 (JS.remove_commas (balance (SwapScreen.fromAsset st)))));
    [discriminate | now destruct swapped].
Qed.

(** C3: the pending entry is handed to the registry before the external
    settlement call is made; whether that call resolves or rejects, the calls
    that follow it touch the screen and the console only, the context is left
    as the creation of the pending entry made it, and a rejection is logged
    while the handler goes on to report success. *)
Theorem handleCreateEscrow_keeps_local_commit
    (form : EscrowScreen.Form) (contacts : list Contact) (dateNow : Z)
    (onChain : EscrowScreen.Settlement) (w : Ctx) :
  let entry := EscrowScreen.newEscrow form dateNow in
  let calls := EscrowScreen.handleCreateEscrow form contacts dateNow onChain in
  Esc.status entry = pending
  /\ (exists after,
        calls = CreateEscrow entry
                :: CreateEscrowOnChain
                     (EscrowScreen.recipientAddress contacts
                        (EscrowScreen.recipient form))
                     (EscrowScreen.amount form)
                :: after
        /\ existsb is_context_call after = false
        /\ existsb is_error_toast after = false
        /\ In (ShowToast "Escrow Created Successfully" success) after
        /\ forall reason, onChain = EscrowScreen.Rejected reason ->
                          In (ConsoleWarn "On-chain escrow simulated" reason) after)
  /\ run calls w = createEscrow entry w
  /\ run calls w
     = run (EscrowScreen.handleCreateEscrow form contacts dateNow
              EscrowScreen.Resolved) w.
Proof.
  intros entry calls. subst entry calls.
  split; [reflexivity | split; [|split]].
  - unfold EscrowScreen.handleCreateEscrow.
    eexists. split; [reflexivity|].
    destruct onChain as [|reason]; simpl.
    + repeat split; auto. intros reason H. discriminate.
    + repeat split; auto. intros reason' H. inversion H. auto.
  - destruct onChain; reflexivity.
  - destruct onChain; reflexivity.
Qed.

(** C4, amended: signing moves no funds and has no failure mode; for every
    identifier, known to the registry or not, and whatever the status of the
    escrow, the handler reports success and leaves wallets and transactions
    as they are; the screen offers the action only on an escrow whose status
    is pending. *)
Theorem sign_moves_no_funds_and_never_fails (id : string) (w : Ctx) :
  EscrowScreen.handleAction id EscrowScreen.sign
  = ShowToast "Escrow Signed & Approved" success :: nil
  /\ existsb is_error_toast (EscrowScreen.handleAction id EscrowScreen.sign) = false
  /\ wallets (run (EscrowScreen.handleAction id EscrowScreen.sign) w) = wallets w
  /\ transactions (run (EscrowScreen.handleAction id EscrowScreen.sign) w)
     = transactions w
  /\ (forall e, EscrowScreen.offered e EscrowScreen.sign = true <->
                Esc.status e = pending).
Proof.
  repeat (split; [reflexivity|]).
  intros e. unfold EscrowScreen.offered.
  destruct (Esc.status e); split; intros H; try reflexivity; discriminate.
Qed.

End Handlers.

Lemma handleSwap_rejects_before_any_mutation_witness :
  Spec.number_input "-1"
  /\ Spec.precondition_failure
       (JS.parseFloat "-1") (JS.parseFloat (JS.remove_commas "1,000"))
     = Some Spec.InvalidAmount
  /\ Spec.precondition_failure
       (JS.parseFloat "1000.5") (JS.parseFloat (JS.remove_commas "1,000"))
     = Some Spec.InsufficientFunds
  /\ Wallet.run Scenario.swapAssets Scenario.createEscrow Scenario.releaseEscrow
       (SwapScreen.handleSwap (Scenario.swap_form "-1" false)
          SwapScreen.SwapResolved) Scenario.ctx0
     = Scenario.ctx0
  /\ SwapScreen.handleSwap (Scenario.swap_form "1000.5" true) SwapScreen.SwapRejected
     = ShowToast "Insufficient balance" error :: nil.
Proof.
  assert (Hneg : Spec.number_input "-1") by (right; vm_compute; discriminate).
  assert (Hbig : Spec.number_input "1000.5") by (right; vm_compute; discriminate).
  assert (Hinvalid : Spec.precondition_failure
            (JS.parseFloat "-1") (JS.parseFloat (JS.remove_commas "1,000"))
          = Some Spec.InvalidAmount) by (vm_compute; reflexivity).
  assert (Hfunds : Spec.precondition_failure
            (JS.parseFloat "1000.5") (JS.parseFloat (JS.remove_commas "1,000"))
          = Some Spec.InsufficientFunds) by (vm_compute; reflexivity).
  split; [exact Hneg | split; [exact Hinvalid | split; [exact Hfunds | split]]].
  - exact (proj1 (proj2 (proj2
      (handleSwap_rejects_before_any_mutation
         Scenario.swapAssets Scenario.createEscrow Scenario.releaseEscrow
         (Scenario.swap_form "-1" false) SwapScreen.SwapResolved Scenario.ctx0
         Spec.InvalidAmount Hneg Hinvalid)))).
  - exact (proj1
      (handleSwap_rejects_before_any_mutation
         Scenario.swapAssets Scenario.createEscrow Scenario.releaseEscrow
         (Scenario.swap_form "1000.5" true) SwapScreen.SwapRejected Scenario.ctx0
         Spec.InsufficientFunds Hbig Hfunds)).
Defined.

(** C4, as stated, fails: signing the escrow that is listed as pending
    leaves its status pending, and signing an identifier that no escrow
    carries reports success instead of a not-found error. *)
Lemma sign_leaves_pending_and_accepts_unknown_id :
  List.map Esc.status (escrows Scenario.ctx_with_escrow) = pending :: nil
  /\ List.map Esc.status
       (escrows
          (Wallet.run Scenario.swapAssets Scenario.createEscrow Scenario.releaseEscrow
             (EscrowScreen.handleAction "323004" EscrowScreen.sign)
             Scenario.ctx_with_escrow))
     = pending :: nil
  /\ escrows Scenario.ctx0 = nil
  /\ EscrowScreen.handleAction "999999" EscrowScreen.sign
     = ShowToast "Escrow Signed & Approved" success :: nil
  /\ existsb is_error_toast (EscrowScreen.handleAction "999999" EscrowScreen.sign)
     = false.
Proof. split; [|split; [|split; [|split]]]; reflexivity. Qed.

(* ===================================================================== *)
(** * The tabular export                                                  *)
(* ===================================================================== *)

Lemma csv_line_row (tx : Transaction) :
  History.csv_line (History.row tx) = Spec.csv_row tx.
Proof. reflexivity. Qed.

Lemma join_headers : JS.join "," History.headers = Spec.csv_header.
Proof. reflexivity. Qed.

(** C5: the tabular export is the header row
    [ID,Type,Amount,Currency,Recipient,Date] followed by one row of six
    quoted, comma-separated fields per transaction, in the order of the
    filtered list; for the single transaction [T1] it is the header and the
    one row of its six fields. *)
Theorem csv_export_header_and_rows (txs : list Transaction) (now : Z) :
  History.csvContent txs = JS.join JS.newline (Spec.csv_lines txs)
  /\ List.length (Spec.csv_lines txs) = S (List.length txs)
  /\ nth_error (Spec.csv_lines txs) 0
     = Some "ID,Type,Amount,Currency,Recipient,Date"%string
  /\ (forall i, nth_error (Spec.csv_lines txs) (S i)
                = option_map Spec.csv_row (nth_error txs i))
  /\ (exists filename after,
        History.exportToCSV txs now
        = Download filename (History.csvContent txs) :: after)
  /\ History.csvContent (Scenario.T1 :: nil)
     = String.append "ID,Type,Amount,Currency,Recipient,Date"
         (String.append JS.newline
           (String.append (Spec.in_quotes "T1")
             (String.append ","
               (String.append (Spec.in_quotes "sent")
                 (String.append ","
                   (String.append (Spec.in_quotes "100")
                     (String.append ","
                       (String.append (Spec.in_quotes "USD")
                         (String.append ","
                           (String.append (Spec.in_quotes "Jane")
                             (String.append ","
                               (Spec.in_quotes "today")))))))))))).
Proof.
  split; [|split; [|split; [|split; [|split]]]].
  - unfold History.csvContent, Spec.csv_lines.
    rewrite join_headers, List.map_map.
    rewrite (List.map_ext _ _ csv_line_row). reflexivity.
  - unfold Spec.csv_lines. simpl. now rewrite List.length_map.
  - reflexivity.
  - intros i. unfold Spec.csv_lines. simpl. apply List.nth_error_map.
  - unfold History.exportToCSV. eexists. eexists. reflexivity.
  - vm_compute. reflexivity.
Qed.

(* ===================================================================== *)
(** * Filtering                                                           *)
(* ===================================================================== *)

Section Filters.

Variable tza : Z.
Variable legacy_parse : string -> JSDate.Date.

Local Abbreviation filteredTransactions :=
  (History.filteredTransactions tza legacy_parse).

Lemma filteredTransactions_steps
    (txs : list Transaction) (q : string) (t : History.FilterType)
    (d : History.DateFilter) (now : Z) :
  filteredTransactions txs q t d now
  = match d with
    | History.date_all => Spec.type_step t (Spec.search_step q txs)
    | _ => List.filter (History.in_range tza legacy_parse now d)
             (Spec.type_step t (Spec.search_step q txs))
    end.
Proof.
  unfold History.filteredTransactions, Spec.type_step, Spec.search_step.
  destruct d, t; reflexivity.
Qed.

Lemma search_step_incl (q : string) (txs : list Transaction) :
  incl (Spec.search_step q txs) txs.
Proof.
  unfold Spec.search_step. destruct (JS.truthy_string (JS.trim q)).
  - apply List.incl_filter.
  - apply incl_refl.
Qed.

Lemma filteredTransactions_typed
    (txs : list Transaction) (q : string) (t : History.FilterType)
    (d : History.DateFilter) (now : Z) :
  t <> History.type_all ->
  Forall (fun tx => History.type_is t tx = true) (filteredTransactions txs q t d now).
Proof.
  intros Ht. rewrite filteredTransactions_steps.
  assert (H : Forall (fun tx => History.type_is t tx = true)
                (Spec.type_step t (Spec.search_step q txs))).
  { unfold Spec.type_step. destruct t; try congruence;
      apply List.Forall_forall; intros tx Hin; now apply List.filter_In in Hin. }
  destruct d; try assumption;
    apply List.Forall_forall; intros tx Hin; apply List.filter_In in Hin as [Hin _];
    revert tx Hin; now apply List.Forall_forall.
Qed.

Lemma filter_none {A : Type} (f : A -> bool) (l : list A) :
  Forall (fun x => f x = false) l -> List.filter f l = nil.
Proof.
  induction 1 as [|x l Hx Hl IH]; simpl; [reflexivity | now rewrite Hx].
Qed.

(** C7: filtering by type [sent] and then filtering the result by type
    [received] gives the empty list, whatever the search texts, date filters
    and clock readings of the two passes; with the date filter [all] the
    result is that of the search and type steps alone, so no transaction is
    removed on account of its date, and any other date filter keeps a part
    of it. *)
Theorem sent_then_received_is_empty_and_date_all_is_neutral
    (txs : list Transaction)
    (q1 q2 : string) (d1 d2 : History.DateFilter) (now1 now2 : Z)
    (q : string) (t : History.FilterType) (d : History.DateFilter) (now : Z) :
  filteredTransactions
    (filteredTransactions txs q1 History.type_sent d1 now1)
    q2 History.type_received d2 now2 = nil
  /\ filteredTransactions txs q t History.date_all now
     = Spec.type_step t (Spec.search_step q txs)
  /\ filteredTransactions txs "" History.type_all History.date_all now = txs
  /\ incl (filteredTransactions txs q t d now)
          (filteredTransactions txs q t History.date_all now).
Proof.
  split; [|split; [|split]].
  - set (first := filteredTransactions txs q1 History.type_sent d1 now1).
    assert (Hsent : Forall (fun tx => History.type_is History.type_sent tx = true) first)
      by (apply filteredTransactions_typed; discriminate).
    assert (Hnone : List.filter (History.type_is History.type_received)
                      (Spec.search_step q2 first) = nil).
    { apply filter_none, List.Forall_forall. intros tx Hin.
      apply search_step_incl in Hin.
      pose proof (proj1 (List.Forall_forall _ _) Hsent tx Hin) as Htx.
      unfold History.type_is in *. destruct (Tx.type tx); congruence. }
    rewrite filteredTransactions_steps. unfold Spec.type_step.
    rewrite Hnone. destruct d2; reflexivity.
  - apply filteredTransactions_steps.
  - reflexivity.
  - rewrite !filteredTransactions_steps. destruct d; try apply incl_refl;
      apply List.incl_filter.
Qed.

End Filters.

(* ===================================================================== *)
(** * The calendar                                                        *)
(* ===================================================================== *)

Lemma DayFromYear_succ (y : Z) :
  JSDate.DayFromYear (y + 1) - JSDate.DayFromYear y = JSDate.DaysInYear y.
Proof.
  unfold JSDate.DayFromYear, JSDate.DaysInYear.
  destruct (Z.eqb_spec (y mod 4) 0) as [H4|H4];
    destruct (Z.eqb_spec (y mod 100) 0) as [H100|H100];
    destruct (Z.eqb_spec (y mod 400) 0) as [H400|H400]; simpl;
    Z.div_mod_to_equations; lia.
Qed.

Lemma leap_of_year_range (y : Z) : 0 <= JSDate.leap_of_year y <= 1.
Proof. unfold JSDate.leap_of_year. destruct (_ =? _); lia. Qed.

Lemma DaysInYear_leap (y : Z) :
  JSDate.DaysInYear y = 365 + JSDate.leap_of_year y.
Proof.
  unfold JSDate.leap_of_year, JSDate.DaysInYear.
  destruct (negb (y mod 4 =? 0)); [reflexivity|].
  destruct (negb (y mod 100 =? 0)); [reflexivity|].
  destruct (negb (y mod 400 =? 0)); reflexivity.
Qed.

Lemma InLeapYear_leap_of_year (t : Z) :
  JSDate.InLeapYear t = JSDate.leap_of_year (JSDate.YearFromTime t).
Proof. reflexivity. Qed.

Lemma MonthFromTime_range (t : Z) : 0 <= JSDate.MonthFromTime t <= 11.
Proof.
  unfold JSDate.MonthFromTime.
  repeat match goal with
         | |- context [if ?c then _ else _] => destruct c
         end; lia.
Qed.

Lemma YearFromTime_after_epoch (t : Z) : 0 <= t -> 1969 <= JSDate.YearFromTime t.
Proof.
  intros Ht. unfold JSDate.YearFromTime, JSDate.Day, JSDate.msPerDay.
  assert (0 <= t / 86400000) by (apply Z.div_pos; lia).
  assert (0 <= 400 * (t / 86400000) / 146097) by (apply Z.div_pos; lia).
  repeat match goal with
         | |- context [if ?c then _ else _] => destruct c
         end; lia.
Qed.

(** [YearFromTime] meets its definition: the year of [t] starts at or
    before [t], and the next year starts after it. *)
Lemma YearFromTime_spec (t : Z) :
  JSDate.TimeFromYear (JSDate.YearFromTime t) <= t
  < JSDate.TimeFromYear (JSDate.YearFromTime t + 1).
Proof.
  unfold JSDate.TimeFromYear, JSDate.YearFromTime, JSDate.Day.
  pose proof (Z.div_mod t JSDate.msPerDay) as Hdm.
  pose proof (Z.mod_pos_bound t JSDate.msPerDay eq_refl) as Hmod.
  set (d := t / JSDate.msPerDay) in *.
  assert (Hday : forall y, JSDate.DayFromYear y <= d ->
                 JSDate.msPerDay * JSDate.DayFromYear y <= t).
  { intros y Hy. unfold JSDate.msPerDay in *. nia. }
  assert (Hday' : forall y, d < JSDate.DayFromYear y ->
                  t < JSDate.msPerDay * JSDate.DayFromYear y).
  { intros y Hy. unfold JSDate.msPerDay in *. nia. }
  set (y := 1970 + 400 * d / 146097).
  assert (Hlo : JSDate.DayFromYear (y - 1) <= d).
  { subst y. unfold JSDate.DayFromYear. Z.div_mod_to_equations. lia. }
  assert (Hhi : d < JSDate.DayFromYear (y + 1 + 1)).
  { subst y. unfold JSDate.DayFromYear. Z.div_mod_to_equations. lia. }
  destruct (Z.ltb_spec d (JSDate.DayFromYear y)) as [Hlt | Hge].
  - split; [apply Hday; exact Hlo|].
    apply Hday'. now replace (y - 1 + 1) with y by lia.
  - destruct (Z.leb_spec (JSDate.DayFromYear (y + 1)) d) as [Hle | Hgt].
    + split; [apply Hday; exact Hle | apply Hday'; exact Hhi].
    + split; [apply Hday; exact Hge | apply Hday'; exact Hgt].
Qed.

Lemma DayFromYear_increasing (y1 y2 : Z) :
  y1 < y2 -> JSDate.DayFromYear y1 < JSDate.DayFromYear y2.
Proof.
  intros Hlt. unfold JSDate.DayFromYear. Z.div_mod_to_equations. lia.
Qed.

(** [YearFromTime t] is the largest year that starts at or before [t]. *)
Lemma YearFromTime_largest (t y : Z) :
  JSDate.TimeFromYear y <= t -> y <= JSDate.YearFromTime t.
Proof.
  intros Hy. destruct (YearFromTime_spec t) as [_ Hnext].
  destruct (Z.le_gt_cases y (JSDate.YearFromTime t)) as [Hle | Hgt];
    [exact Hle | exfalso].
  assert (Hmono : JSDate.DayFromYear (JSDate.YearFromTime t + 1)
                  <= JSDate.DayFromYear y).
  { destruct (Z.eq_dec (JSDate.YearFromTime t + 1) y) as [-> | Hne]; [lia|].
    apply Z.lt_le_incl, DayFromYear_increasing. lia. }
  unfold JSDate.TimeFromYear, JSDate.msPerDay in *. lia.
Qed.

(** The day number of a date of the month of [t], counted from the date of
    [t]. *)
Lemma MakeDay_same_month (t dt : Z) :
  JSDate.MakeDay (JSDate.YearFromTime t) (JSDate.MonthFromTime t) dt
  = JSDate.Day t + (dt - JSDate.DateFromTime t).
Proof.
  pose proof (MonthFromTime_range t) as Hm.
  unfold JSDate.MakeDay.
  rewrite (Z.div_small (JSDate.MonthFromTime t) 12) by lia.
  rewrite (Z.mod_small (JSDate.MonthFromTime t) 12) by lia.
  unfold JSDate.DateFromTime, JSDate.DayWithinYear.
  rewrite InLeapYear_leap_of_year, Z.add_0_r. lia.
Qed.

Lemma month_length (m l : Z) :
  1 <= m <= 11 -> 0 <= l <= 1 ->
  28 <= JSDate.month_start m l - JSDate.month_start (m - 1) l <= 31.
Proof.
  intros Hm Hl.
  assert (H : m = 1 \/ m = 2 \/ m = 3 \/ m = 4 \/ m = 5 \/ m = 6 \/ m = 7
              \/ m = 8 \/ m = 9 \/ m = 10 \/ m = 11) by lia.
  repeat (destruct H as [-> | H]; [simpl; lia|]). subst m. simpl. lia.
Qed.

(** One calendar month back is 28 to 31 days back. *)
Lemma MakeDay_previous_month (t : Z) :
  exists k, 28 <= k <= 31
    /\ JSDate.MakeDay (JSDate.YearFromTime t) (JSDate.MonthFromTime t - 1)
                      (JSDate.DateFromTime t)
       = JSDate.Day t - k.
Proof.
  pose proof (MonthFromTime_range t) as Hm.
  pose proof (MakeDay_same_month t (JSDate.DateFromTime t)) as Hday.
  rewrite Z.sub_diag, Z.add_0_r in Hday. rewrite <- Hday. clear Hday.
  generalize (JSDate.YearFromTime t) (JSDate.DateFromTime t). intros y d.
  destruct (Z.eq_dec (JSDate.MonthFromTime t) 0) as [H0 | Hpos].
  - rewrite H0. exists 31. split; [lia|].
    unfold JSDate.MakeDay. change ((0 - 1) / 12) with (-1).
    change ((0 - 1) mod 12) with 11. change (0 / 12) with 0.
    change (0 mod 12) with 0. simpl JSDate.month_start.
    pose proof (DayFromYear_succ (y - 1)) as Hs.
    rewrite DaysInYear_leap in Hs.
    replace (y - 1 + 1) with y in Hs by lia.
    replace (y + -1) with (y - 1) by lia. rewrite !Z.add_0_r. lia.
  - revert Hm Hpos. generalize (JSDate.MonthFromTime t). intros m Hm Hpos.
    exists (JSDate.month_start m (JSDate.leap_of_year y)
            - JSDate.month_start (m - 1) (JSDate.leap_of_year y)).
    split; [apply month_length; [lia | apply leap_of_year_range]|].
    unfold JSDate.MakeDay.
    rewrite (Z.div_small (m - 1) 12), (Z.mod_small (m - 1) 12) by lia.
    rewrite (Z.div_small m 12), (Z.mod_small m 12) by lia.
    rewrite !Z.add_0_r. lia.
Qed.

Lemma month_start_leap_shift (m l1 l2 : Z) :
  0 <= m <= 11 -> 0 <= l1 <= 1 -> 0 <= l2 <= 1 ->
  JSDate.month_start m l1 - JSDate.month_start m l2 = 0
  \/ JSDate.month_start m l1 - JSDate.month_start m l2 = l1 - l2.
Proof.
  intros Hm H1 H2.
  assert (H : m = 0 \/ m = 1 \/ m = 2 \/ m = 3 \/ m = 4 \/ m = 5 \/ m = 6 \/ m = 7
              \/ m = 8 \/ m = 9 \/ m = 10 \/ m = 11) by lia.
  repeat (destruct H as [-> | H]; [simpl; lia|]). subst m. simpl. lia.
Qed.

Lemma consecutive_years_not_both_leap (y : Z) :
  JSDate.leap_of_year (y - 1) + JSDate.leap_of_year y <= 1.
Proof.
  unfold JSDate.leap_of_year, JSDate.DaysInYear.
  destruct (Z.eqb_spec ((y - 1) mod 4) 0) as [Ha|Ha];
    destruct (Z.eqb_spec (y mod 4) 0) as [Hb|Hb]; simpl;
    repeat match goal with
           | |- context [if ?c then _ else _] => destruct c
           end; simpl; try lia.
  all: exfalso; Z.div_mod_to_equations; lia.
Qed.

(** One calendar year back is 365 or 366 days back. *)
Lemma MakeDay_previous_year (t : Z) :
  exists k, 365 <= k <= 366
    /\ JSDate.MakeDay (JSDate.YearFromTime t - 1) (JSDate.MonthFromTime t)
                      (JSDate.DateFromTime t)
       = JSDate.Day t - k.
Proof.
  pose proof (MonthFromTime_range t) as Hm.
  pose proof (MakeDay_same_month t (JSDate.DateFromTime t)) as Hday.
  rewrite Z.sub_diag, Z.add_0_r in Hday. rewrite <- Hday. clear Hday.
  revert Hm.
  generalize (JSDate.YearFromTime t) (JSDate.DateFromTime t)
             (JSDate.MonthFromTime t).
  intros y d m Hm.
  unfold JSDate.MakeDay.
  rewrite (Z.div_small m 12), (Z.mod_small m 12) by lia.
  rewrite !Z.add_0_r.
  pose proof (DayFromYear_succ (y - 1)) as Hs.
  rewrite DaysInYear_leap in Hs. replace (y - 1 + 1) with y in Hs by lia.
  pose proof (leap_of_year_range y) as Hl1.
  pose proof (leap_of_year_range (y - 1)) as Hl0.
  pose proof (consecutive_years_not_both_leap y) as Hboth.
  pose proof (month_start_leap_shift m (JSDate.leap_of_year y)
                (JSDate.leap_of_year (y - 1)) Hm Hl1 Hl0) as Hshift.
  exists (JSDate.DayFromYear y - JSDate.DayFromYear (y - 1)
          + (JSDate.month_start m (JSDate.leap_of_year y)
             - JSDate.month_start m (JSDate.leap_of_year (y - 1)))).
  split; lia.
Qed.

(* ===================================================================== *)
(** * [Date] methods in local time                                        *)
(* ===================================================================== *)

Section LocalDates.

Variable tza : Z.

Lemma TimeClip_in_range (t : Z) :
  - JSDate.maxTime <= t <= JSDate.maxTime -> JSDate.TimeClip t = Some t.
Proof.
  intros Ht. unfold JSDate.TimeClip.
  destruct (Z.leb_spec (Z.abs t) JSDate.maxTime); [reflexivity | lia].
Qed.

Lemma local_day_time (now k : Z) :
  JSDate.UTC tza
    (JSDate.MakeDate (JSDate.Day (JSDate.LocalTime tza now) - k)
                     (JSDate.TimeWithinDay (JSDate.LocalTime tza now)))
  = now - k * JSDate.msPerDay.
Proof.
  unfold JSDate.UTC, JSDate.MakeDate, JSDate.Day, JSDate.TimeWithinDay,
    JSDate.LocalTime.
  pose proof (Z.div_mod (now + tza) JSDate.msPerDay) as Hdm.
  unfold JSDate.msPerDay in *. lia.
Qed.

(** [d.setDate(d.getDate() - k)] is [k] days earlier. *)
Lemma setDate_days_back (now k : Z) :
  JSDate.setDate tza now (JSDate.getDate tza now - k)
  = JSDate.TimeClip (now - k * JSDate.msPerDay).
Proof.
  unfold JSDate.setDate, JSDate.getDate. cbv zeta.
  rewrite MakeDay_same_month.
  replace (JSDate.DateFromTime (JSDate.LocalTime tza now) - k
           - JSDate.DateFromTime (JSDate.LocalTime tza now)) with (- k) by lia.
  rewrite Z.add_opp_r. now rewrite local_day_time.
Qed.

(** [new Date(now.getFullYear(), now.getMonth(), now.getDate())] is the
    local midnight before [now]. *)
Lemma startOfToday_local_midnight (now : Z) :
  0 <= now + tza ->
  JSDate.Date_of_ymd tza (JSDate.getFullYear tza now) (JSDate.getMonth tza now)
                     (JSDate.getDate tza now)
  = JSDate.TimeClip (now - JSDate.TimeWithinDay (now + tza)).
Proof.
  intros Hlocal.
  unfold JSDate.Date_of_ymd, JSDate.getFullYear, JSDate.getMonth, JSDate.getDate.
  pose proof (YearFromTime_after_epoch (JSDate.LocalTime tza now) Hlocal) as Hy.
  destruct (Z.leb_spec (JSDate.YearFromTime (JSDate.LocalTime tza now)) 99);
    [lia|].
  rewrite andb_false_r. cbv zeta.
  rewrite MakeDay_same_month, Z.sub_diag, Z.add_0_r.
  f_equal.
  unfold JSDate.UTC, JSDate.MakeDate, JSDate.MakeTime, JSDate.Day,
    JSDate.TimeWithinDay, JSDate.LocalTime.
  pose proof (Z.div_mod (now + tza) JSDate.msPerDay) as Hdm.
  unfold JSDate.msPerDay, JSDate.msPerHour, JSDate.msPerMinute in *. lia.
Qed.

(** [d.setMonth(d.getMonth() - 1)] is 28 to 31 days earlier. *)
Lemma setMonth_previous (now : Z) :
  exists k, 28 <= k <= 31
    /\ JSDate.setMonth tza now (JSDate.getMonth tza now - 1)
       = JSDate.TimeClip (now - k * JSDate.msPerDay).
Proof.
  destruct (MakeDay_previous_month (JSDate.LocalTime tza now)) as (k & Hk & Hday).
  exists k. split; [exact Hk|].
  unfold JSDate.setMonth, JSDate.getMonth. cbv zeta.
  now rewrite Hday, local_day_time.
Qed.

(** [d.setFullYear(d.getFullYear() - 1)] is 365 or 366 days earlier. *)
Lemma setFullYear_previous (now : Z) :
  exists k, 365 <= k <= 366
    /\ JSDate.setFullYear tza now (JSDate.getFullYear tza now - 1)
       = JSDate.TimeClip (now - k * JSDate.msPerDay).
Proof.
  destruct (MakeDay_previous_year (JSDate.LocalTime tza now)) as (k & Hk & Hday).
  exists k. split; [exact Hk|].
  unfold JSDate.setFullYear, JSDate.getFullYear. cbv zeta.
  now rewrite Hday, local_day_time.
Qed.

End LocalDates.

(* ===================================================================== *)
(** * Strings in the date-time format carry no marker of [parseDate]      *)
(* ===================================================================== *)

Lemma digit_is_not_a (c : ascii) : JS.is_digit c = true -> Spec.is_a c = false.
Proof.
  destruct c as [[] [] [] [] [] [] [] []]; intros H;
    solve [reflexivity | discriminate H].
Qed.

Lemma is_a_lower_char (c : ascii) : Spec.is_a (JS.lower_char c) = Spec.is_a c.
Proof. destruct c as [[] [] [] [] [] [] [] []]; reflexivity. Qed.

Lemma has_a_toLowerCase (s : string) : Spec.has_a (JS.toLowerCase s) = Spec.has_a s.
Proof.
  induction s as [|c r IH]; simpl; [reflexivity|].
  now rewrite is_a_lower_char, IH.
Qed.

Lemma startsWith_has_a (p : string) :
  forall s, JS.startsWith p s = true -> Spec.has_a p = true -> Spec.has_a s = true.
Proof.
  induction p as [|a p IH]; intros s Hstart Ha; simpl in *.
  - discriminate.
  - destruct s as [|b s]; [discriminate|].
    apply andb_true_iff in Hstart as [Hab Hrest].
    apply Ascii.eqb_eq in Hab. subst b. simpl.
    destruct (Spec.is_a a); simpl in *; [reflexivity|].
    now apply IH.
Qed.

Lemma includes_has_a (sub s : string) :
  JS.includes s sub = true -> Spec.has_a sub = true -> Spec.has_a s = true.
Proof.
  intros Hinc Ha. induction s as [|c r IH]; simpl in Hinc.
  - rewrite orb_false_r in Hinc. now apply startsWith_has_a with sub.
  - apply orb_true_iff in Hinc as [Hhere | Hlater].
    + now apply startsWith_has_a with sub.
    + simpl. rewrite (IH Hlater). apply orb_true_r.
Qed.

(** A string without the letter [a] contains none of the three markers. *)
Lemma no_marker_without_a (s : string) :
  Spec.has_a s = false ->
  JS.includes (JS.toLowerCase s) "today" = false
  /\ JS.includes (JS.toLowerCase s) "yesterday" = false
  /\ JS.includes (JS.toLowerCase s) "days ago" = false.
Proof.
  intros Hs. rewrite <- has_a_toLowerCase in Hs.
  repeat split;
    match goal with
    | |- JS.includes ?l ?m = false =>
        destruct (JS.includes l m) eqn:Hinc; [|reflexivity];
        apply includes_has_a in Hinc; [congruence | reflexivity]
    end.
Qed.

Lemma take_digits_from_has_a (n : nat) :
  forall s acc v r,
    JSDate.take_digits_from n s acc = Some (v, r) -> Spec.has_a s = Spec.has_a r.
Proof.
  induction n as [|n IH]; intros s acc v r H; simpl in H.
  - now inversion H.
  - destruct s as [|c s]; [discriminate|].
    destruct (JS.is_digit c) eqn:Hc; [|discriminate].
    simpl. rewrite (digit_is_not_a c Hc). simpl. now apply IH with (1 := H).
Qed.

Lemma take_digits_has_a (n : nat) (s r : string) (v : Z) :
  JSDate.take_digits n s = Some (v, r) -> Spec.has_a s = Spec.has_a r.
Proof. apply take_digits_from_has_a. Qed.

Lemma expect_has_a (c : ascii) (s r : string) :
  JSDate.expect c s = Some r -> Spec.is_a c = false -> Spec.has_a s = Spec.has_a r.
Proof.
  unfold JSDate.expect. destruct s as [|a s]; [discriminate|].
  destruct (Ascii.eqb_spec a c) as [-> | _]; [|discriminate].
  intros H Hc. inversion H; subst. simpl. now rewrite Hc.
Qed.

Ltac parser_cases :=
  repeat match goal with
         | H : Some _ = Some _ |- _ => inversion H; subst; clear H
         | H : None = Some _ |- _ => discriminate H
         | H : context [match ?x with _ => _ end] |- _ =>
             destruct x eqn:?; try discriminate H
         end.

Ltac parser_facts :=
  repeat match goal with
         | H : JSDate.take_digits _ _ = Some _ |- _ => apply take_digits_has_a in H
         | H : JSDate.expect _ _ = Some _ |- _ =>
             apply expect_has_a in H; [|reflexivity]
         end.

Lemma parse_ymd_has_a (s r : string) (y m d : Z) :
  JSDate.parse_ymd s = Some (y, m, d, r) -> Spec.has_a s = Spec.has_a r.
Proof.
  unfold JSDate.parse_ymd. intros H. parser_cases; parser_facts; congruence.
Qed.

Lemma parse_seconds_has_a (s r : string) (ss ms : Z) :
  JSDate.parse_seconds s = Some (ss, ms, r) -> Spec.has_a s = Spec.has_a r.
Proof.
  unfold JSDate.parse_seconds. intros H. parser_cases; parser_facts; congruence.
Qed.

Lemma parse_time_has_a (s r : string) (tm : Z) :
  JSDate.parse_time s = Some (tm, r) -> Spec.has_a s = Spec.has_a r.
Proof.
  unfold JSDate.parse_time. intros H. parser_cases; parser_facts;
    match goal with
    | H : JSDate.parse_seconds _ = Some _ |- _ => apply parse_seconds_has_a in H
    end; congruence.
Qed.

Lemma parse_hhmm_end_has_a (s : string) (off : Z) :
  JSDate.parse_hhmm_end s = Some off -> Spec.has_a s = false.
Proof.
  unfold JSDate.parse_hhmm_end. intros H. parser_cases; parser_facts.
  simpl in *. congruence.
Qed.

Lemma parse_zone_has_a (s : string) (z : JSDate.zone) :
  JSDate.parse_zone s = Some z -> Spec.has_a s = false.
Proof.
  unfold JSDate.parse_zone. intros H.
  destruct s as [|c r]; [reflexivity|].
  destruct (Ascii.eqb_spec c "Z"%char) as [-> | _].
  { destruct r; [reflexivity | discriminate]. }
  destruct (Ascii.eqb_spec c "+"%char) as [-> | _].
  { destruct (JSDate.parse_hhmm_end r) eqn:E; [|discriminate].
    simpl. now apply parse_hhmm_end_has_a in E. }
  destruct (Ascii.eqb_spec c "-"%char) as [-> | _]; [|discriminate].
  destruct (JSDate.parse_hhmm_end r) eqn:E; [|discriminate].
  simpl. now apply parse_hhmm_end_has_a in E.
Qed.

Lemma parse_iso_has_a (tza : Z) (s : string) (p : Z) :
  JSDate.parse_iso tza s = Some p -> Spec.has_a s = false.
Proof.
  unfold JSDate.parse_iso. intros H.
  destruct (JSDate.parse_ymd s) as [[[[y m] d] r]|] eqn:Eymd; [|discriminate].
  apply parse_ymd_has_a in Eymd. rewrite Eymd.
  destruct ((1 <=? m) && (m <=? 12) && (1 <=? d)
            && (d <=? JSDate.DaysInMonth y (m - 1))); [|discriminate].
  destruct r as [|c r1]; [reflexivity|].
  destruct (Ascii.eqb_spec c "T"%char) as [-> | _]; [|discriminate].
  destruct (JSDate.parse_time r1) as [[tm r2]|] eqn:Etime; [|discriminate].
  apply parse_time_has_a in Etime.
  destruct (JSDate.parse_zone r2) as [z|] eqn:Ezone; [|discriminate].
  apply parse_zone_has_a in Ezone.
  simpl. congruence.
Qed.

(* ===================================================================== *)
(** * [parseDate] and the date filter                                     *)
(* ===================================================================== *)

(** C6, as stated, fails: the transaction dated 2999-01-01 is kept by the
    [week] filter, although its date does not lie in the 7 days that end at
    the query time. *)
Lemma week_filter_keeps_a_future_date :
  History.filteredTransactions Scenario.tza Scenario.strict_parse
    (Scenario.T2 :: nil) "" History.type_all History.date_week Scenario.now
  = Scenario.T2 :: nil
  /\ History.parseDate Scenario.tza Scenario.strict_parse Scenario.now
       (Tx.date Scenario.T2)
     = Some 32472144000000
  /\ Scenario.now < 32472144000000
  /\ Spec.in_window_ending_now (Scenario.now - 7 * JSDate.msPerDay) Scenario.now
       (History.parseDate Scenario.tza Scenario.strict_parse Scenario.now
          (Tx.date Scenario.T2))
     = false.
Proof. split; [|split; [|split]]; vm_compute; reflexivity. Qed.

Section DateFilter.

Variable tza : Z.
Variable legacy_parse : string -> JSDate.Date.

Local Abbreviation parseDate := (History.parseDate tza legacy_parse).
Local Abbreviation filteredTransactions :=
  (History.filteredTransactions tza legacy_parse).

Lemma parseDate_today (now : Z) (s : string) :
  JS.includes (JS.toLowerCase s) "today" = true -> parseDate now s = Some now.
Proof. intros H. unfold History.parseDate. now rewrite H. Qed.

Lemma parseDate_yesterday (now : Z) (s : string) :
  JS.includes (JS.toLowerCase s) "today" = false ->
  JS.includes (JS.toLowerCase s) "yesterday" = true ->
  parseDate now s = JSDate.TimeClip (now - 1 * JSDate.msPerDay).
Proof.
  intros H1 H2. unfold History.parseDate. rewrite H1, H2.
  apply setDate_days_back.
Qed.

Lemma parseDate_days_ago (now : Z) (s digits : string) (n : Z) :
  JS.includes (JS.toLowerCase s) "today" = false ->
  JS.includes (JS.toLowerCase s) "yesterday" = false ->
  JS.includes (JS.toLowerCase s) "days ago" = true ->
  History.daysMatch (JS.toLowerCase s) = Some digits ->
  JS.parseInt digits = Some n ->
  parseDate now s = JSDate.TimeClip (now - n * JSDate.msPerDay).
Proof.
  intros H1 H2 H3 Hm Hn. unfold History.parseDate.
  rewrite H1, H2, H3, Hm, Hn. apply setDate_days_back.
Qed.

Lemma parseDate_standard (now : Z) (s : string) :
  JS.includes (JS.toLowerCase s) "today" = false ->
  JS.includes (JS.toLowerCase s) "yesterday" = false ->
  JS.includes (JS.toLowerCase s) "days ago" = false
  \/ History.daysMatch (JS.toLowerCase s) = None ->
  parseDate now s
  = match JSDate.Date_of_string tza legacy_parse s with
    | Some p => Some p
    | None => Some now
    end.
Proof.
  intros H1 H2 H3. unfold History.parseDate. rewrite H1, H2.
  destruct H3 as [H3 | H3]; rewrite H3; [reflexivity|].
  destruct (JS.includes (JS.toLowerCase s) "days ago"); reflexivity.
Qed.

Lemma parseDate_iso (now : Z) (s : string) (p : Z) :
  JSDate.parse_iso tza s = Some p -> parseDate now s = Some p.
Proof.
  intros Hiso.
  destruct (no_marker_without_a s (parse_iso_has_a tza s p Hiso))
    as (H1 & H2 & H3).
  rewrite parseDate_standard by auto.
  unfold JSDate.Date_of_string. now rewrite Hiso.
Qed.

(** The test of each date filter is a comparison with the start of its
    window. *)
Lemma in_range_from_start (now : Z) (d : History.DateFilter) :
  0 <= now + tza -> now <= JSDate.maxTime -> Z.abs tza <= JSDate.msPerDay ->
  d <> History.date_all ->
  exists start,
    Spec.window_start tza d now start
    /\ start <= now
    /\ forall tx,
         History.in_range tza legacy_parse now d tx
         = JSDate.geb (parseDate now (Tx.date tx)) (Some start).
Proof.
  intros Hlocal Hmax Htza Hd.
  assert (Hclip : forall k, 0 <= k <= 366 ->
             JSDate.TimeClip (now - k * JSDate.msPerDay)
             = Some (now - k * JSDate.msPerDay)).
  { intros k Hk. apply TimeClip_in_range.
    unfold JSDate.maxTime, JSDate.msPerDay in *. lia. }
  destruct d; [congruence | | | |].
  - exists (now - JSDate.TimeWithinDay (now + tza)).
    pose proof (Z.mod_pos_bound (now + tza) JSDate.msPerDay eq_refl) as Hmod.
    fold (JSDate.TimeWithinDay (now + tza)) in Hmod.
    split; [reflexivity | split; [lia|]].
    intros tx. unfold History.in_range.
    rewrite startOfToday_local_midnight by assumption.
    rewrite TimeClip_in_range; [reflexivity|].
    unfold JSDate.maxTime, JSDate.msPerDay in *. lia.
  - exists (now - 7 * JSDate.msPerDay).
    split; [reflexivity | split; [unfold JSDate.msPerDay; lia|]].
    intros tx. unfold History.in_range.
    rewrite setDate_days_back, Hclip by lia. reflexivity.
  - destruct (setMonth_previous tza now) as (k & Hk & Hset).
    exists (now - k * JSDate.msPerDay).
    split; [exists k; split; [exact Hk | reflexivity]|].
    split; [unfold JSDate.msPerDay; lia|].
    intros tx. unfold History.in_range.
    rewrite Hset, Hclip by lia. reflexivity.
  - destruct (setFullYear_previous tza now) as (k & Hk & Hset).
    exists (now - k * JSDate.msPerDay).
    split; [exists k; split; [exact Hk | reflexivity]|].
    split; [unfold JSDate.msPerDay; lia|].
    intros tx. unfold History.in_range.
    rewrite Hset, Hclip by lia. reflexivity.
Qed.

(** C6, amended: a date filter other than [all] keeps exactly the
    transactions whose parsed date is at or after the start of its window:
    local midnight for [today], 7 days, one calendar month (28 to 31 days)
    or one calendar year (365 or 366 days) before the query time for [week],
    [month] and [year]; the windows roll with the query time and have no
    upper end, so a transaction dated after the query time is kept.  The
    stored date is read as the query time when it contains [today], as one
    day earlier when it contains [yesterday], as N days earlier when it
    contains [N days ago], as the date it denotes when it is in the
    date-time string format, and as the query time when it cannot be
    parsed. *)
Theorem date_filter_keeps_from_window_start
    (txs : list Transaction) (q : string) (t : History.FilterType)
    (d : History.DateFilter) (now : Z) :
  0 <= now + tza -> now <= JSDate.maxTime -> Z.abs tza <= JSDate.msPerDay ->
  d <> History.date_all ->
  (exists start,
     Spec.window_start tza d now start
     /\ start <= now
     /\ filteredTransactions txs q t d now
        = List.filter
            (fun tx => JSDate.geb (parseDate now (Tx.date tx)) (Some start))
            (Spec.type_step t (Spec.search_step q txs))
     /\ (forall tx p,
           In tx (Spec.type_step t (Spec.search_step q txs)) ->
           parseDate now (Tx.date tx) = Some p -> now <= p ->
           In tx (filteredTransactions txs q t d now)))
  /\ (forall s,
        JS.includes (JS.toLowerCase s) "today" = true ->
        parseDate now s = Some now)
  /\ (forall s,
        JS.includes (JS.toLowerCase s) "today" = false ->
        JS.includes (JS.toLowerCase s) "yesterday" = true ->
        parseDate now s = Some (now - JSDate.msPerDay))
  /\ (forall s digits n,
        JS.includes (JS.toLowerCase s) "today" = false ->
        JS.includes (JS.toLowerCase s) "yesterday" = false ->
        JS.includes (JS.toLowerCase s) "days ago" = true ->
        History.daysMatch (JS.toLowerCase s) = Some digits ->
        JS.parseInt digits = Some n ->
        parseDate now s = JSDate.TimeClip (now - n * JSDate.msPerDay))
  /\ (forall s p, JSDate.parse_iso tza s = Some p -> parseDate now s = Some p)
  /\ (forall s,
        JS.includes (JS.toLowerCase s) "today" = false ->
        JS.includes (JS.toLowerCase s) "yesterday" = false ->
        JS.includes (JS.toLowerCase s) "days ago" = false
        \/ History.daysMatch (JS.toLowerCase s) = None ->
        JSDate.Date_of_string tza legacy_parse s = None ->
        parseDate now s = Some now).
Proof.
  intros Hlocal Hmax Htza Hd.
  split; [|split; [|split; [|split; [|split]]]].
  - destruct (in_range_from_start now d Hlocal Hmax Htza Hd)
      as (start & Hwin & Hle & Htest).
    assert (Heq : filteredTransactions txs q t d now
                  = List.filter
                      (fun tx => JSDate.geb (parseDate now (Tx.date tx)) (Some start))
                      (Spec.type_step t (Spec.search_step q txs))).
    { rewrite filteredTransactions_steps.
      destruct d; try congruence; apply List.filter_ext; exact Htest. }
    exists start. split; [exact Hwin | split; [exact Hle | split; [exact Heq|]]].
    intros tx p Hin Hp Hlate. rewrite Heq. apply List.filter_In.
    split; [exact Hin|]. rewrite Hp. simpl. apply Z.leb_le. lia.
  - intros s. apply parseDate_today.
  - intros s H1 H2. rewrite parseDate_yesterday by assumption.
    rewrite Z.mul_1_l. apply TimeClip_in_range.
    unfold JSDate.maxTime, JSDate.msPerDay in *. lia.
  - intros s digits n. apply parseDate_days_ago.
  - intros s p. apply parseDate_iso.
  - intros s H1 H2 H3 Hnone. rewrite parseDate_standard by assumption.
    now rewrite Hnone.
Qed.

End DateFilter.

Lemma date_filter_keeps_from_window_start_witness :
  0 <= Scenario.now + Scenario.tza
  /\ Scenario.now <= JSDate.maxTime
  /\ Z.abs Scenario.tza <= JSDate.msPerDay
  /\ History.date_week <> History.date_all
  /\ History.parseDate Scenario.tza Scenario.strict_parse Scenario.now
       "Yesterday, 4 PM"
     = Some (Scenario.now - JSDate.msPerDay)
  /\ History.parseDate Scenario.tza Scenario.strict_parse Scenario.now
       "2999-01-01"
     = Some 32472144000000.
Proof.
  assert (H1 : 0 <= Scenario.now + Scenario.tza)
    by (unfold Scenario.now, Scenario.tza; lia).
  assert (H2 : Scenario.now <= JSDate.maxTime)
    by (unfold Scenario.now, JSDate.maxTime; lia).
  assert (H3 : Z.abs Scenario.tza <= JSDate.msPerDay)
    by (unfold Scenario.tza, JSDate.msPerDay; lia).
  assert (H4 : History.date_week <> History.date_all) by discriminate.
  destruct (date_filter_keeps_from_window_start
              Scenario.tza Scenario.strict_parse
              (Scenario.T1 :: Scenario.T2 :: Scenario.T3 :: Scenario.T4 :: nil)
              "" History.type_all History.date_week Scenario.now H1 H2 H3 H4)
    as (_ & _ & Hyesterday & _ & Hiso & _).
  split; [exact H1 | split; [exact H2 | split; [exact H3 | split; [exact H4|]]]].
  split.
  - apply Hyesterday; vm_compute; reflexivity.
  - apply Hiso. vm_compute. reflexivity.
Defined.

Lemma handleCreateEscrow_keeps_local_commit_witness :
  Wallet.run Scenario.swapAssets Scenario.createEscrow Scenario.releaseEscrow
    (EscrowScreen.handleCreateEscrow Scenario.escrow_form Scenario.contacts
       Scenario.now (EscrowScreen.Rejected "network down"))
    Scenario.ctx0
  = Scenario.createEscrow (EscrowScreen.newEscrow Scenario.escrow_form Scenario.now)
      Scenario.ctx0.
Proof.
  exact (proj1 (proj2 (proj2
    (handleCreateEscrow_keeps_local_commit
       Scenario.swapAssets Scenario.createEscrow Scenario.releaseEscrow
       Scenario.escrow_form Scenario.contacts Scenario.now
       (EscrowScreen.Rejected "network down") Scenario.ctx0)))).
Defined.

Lemma sign_moves_no_funds_and_never_fails_witness :
  EscrowScreen.offered Scenario.pending_escrow EscrowScreen.sign = true
  /\ transactions
       (Wallet.run Scenario.swapAssets Scenario.createEscrow Scenario.releaseEscrow
          (EscrowScreen.handleAction "323004" EscrowScreen.sign)
          Scenario.ctx_with_escrow)
     = transactions Scenario.ctx_with_escrow.
Proof.
  destruct (sign_moves_no_funds_and_never_fails
              Scenario.swapAssets Scenario.createEscrow Scenario.releaseEscrow
              "323004" Scenario.ctx_with_escrow)
    as (_ & _ & _ & Htx & Hoffered).
  split; [apply Hoffered; reflexivity | exact Htx].
Defined.

(* ===================================================================== *)
(** * Further properties of the history query                            *)
(* ===================================================================== *)

Lemma filter_all {A : Type} (l : list A) : List.filter (fun _ => true) l = l.
Proof. induction l as [|x l IH]; simpl; [reflexivity | now rewrite IH]. Qed.

Lemma filter_twice {A : Type} (f g : A -> bool) (l : list A) :
  List.filter f (List.filter g l) = List.filter (fun x => g x && f x) l.
Proof.
  induction l as [|x l IH]; simpl; [reflexivity|].
  destruct (g x); simpl; [destruct (f x)|]; now rewrite IH.
Qed.

Lemma filter_sublist {A : Type} (f : A -> bool) (l : list A) :
  sublist (List.filter f l) l.
Proof.
  induction l as [|x l IH]; simpl; [constructor|].
  destruct (f x); now constructor.
Qed.

Section QueryFacts.

Variable tza : Z.
Variable legacy_parse : string -> JSDate.Date.

Local Abbreviation filteredTransactions :=
  (History.filteredTransactions tza legacy_parse).
Local Abbreviation passes := (Notions.passes tza legacy_parse).

(** The three steps are one filter. *)
Lemma filteredTransactions_passes
    (txs : list Transaction) (q : string) (t : History.FilterType)
    (d : History.DateFilter) (now : Z) :
  filteredTransactions txs q t d now = List.filter (passes q t d now) txs.
Proof.
  rewrite filteredTransactions_steps.
  assert (Hsearch : Spec.search_step q txs
            = List.filter
                (fun tx => negb (JS.truthy_string (JS.trim q))
                           || History.matches_query (JS.toLowerCase q) tx) txs).
  { unfold Spec.search_step. destruct (JS.truthy_string (JS.trim q)); simpl.
    - reflexivity.
    - now rewrite filter_all. }
  assert (Htype : forall l,
            Spec.type_step t l
            = List.filter
                (fun tx => match t with
                           | History.type_all => true
                           | _ => History.type_is t tx
                           end) l).
  { intros l. destruct t; simpl; [now rewrite filter_all | reflexivity..]. }
  rewrite Htype, Hsearch, filter_twice. unfold Notions.passes.
  destruct d; rewrite ?filter_twice;
    apply List.filter_ext; intros tx; now rewrite ?andb_true_r.
Qed.

(** X1: the list shown is the original list with the transactions that fail
    a test taken out: the order is kept, nothing is added or repeated. *)
Theorem filteredTransactions_keeps_order
    (txs : list Transaction) (q : string) (t : History.FilterType)
    (d : History.DateFilter) (now : Z) :
  sublist (filteredTransactions txs q t d now) txs
  /\ (forall tx, In tx (filteredTransactions txs q t d now)
                 <-> In tx txs /\ passes q t d now tx = true)
  /\ (List.length (filteredTransactions txs q t d now) <= List.length txs)%nat
  /\ (List.NoDup txs -> List.NoDup (filteredTransactions txs q t d now)).
Proof.
  rewrite filteredTransactions_passes.
  split; [apply filter_sublist | split; [|split]].
  - intros tx. apply List.filter_In.
  - apply List.filter_length_le.
  - apply List.NoDup_filter.
Qed.

(** X2: at one reading of the clock, filtering twice with the same settings
    changes nothing more, and two passes with different settings give the
    same list in either order. *)
Theorem filteredTransactions_idempotent_and_commutes
    (txs : list Transaction) (q1 q2 : string) (t1 t2 : History.FilterType)
    (d1 d2 : History.DateFilter) (now : Z) :
  filteredTransactions (filteredTransactions txs q1 t1 d1 now) q1 t1 d1 now
  = filteredTransactions txs q1 t1 d1 now
  /\ filteredTransactions (filteredTransactions txs q1 t1 d1 now) q2 t2 d2 now
     = filteredTransactions (filteredTransactions txs q2 t2 d2 now) q1 t1 d1 now
  /\ filteredTransactions
       (filteredTransactions
          (filteredTransactions txs q1 History.type_all History.date_all now)
          "" t1 History.date_all now)
       "" History.type_all d1 now
     = filteredTransactions txs q1 t1 d1 now.
Proof.
  rewrite !filteredTransactions_passes, !filter_twice.
  split; [|split]; apply List.filter_ext; intros tx.
  - now rewrite andb_diag.
  - apply andb_comm.
  - unfold Notions.passes. simpl. rewrite !andb_true_r. now rewrite andb_assoc.
Qed.

(** X3: when the list is not labelled as filtered it is the whole list of
    transactions, and clearing the filters always leads there; a search text
    of white space only labels the list although it filters nothing. *)
Theorem unlabelled_list_is_complete
    (txs : list Transaction) (f : HistoryControls.Filters) (now : Z) :
  (HistoryControls.labelledFiltered f = false ->
   filteredTransactions txs (HistoryControls.searchQuery f)
     (HistoryControls.typeFilter f) (HistoryControls.dateFilter f) now = txs)
  /\ HistoryControls.labelledFiltered (fst (HistoryControls.clearFilters f)) = false
  /\ (let cleared := fst (HistoryControls.clearFilters f) in
      filteredTransactions txs (HistoryControls.searchQuery cleared)
        (HistoryControls.typeFilter cleared) (HistoryControls.dateFilter cleared) now
      = txs)
  /\ (JS.truthy_string (HistoryControls.searchQuery f) = true ->
      JS.truthy_string (JS.trim (HistoryControls.searchQuery f)) = false ->
      HistoryControls.labelledFiltered f = true
      /\ filteredTransactions txs (HistoryControls.searchQuery f)
           History.type_all History.date_all now = txs).
Proof.
  split; [|split; [|split]].
  - unfold HistoryControls.labelledFiltered. intros H.
    apply orb_false_iff in H as [H Hd]. apply orb_false_iff in H as [Hq Ht].
    destruct (HistoryControls.searchQuery f); [|discriminate].
    destruct (HistoryControls.typeFilter f); try discriminate.
    destruct (HistoryControls.dateFilter f); try discriminate.
    reflexivity.
  - reflexivity.
  - reflexivity.
  - intros Hq Htrim. split.
    + unfold HistoryControls.labelledFiltered. now rewrite Hq.
    + unfold History.filteredTransactions. now rewrite Htrim.
Qed.

End QueryFacts.

(** X4: every transaction counts as sent or as received, never as both: the
    two counts add up to the number of transactions shown. *)
Theorem stats_counts_add_up (txs : list Transaction) (prices : Prices) :
  (History.sentCount (History.stats txs prices)
   + History.receivedCount (History.stats txs prices))%nat
  = History.totalTransactions (History.stats txs prices)
  /\ History.totalTransactions (History.stats txs prices) = List.length txs.
Proof.
  split; [|reflexivity]. unfold History.stats. simpl.
  induction txs as [|tx txs IH]; [reflexivity|].
  cbn [List.filter List.length].
  assert (Hone : History.type_is History.type_sent tx
                 = negb (History.type_is History.type_received tx))
    by (unfold History.type_is; now destruct (Tx.type tx)).
  rewrite Hone.
  destruct (History.type_is History.type_received tx); simpl; lia.
Qed.

(* ===================================================================== *)
(** * Further properties of the date windows                              *)
(* ===================================================================== *)

Lemma digit_value_nonneg (c : ascii) : JS.is_digit c = true -> 0 <= JS.digit_value c <= 9.
Proof.
  unfold JS.is_digit, JS.digit_value. intros H.
  apply andb_true_iff in H as [H1 H2].
  apply Nat.leb_le in H1. apply Nat.leb_le in H2. lia.
Qed.

Lemma span_digits_from_nonneg (s : string) :
  forall acc k v k' r,
    0 <= acc -> JS.span_digits_from s acc k = (v, k', r) -> 0 <= v.
Proof.
  induction s as [|c s IH]; intros acc k v k' r Hacc H; simpl in H.
  - inversion H. lia.
  - destruct (JS.is_digit c) eqn:Hc.
    + apply IH in H; [exact H|]. pose proof (digit_value_nonneg c Hc). lia.
    + inversion H. lia.
Qed.

Section WindowFacts.

Variable tza : Z.
Variable legacy_parse : string -> JSDate.Date.

Local Abbreviation parseDate := (History.parseDate tza legacy_parse).
Local Abbreviation in_range := (History.in_range tza legacy_parse).
Local Abbreviation filteredTransactions :=
  (History.filteredTransactions tza legacy_parse).

(** How far before the query time the window of each date filter starts. *)
Lemma window_start_distance (now : Z) (d : History.DateFilter) :
  Notions.usual_clock tza now -> d <> History.date_all ->
  exists start,
    (forall tx, in_range now d tx
                = JSDate.geb (parseDate now (Tx.date tx)) (Some start))
    /\ match d with
       | History.date_today => 0 <= now - start < JSDate.msPerDay
       | History.date_week => now - start = 7 * JSDate.msPerDay
       | History.date_month =>
           28 * JSDate.msPerDay <= now - start <= 31 * JSDate.msPerDay
       | History.date_year =>
           365 * JSDate.msPerDay <= now - start <= 366 * JSDate.msPerDay
       | History.date_all => True
       end.
Proof.
  intros (Hlocal & Hmax & Htza) Hd.
  destruct (in_range_from_start tza legacy_parse now d Hlocal Hmax Htza Hd)
    as (start & Hwin & _ & Htest).
  exists start. split; [exact Htest|].
  destruct d; simpl in Hwin; try exact I.
  - pose proof (Z.mod_pos_bound (now + tza) JSDate.msPerDay eq_refl) as Hmod.
    unfold JSDate.TimeWithinDay in Hwin. lia.
  - lia.
  - destruct Hwin as (k & Hk & ->). unfold JSDate.msPerDay. lia.
  - destruct Hwin as (k & Hk & ->). unfold JSDate.msPerDay. lia.
Qed.

Lemma geb_earlier_start (p : JSDate.Date) (s1 s2 : Z) :
  s2 <= s1 -> JSDate.geb p (Some s1) = true -> JSDate.geb p (Some s2) = true.
Proof.
  destruct p as [t|]; simpl; [|discriminate].
  intros Hle H. apply Z.leb_le in H. apply Z.leb_le. lia.
Qed.

Lemma in_range_wider (now : Z) (d1 d2 : History.DateFilter) (tx : Transaction) :
  Notions.usual_clock tza now ->
  (d1, d2) = (History.date_today, History.date_week)
  \/ (d1, d2) = (History.date_week, History.date_month)
  \/ (d1, d2) = (History.date_month, History.date_year) ->
  in_range now d1 tx = true -> in_range now d2 tx = true.
Proof.
  intros Hclock Hpair.
  assert (H1 : d1 <> History.date_all)
    by (destruct Hpair as [H | [H | H]]; inversion H; discriminate).
  assert (H2 : d2 <> History.date_all)
    by (destruct Hpair as [H | [H | H]]; inversion H; discriminate).
  destruct (window_start_distance now d1 Hclock H1) as (s1 & Ht1 & Hd1).
  destruct (window_start_distance now d2 Hclock H2) as (s2 & Ht2 & Hd2).
  rewrite Ht1, Ht2. apply geb_earlier_start.
  destruct Hpair as [H | [H | H]]; inversion H; subst; simpl in *;
    unfold JSDate.msPerDay in *; lia.
Qed.

(** X5: the date ranges are nested: whatever [today] shows, [week] shows;
    whatever [week] shows, [month] shows; whatever [month] shows, [year]
    shows; and [all] shows everything any of them shows. *)
Theorem date_ranges_are_nested
    (txs : list Transaction) (q : string) (t : History.FilterType) (now : Z) :
  Notions.usual_clock tza now ->
  incl (filteredTransactions txs q t History.date_today now)
       (filteredTransactions txs q t History.date_week now)
  /\ incl (filteredTransactions txs q t History.date_week now)
          (filteredTransactions txs q t History.date_month now)
  /\ incl (filteredTransactions txs q t History.date_month now)
          (filteredTransactions txs q t History.date_year now)
  /\ incl (filteredTransactions txs q t History.date_year now)
          (filteredTransactions txs q t History.date_all now).
Proof.
  intros Hclock.
  assert (Hstep : forall d1 d2,
            (d1, d2) = (History.date_today, History.date_week)
            \/ (d1, d2) = (History.date_week, History.date_month)
            \/ (d1, d2) = (History.date_month, History.date_year) ->
            incl (filteredTransactions txs q t d1 now)
                 (filteredTransactions txs q t d2 now)).
  { intros d1 d2 Hpair tx. rewrite !filteredTransactions_steps.
    assert (H1 : d1 <> History.date_all)
      by (destruct Hpair as [H | [H | H]]; inversion H; discriminate).
    assert (H2 : d2 <> History.date_all)
      by (destruct Hpair as [H | [H | H]]; inversion H; discriminate).
    destruct d1; try congruence; destruct d2; try congruence;
      rewrite !List.filter_In; intros [Hin Hkeep]; (split; [exact Hin|]);
      now apply (in_range_wider now _ _ tx Hclock Hpair). }
  split; [apply Hstep; auto | split; [apply Hstep; auto | split]].
  - apply Hstep; auto.
  - rewrite !filteredTransactions_steps. apply List.incl_filter.
Qed.

(** X6: under the [today] range a transaction marked [today] is always
    shown and one marked [yesterday] never; [week] shows both. *)
Theorem today_range_on_relative_dates (now : Z) (tx : Transaction) :
  Notions.usual_clock tza now ->
  (JS.includes (JS.toLowerCase (Tx.date tx)) "today" = true ->
   in_range now History.date_today tx = true
   /\ in_range now History.date_week tx = true)
  /\ (JS.includes (JS.toLowerCase (Tx.date tx)) "today" = false ->
      JS.includes (JS.toLowerCase (Tx.date tx)) "yesterday" = true ->
      in_range now History.date_today tx = false
      /\ in_range now History.date_week tx = true).
Proof.
  intros Hclock.
  assert (Ht : History.date_today <> History.date_all) by discriminate.
  assert (Hw : History.date_week <> History.date_all) by discriminate.
  destruct (window_start_distance now _ Hclock Ht) as (s1 & Ht1 & Hd1).
  destruct (window_start_distance now _ Hclock Hw) as (s2 & Ht2 & Hd2).
  destruct Hclock as (Hlocal & Hmax & Htza).
  rewrite Ht1, Ht2. split.
  - intros Htoday. rewrite (parseDate_today tza legacy_parse now _ Htoday).
    simpl. split; apply Z.leb_le; unfold JSDate.msPerDay in *; lia.
  - intros Hnot Hyest.
    rewrite (parseDate_yesterday tza legacy_parse now _ Hnot Hyest).
    rewrite TimeClip_in_range
      by (unfold JSDate.maxTime, JSDate.msPerDay in *; lia).
    simpl. split; [apply Z.leb_gt | apply Z.leb_le];
      unfold JSDate.msPerDay in *; lia.
Qed.

(** X7: a stored date without the words [days ago] always parses to a
    valid date, and a date read from one of the three markers is never
    after the query time. *)
Theorem parseDate_valid_and_not_in_the_future (now : Z) (s : string) :
  Notions.usual_clock tza now ->
  (JS.includes (JS.toLowerCase s) "days ago" = false ->
   exists p, parseDate now s = Some p)
  /\ (forall p,
        JS.includes (JS.toLowerCase s) "today" = true
        \/ JS.includes (JS.toLowerCase s) "yesterday" = true
        \/ (JS.includes (JS.toLowerCase s) "days ago" = true
            /\ History.daysMatch (JS.toLowerCase s) <> None) ->
        parseDate now s = Some p -> p <= now).
Proof.
  intros (Hlocal & Hmax & Htza). split.
  - intros Hnone. unfold History.parseDate. rewrite Hnone.
    destruct (JS.includes (JS.toLowerCase s) "today"); [eauto|].
    destruct (JS.includes (JS.toLowerCase s) "yesterday").
    + rewrite setDate_days_back, TimeClip_in_range; [eauto|].
      unfold JSDate.maxTime, JSDate.msPerDay in *. lia.
    + destruct (JSDate.Date_of_string tza legacy_parse s); eauto.
  - intros p Hmark Hp. unfold History.parseDate in Hp.
    destruct (JS.includes (JS.toLowerCase s) "today") eqn:H1.
    { inversion Hp. lia. }
    destruct (JS.includes (JS.toLowerCase s) "yesterday") eqn:H2.
    { rewrite setDate_days_back in Hp. unfold JSDate.TimeClip in Hp.
      destruct (_ <=? _); inversion Hp. unfold JSDate.msPerDay. lia. }
    destruct Hmark as [H | [H | [H3 Hm]]]; try discriminate.
    rewrite H3 in Hp.
    destruct (History.daysMatch (JS.toLowerCase s)) as [digits|] eqn:Hd;
      [|congruence].
    unfold JS.parseInt in Hp.
    destruct (JS.span_digits (JS.trimStart digits)) as [[v n] r] eqn:Hspan.
    destruct n; [discriminate|].
    rewrite setDate_days_back in Hp. unfold JSDate.TimeClip in Hp.
    destruct (_ <=? _); inversion Hp.
    assert (0 <= v); [|unfold JSDate.msPerDay; nia].
    unfold JS.span_digits in Hspan.
    now apply span_digits_from_nonneg in Hspan.
Qed.

End WindowFacts.

(* ===================================================================== *)
(** * Dates of the form [N days ago]                                      *)
(* ===================================================================== *)

Lemma digit_lower_char (c : ascii) : JS.is_digit c = true -> JS.lower_char c = c.
Proof.
  destruct c as [[] [] [] [] [] [] [] []]; intros H;
    solve [reflexivity | discriminate H].
Qed.

Lemma digit_is_not_space (c : ascii) : JS.is_digit c = true -> JS.is_space c = false.
Proof.
  destruct c as [[] [] [] [] [] [] [] []]; intros H;
    solve [reflexivity | discriminate H].
Qed.

Lemma digit_is_not_t (c : ascii) : JS.is_digit c = true -> Ascii.eqb c "t" = false.
Proof.
  destruct c as [[] [] [] [] [] [] [] []]; intros H;
    solve [reflexivity | discriminate H].
Qed.

Lemma toLowerCase_app (a b : string) :
  JS.toLowerCase (String.append a b)
  = String.append (JS.toLowerCase a) (JS.toLowerCase b).
Proof.
  induction a as [|c a IH]; [reflexivity|].
  rewrite append_cons. simpl. now rewrite IH.
Qed.

Lemma toLowerCase_digits (ds : string) :
  JS.all_digits ds = true -> JS.toLowerCase ds = ds.
Proof.
  induction ds as [|c ds IH]; simpl; [reflexivity|].
  intros H. apply andb_true_iff in H as [Hc Hds].
  now rewrite (digit_lower_char c Hc), IH.
Qed.

Lemma has_char_app (c : ascii) (a b : string) :
  Notions.has_char c (String.append a b)
  = Notions.has_char c a || Notions.has_char c b.
Proof.
  induction a as [|x a IH]; [reflexivity|].
  rewrite append_cons. simpl. now rewrite IH, orb_assoc.
Qed.

Lemma has_char_digits (ds : string) :
  JS.all_digits ds = true -> Notions.has_char "t" ds = false.
Proof.
  induction ds as [|c ds IH]; simpl; [reflexivity|].
  intros H. apply andb_true_iff in H as [Hc Hds].
  now rewrite (digit_is_not_t c Hc), IH.
Qed.

Lemma startsWith_has_char (c : ascii) (p : string) :
  forall s, JS.startsWith p s = true -> Notions.has_char c p = true ->
            Notions.has_char c s = true.
Proof.
  induction p as [|a p IH]; intros s Hstart Hc; simpl in *.
  - discriminate.
  - destruct s as [|b s]; [discriminate|].
    apply andb_true_iff in Hstart as [Hab Hrest].
    apply Ascii.eqb_eq in Hab. subst b. simpl.
    destruct (Ascii.eqb a c); simpl in *; [reflexivity|].
    now apply IH.
Qed.

Lemma includes_has_char (c : ascii) (sub s : string) :
  JS.includes s sub = true -> Notions.has_char c sub = true ->
  Notions.has_char c s = true.
Proof.
  intros Hinc Hc. induction s as [|x r IH]; simpl in Hinc.
  - rewrite orb_false_r in Hinc. now apply startsWith_has_char with sub.
  - apply orb_true_iff in Hinc as [Hhere | Hlater].
    + now apply startsWith_has_char with sub.
    + simpl. rewrite (IH Hlater). apply orb_true_r.
Qed.

Lemma includes_app_r (a b sub : string) :
  JS.includes b sub = true -> JS.includes (String.append a b) sub = true.
Proof.
  intros Hb. induction a as [|c a IH]; [exact Hb|].
  rewrite append_cons. simpl. rewrite IH. apply orb_true_r.
Qed.

(** The digits of [ds], followed by something that does not start with a
    digit, are read as far as [ds] goes. *)
Lemma span_digits_from_app (ds rest : string) :
  JS.all_digits ds = true ->
  (forall c r, rest = String c r -> JS.is_digit c = false) ->
  forall acc k,
    JS.span_digits_from (String.append ds rest) acc k
    = (fst (fst (JS.span_digits_from ds acc k)),
       (k + String.length ds)%nat, rest)
    /\ snd (fst (JS.span_digits_from ds acc k)) = (k + String.length ds)%nat.
Proof.
  intros Hds Hrest. induction ds as [|c ds IH]; intros acc k.
  - simpl. rewrite Nat.add_0_r. split; [|reflexivity].
    destruct rest as [|c r]; [reflexivity|].
    simpl. now rewrite (Hrest c r eq_refl).
  - simpl in Hds. apply andb_true_iff in Hds as [Hc Hds'].
    rewrite append_cons. simpl. rewrite Hc.
    destruct (IH Hds' (10 * acc + JS.digit_value c) (S k)) as [H1 H2].
    rewrite H1, H2.
    replace (S k + String.length ds)%nat with (k + S (String.length ds))%nat
      by lia.
    split; reflexivity.
Qed.

Lemma substring_prefix (a b : string) :
  String.substring 0 (String.length a) (String.append a b) = a.
Proof.
  induction a as [|c a IH].
  - simpl. destruct b; reflexivity.
  - rewrite append_cons. cbn [String.length String.substring]. now rewrite IH.
Qed.

Lemma trimStart_digits (ds : string) :
  JS.all_digits ds = true -> JS.trimStart ds = ds.
Proof.
  destruct ds as [|c ds]; [reflexivity|]. simpl.
  intros H. apply andb_true_iff in H as [Hc _].
  now rewrite (digit_is_not_space c Hc).
Qed.

Lemma parseInt_digits (ds : string) :
  ds <> EmptyString -> JS.all_digits ds = true ->
  JS.parseInt ds = Some (Notions.decimal ds).
Proof.
  intros Hne Hds. unfold JS.parseInt, Notions.decimal.
  rewrite (trimStart_digits ds Hds). unfold JS.span_digits.
  destruct (span_digits_from_app ds EmptyString Hds
              ltac:(intros c r H; discriminate H) 0 O) as [_ Hlen].
  destruct (JS.span_digits_from ds 0 O) as [[v n] r]. simpl in *. subst n.
  destruct ds; [congruence | reflexivity].
Qed.

Lemma daysMatch_digits (ds : string) :
  ds <> EmptyString -> JS.all_digits ds = true ->
  History.daysMatch (String.append ds " days ago") = Some ds.
Proof.
  intros Hne Hds.
  assert (Hhere : History.match_here (String.append ds " days ago") = Some ds).
  { unfold History.match_here, JS.span_digits.
    destruct (span_digits_from_app ds " days ago" Hds
                ltac:(intros c r H; inversion H; reflexivity) 0 O) as [Hspan _].
    rewrite Hspan. simpl Nat.add.
    destruct ds as [|c ds']; [congruence|].
    cbn [String.length].
    change (History.days_ago_here " days ago") with true. cbv iota.
    now rewrite <- (substring_prefix (String c ds') " days ago") at 2. }
  destruct ds as [|c ds']; [congruence|].
  rewrite append_cons in *. cbn [History.daysMatch].
  now rewrite Hhere.
Qed.

Section DaysAgo.

Variable tza : Z.
Variable legacy_parse : string -> JSDate.Date.

Local Abbreviation parseDate := (History.parseDate tza legacy_parse).
Local Abbreviation in_range := (History.in_range tza legacy_parse).

Lemma parseDate_digits_days_ago (now : Z) (ds : string) :
  ds <> EmptyString -> JS.all_digits ds = true ->
  parseDate now (String.append ds " days ago")
  = JSDate.TimeClip (now - Notions.decimal ds * JSDate.msPerDay).
Proof.
  intros Hne Hds.
  assert (Hlower : JS.toLowerCase (String.append ds " days ago")
                   = String.append ds " days ago")
    by (rewrite toLowerCase_app, (toLowerCase_digits ds Hds); reflexivity).
  assert (Hno_t : Notions.has_char "t" (String.append ds " days ago") = false)
    by (rewrite has_char_app, (has_char_digits ds Hds); reflexivity).
  apply parseDate_days_ago with (digits := ds); rewrite ?Hlower.
  - destruct (JS.includes _ "today") eqn:H; [|reflexivity].
    apply (includes_has_char "t") in H; [congruence | reflexivity].
  - destruct (JS.includes _ "yesterday") eqn:H; [|reflexivity].
    apply (includes_has_char "t") in H; [congruence | reflexivity].
  - apply includes_app_r. reflexivity.
  - now apply daysMatch_digits.
  - now apply parseInt_digits.
Qed.

(** X8: a transaction dated [N days ago] is read as N days before the query
    time; [today] shows it only for N = 0, [week] exactly for N up to 7,
    [month] for N up to 28 and not from 32 on, [year] for N up to 365 and
    not from 367 on. *)
Theorem days_ago_against_the_ranges (now : Z) (ds : string) (tx : Transaction) :
  Notions.usual_clock tza now ->
  ds <> EmptyString -> JS.all_digits ds = true ->
  Tx.date tx = String.append ds " days ago" ->
  let n := Notions.decimal ds in
  0 <= n
  /\ parseDate now (Tx.date tx) = JSDate.TimeClip (now - n * JSDate.msPerDay)
  /\ in_range now History.date_today tx = (n =? 0)
  /\ in_range now History.date_week tx = (n <=? 7)
  /\ (n <= 28 -> in_range now History.date_month tx = true)
  /\ (32 <= n -> in_range now History.date_month tx = false)
  /\ (n <= 365 -> in_range now History.date_year tx = true)
  /\ (367 <= n -> in_range now History.date_year tx = false).
Proof.
  intros Hclock Hne Hds Hdate n.
  assert (Hn : 0 <= n).
  { subst n. unfold Notions.decimal, JS.span_digits.
    destruct (JS.span_digits_from ds 0 O) as [[v k] r] eqn:Hspan.
    simpl. now apply span_digits_from_nonneg in Hspan. }
  assert (Hparse : parseDate now (Tx.date tx)
                   = JSDate.TimeClip (now - n * JSDate.msPerDay))
    by (rewrite Hdate; now apply parseDate_digits_days_ago).
  assert (Hcmp : forall start,
            now - 366 * JSDate.msPerDay <= start <= now ->
            JSDate.geb (JSDate.TimeClip (now - n * JSDate.msPerDay)) (Some start)
            = (start <=? now - n * JSDate.msPerDay)).
  { intros start Hstart. unfold JSDate.TimeClip.
    destruct (Z.leb_spec (Z.abs (now - n * JSDate.msPerDay)) JSDate.maxTime)
      as [Hin | Hout]; [reflexivity|].
    simpl. symmetry. apply Z.leb_gt.
    destruct Hclock as (Hlocal & Hmax & Htza).
    unfold JSDate.maxTime, JSDate.msPerDay in *. lia. }
  assert (Hrange : forall d, d <> History.date_all ->
            exists start,
              in_range now d tx = (start <=? now - n * JSDate.msPerDay)
              /\ match d with
                 | History.date_today => 0 <= now - start < JSDate.msPerDay
                 | History.date_week => now - start = 7 * JSDate.msPerDay
                 | History.date_month =>
                     28 * JSDate.msPerDay <= now - start <= 31 * JSDate.msPerDay
                 | History.date_year =>
                     365 * JSDate.msPerDay <= now - start <= 366 * JSDate.msPerDay
                 | History.date_all => True
                 end).
  { intros d Hd.
    destruct (window_start_distance tza legacy_parse now d Hclock Hd)
      as (start & Htest & Hdist).
    exists start. split; [|exact Hdist].
    rewrite Htest, Hparse. apply Hcmp.
    destruct d; try congruence; unfold JSDate.msPerDay in *; lia. }
  split; [exact Hn | split; [exact Hparse|]].
  destruct (Hrange History.date_today ltac:(discriminate)) as (s1 & -> & H1).
  destruct (Hrange History.date_week ltac:(discriminate)) as (s2 & -> & H2).
  destruct (Hrange History.date_month ltac:(discriminate)) as (s3 & -> & H3).
  destruct (Hrange History.date_year ltac:(discriminate)) as (s4 & -> & H4).
  unfold JSDate.msPerDay in *.
  split; [|split; [|split; [|split; [|split]]]].
  - destruct (Z.eqb_spec n 0); [apply Z.leb_le | apply Z.leb_gt]; lia.
  - destruct (Z.leb_spec n 7); [apply Z.leb_le | apply Z.leb_gt]; lia.
  - intros H. apply Z.leb_le. lia.
  - intros H. apply Z.leb_gt. lia.
  - intros H. apply Z.leb_le. lia.
  - intros H. apply Z.leb_gt. lia.
Qed.

End DaysAgo.

(* ===================================================================== *)
(** * Further properties of search, totals and exports                    *)
(* ===================================================================== *)

Lemma is_space_lower_char (c : ascii) : JS.is_space (JS.lower_char c) = JS.is_space c.
Proof. destruct c as [[] [] [] [] [] [] [] []]; reflexivity. Qed.

Lemma all_space_toLowerCase (s : string) :
  Notions.all_chars JS.is_space (JS.toLowerCase s) = Notions.all_chars JS.is_space s.
Proof.
  induction s as [|c s IH]; simpl; [reflexivity|].
  now rewrite is_space_lower_char, IH.
Qed.

Lemma truthy_trimStart (s : string) :
  JS.truthy_string (JS.trimStart s) = negb (Notions.all_chars JS.is_space s).
Proof.
  induction s as [|c s IH]; simpl; [reflexivity|].
  destruct (JS.is_space c); simpl; [exact IH | reflexivity].
Qed.

Lemma all_space_trimStart (s : string) :
  Notions.all_chars JS.is_space (JS.trimStart s) = Notions.all_chars JS.is_space s.
Proof.
  induction s as [|c s IH]; simpl; [reflexivity|].
  destruct (JS.is_space c) eqn:Hc; simpl; [exact IH | now rewrite Hc].
Qed.

Lemma all_chars_rev_app (p : ascii -> bool) (a : string) :
  forall b, Notions.all_chars p (String.rev_app a b)
            = Notions.all_chars p a && Notions.all_chars p b.
Proof.
  induction a as [|c a IH]; intros b; simpl; [reflexivity|].
  rewrite IH. simpl. now rewrite andb_assoc, (andb_comm (Notions.all_chars p a)).
Qed.

Lemma truthy_rev_app (a : string) :
  forall b, JS.truthy_string (String.rev_app a b)
            = JS.truthy_string a || JS.truthy_string b.
Proof.
  induction a as [|c a IH]; intros b; simpl; [reflexivity|].
  rewrite IH. simpl. apply orb_true_r.
Qed.

(** The search text counts as empty exactly when it is white space only. *)
Lemma truthy_trim (s : string) :
  JS.truthy_string (JS.trim s) = negb (Notions.all_chars JS.is_space s).
Proof.
  unfold JS.trim, String.rev.
  rewrite truthy_rev_app, orb_false_r, truthy_trimStart.
  rewrite all_chars_rev_app, andb_true_r. now rewrite all_space_trimStart.
Qed.

Section SearchFacts.

Variable tza : Z.
Variable legacy_parse : string -> JSDate.Date.

Local Abbreviation filteredTransactions :=
  (History.filteredTransactions tza legacy_parse).

(** X9: the search does not depend on the case of the search text, and a
    search text of white space only searches for nothing. *)
Theorem search_ignores_case_and_blank_text
    (txs : list Transaction) (q1 q2 : string) (t : History.FilterType)
    (d : History.DateFilter) (now : Z) :
  (JS.toLowerCase q1 = JS.toLowerCase q2 ->
   filteredTransactions txs q1 t d now = filteredTransactions txs q2 t d now)
  /\ (Notions.all_chars JS.is_space q1 = true ->
      filteredTransactions txs q1 t d now = filteredTransactions txs "" t d now).
Proof.
  split.
  - intros Hlower.
    assert (Hblank : JS.truthy_string (JS.trim q1) = JS.truthy_string (JS.trim q2)).
    { rewrite !truthy_trim. f_equal.
      rewrite <- (all_space_toLowerCase q1), <- (all_space_toLowerCase q2).
      now rewrite Hlower. }
    unfold History.filteredTransactions. now rewrite Hblank, Hlower.
  - intros Hblank. unfold History.filteredTransactions.
    rewrite truthy_trim, Hblank. reflexivity.
Qed.

End SearchFacts.

(** ** Totals *)

Lemma add_nan_l (x : JS.number) : JS.add JS.NaN x = JS.NaN.
Proof. reflexivity. Qed.

Lemma add_nan_r (x : JS.number) : JS.add x JS.NaN = JS.NaN.
Proof. destruct x; reflexivity. Qed.

Lemma mul_nan_l (x : JS.number) : JS.mul JS.NaN x = JS.NaN.
Proof. reflexivity. Qed.

Lemma sub_nan_l (x : JS.number) : JS.sub JS.NaN x = JS.NaN.
Proof. reflexivity. Qed.

Lemma sub_nan_r (x : JS.number) : JS.sub x JS.NaN = JS.NaN.
Proof. destruct x; reflexivity. Qed.

Lemma fold_add_value_nan (prices : Prices) (txs : list Transaction) :
  fold_left (History.add_value prices) txs JS.NaN = JS.NaN.
Proof.
  induction txs as [|tx txs IH]; [reflexivity|].
  cbn [fold_left].
  change (History.add_value prices JS.NaN tx) with JS.NaN. exact IH.
Qed.

Lemma fold_add_value_poisoned (prices : Prices) (txs : list Transaction)
    (bad : Transaction) :
  In bad txs ->
  JS.parseFloat (JS.remove_commas (Tx.amount bad)) = JS.NaN ->
  forall acc, fold_left (History.add_value prices) txs acc = JS.NaN.
Proof.
  intros Hin Hbad. induction txs as [|tx txs IH]; intros acc; [destruct Hin|].
  cbn [fold_left]. destruct Hin as [-> | Hin].
  - assert (Hstep : History.add_value prices acc bad = JS.NaN).
    { unfold History.add_value. now rewrite Hbad, mul_nan_l, add_nan_r. }
    rewrite Hstep. apply fold_add_value_nan.
  - now apply IH.
Qed.

(** X10: one transaction whose amount does not parse as a number turns the
    total of its type, and the net flow, into [NaN]. *)
Theorem unparsable_amount_poisons_totals
    (txs : list Transaction) (prices : Prices) (bad : Transaction) :
  In bad txs ->
  JS.parseFloat (JS.remove_commas (Tx.amount bad)) = JS.NaN ->
  History.netFlow (History.stats txs prices) = JS.NaN
  /\ match Tx.type bad with
     | sent => History.totalSent (History.stats txs prices) = JS.NaN
     | received => History.totalReceived (History.stats txs prices) = JS.NaN
     end.
Proof.
  intros Hin Hbad. unfold History.stats. simpl.
  destruct (Tx.type bad) eqn:Htype.
  - assert (Hs : fold_left (History.add_value prices)
                   (List.filter (History.type_is History.type_sent) txs) JS.zero
                 = JS.NaN).
    { apply fold_add_value_poisoned with bad; [|exact Hbad].
      apply List.filter_In. split; [exact Hin|].
      unfold History.type_is. now rewrite Htype. }
    rewrite Hs. split; [apply sub_nan_r | reflexivity].
  - assert (Hr : fold_left (History.add_value prices)
                   (List.filter (History.type_is History.type_received) txs) JS.zero
                 = JS.NaN).
    { apply fold_add_value_poisoned with bad; [|exact Hbad].
      apply List.filter_In. split; [exact Hin|].
      unfold History.type_is. now rewrite Htype. }
    rewrite Hr. split; [apply sub_nan_l | reflexivity].
Qed.

(** ** The tabular export, character by character *)

Lemma count_char_app (c : ascii) (a b : string) :
  Notions.count_char c (String.append a b)
  = (Notions.count_char c a + Notions.count_char c b)%nat.
Proof.
  induction a as [|x a IH]; [reflexivity|].
  rewrite append_cons. simpl. rewrite IH. lia.
Qed.

Lemma count_char_quoted (c : ascii) (cell : string) :
  Notions.count_char c (History.quoted cell)
  = ((if Ascii.eqb JS.dquote c then 2 else 0) + Notions.count_char c cell)%nat.
Proof.
  unfold History.quoted. cbn [Notions.count_char]. rewrite count_char_app.
  cbn [Notions.count_char]. destruct (Ascii.eqb JS.dquote c); lia.
Qed.

Lemma count_char_csv_line (c : ascii) (tx : Transaction) :
  Notions.count_char c (History.csv_line (History.row tx))
  = ((if Ascii.eqb JS.dquote c then 12 else 0)
     + (if Ascii.eqb ","%char c then 5 else 0)
     + Notions.count_in_fields c tx)%nat.
Proof.
  unfold History.csv_line, History.row, Notions.count_in_fields, Notions.fields,
    History.row.
  cbn [List.map JS.join list_sum fold_right].
  rewrite !count_char_app, !count_char_quoted.
  cbn [Notions.count_char].
  destruct (Ascii.eqb JS.dquote c), (Ascii.eqb ","%char c); lia.
Qed.

Lemma join_cons (sep p q : string) (rest : list string) :
  JS.join sep (p :: q :: rest)
  = String.append p (String.append sep (JS.join sep (q :: rest))).
Proof. reflexivity. Qed.

Lemma count_newline_csv_lines (txs : list Transaction) (head : string) :
  Notions.count_char "010"%char
    (JS.join JS.newline
       (head :: List.map History.csv_line (List.map History.row txs)))
  = (Notions.count_char "010"%char head + List.length txs
     + Notions.count_in_all_fields "010"%char txs)%nat.
Proof.
  revert head. induction txs as [|tx txs IH]; intros head.
  - simpl. unfold Notions.count_in_all_fields. simpl. lia.
  - cbn [List.map]. rewrite join_cons, !count_char_app, IH, count_char_csv_line.
    unfold Notions.count_in_all_fields.
    cbn [List.map list_sum fold_right List.length].
    change (Ascii.eqb JS.dquote "010"%char) with false.
    change (Ascii.eqb ","%char "010"%char) with false.
    change (Notions.count_char "010"%char JS.newline) with 1%nat.
    unfold list_sum. cbv iota. lia.
Qed.

(** X11: fields are written as they are, between quotes: a row has twelve
    quotes and five commas more than its fields hold, and the export has one
    line break per transaction more than the fields hold, so that it has one
    line per transaction exactly when no field contains a line break. *)
Theorem csv_fields_are_written_verbatim (txs : list Transaction) (c : ascii) :
  (forall tx,
     Notions.count_char c (History.csv_line (History.row tx))
     = ((if Ascii.eqb JS.dquote c then 12 else 0)
        + (if Ascii.eqb ","%char c then 5 else 0)
        + Notions.count_in_fields c tx)%nat)
  /\ Notions.count_char "010"%char (History.csvContent txs)
     = (List.length txs + Notions.count_in_all_fields "010"%char txs)%nat
  /\ (Notions.count_char "010"%char (History.csvContent txs) = List.length txs
      <-> Notions.count_in_all_fields "010"%char txs = O).
Proof.
  assert (Hlines : Notions.count_char "010"%char (History.csvContent txs)
                   = (List.length txs
                      + Notions.count_in_all_fields "010"%char txs)%nat).
  { unfold History.csvContent. rewrite count_newline_csv_lines.
    change (Notions.count_char "010"%char (JS.join "," History.headers)) with O.
    lia. }
  split; [intros tx; apply count_char_csv_line | split; [exact Hlines|]].
  rewrite Hlines. lia.
Qed.

(** ** The image export *)

(** X12: the image export downloads a file only when the list was found and
    rendered; once the renderer is loaded every run shows exactly one toast,
    an error toast exactly when nothing is downloaded; the export menu is
    left open when the list is not found; when the renderer fails to load
    nothing at all is shown. *)
Theorem exportToPDF_outcomes
    (imported elementFound : bool) (render : HistoryControls.Render) (now : Z) :
  let calls := HistoryControls.exportToPDF imported elementFound render now in
  let rendered :=
    match render with
    | HistoryControls.Rendered _ => true
    | HistoryControls.RenderFailed => false
    end in
  existsb Notions.is_download calls = imported && elementFound && rendered
  /\ List.length (List.filter Notions.is_toast calls) = (if imported then 1 else 0)%nat
  /\ existsb is_error_toast calls
     = imported && negb (elementFound && rendered)
  /\ existsb Notions.closes_export_menu calls = imported && elementFound
  /\ (imported = false -> calls = nil)
  /\ existsb is_context_call calls = false.
Proof.
  destruct imported, elementFound, render; cbn; repeat split; congruence.
Qed.

(* ===================================================================== *)
(** * Further properties of the swap form                                 *)
(* ===================================================================== *)

Lemma leb_zero_false_gtb (x : JS.number) :
  x <> JS.NaN -> JS.leb x JS.zero = false -> JS.gtb x JS.zero = true.
Proof.
  intros Hnan Hle. destruct (JS.gtb x JS.zero) eqn:Hgt; [reflexivity|].
  rewrite (gtb_zero_false_leb x Hnan Hgt) in Hle. discriminate.
Qed.

Lemma parseFloat_empty : JS.parseFloat "" = JS.NaN.
Proof. reflexivity. Qed.

(** X13: the wallet is asked to swap only after both checks: the call
    carries the parsed amount and the two selected symbols, the amount is
    neither at most 0 nor above the balance shown for the source asset;
    whether the call is made does not depend on how it ends; the reset of
    the field and the way back follow the call exactly when it resolves,
    and nothing follows it when it rejects. *)
Theorem swap_is_called_only_with_a_checked_amount
    (st : SwapScreen.State) (swapped : SwapScreen.SwapResult)
    (f t : string) (a : JS.number) :
  In (SwapAssets f t a) (SwapScreen.handleSwap st swapped) ->
  f = symbol (SwapScreen.fromAsset st)
  /\ t = symbol (SwapScreen.toAsset st)
  /\ a = JS.parseFloat (SwapScreen.amount st)
  /\ SwapScreen.amount st <> EmptyString
  /\ JS.leb a JS.zero = false
  /\ JS.gtb a (JS.parseFloat (JS.remove_commas (balance (SwapScreen.fromAsset st))))
     = false
  /\ SwapScreen.handleSwap st SwapScreen.SwapResolved
     = SwapAssets f t a :: SetAmount "" :: OnBack :: nil
  /\ SwapScreen.handleSwap st SwapScreen.SwapRejected = SwapAssets f t a :: nil
  /\ (In (SetAmount "") (SwapScreen.handleSwap st swapped)
      <-> swapped = SwapScreen.SwapResolved)
  /\ (In OnBack (SwapScreen.handleSwap st swapped)
      <-> swapped = SwapScreen.SwapResolved)
  /\ (Spec.number_input (SwapScreen.amount st) -> JS.gtb a JS.zero = true).
Proof.
  unfold SwapScreen.handleSwap.
  destruct (JS.truthy_string (SwapScreen.amount st)) eqn:Hamount; simpl;
    [|intros [H | []]; discriminate H].
  destruct (JS.leb (JS.parseFloat (SwapScreen.amount st)) JS.zero) eqn:Hle;
    [intros [H | []]; discriminate H|].
  destruct (JS.gtb (JS.parseFloat (SwapScreen.amount st))
              (JS.parseFloat
                 (JS.remove_commas (balance (SwapScreen.fromAsset st)))))
    eqn:Hgt; [intros [H | []]; discriminate H|].
  intros Hin.
  assert (Hcall : SwapAssets (symbol (SwapScreen.fromAsset st))
                    (symbol (SwapScreen.toAsset st))
                    (JS.parseFloat (SwapScreen.amount st))
                  = SwapAssets f t a).
  { destruct Hin as [H | H]; [exact H|].
    destruct swapped; simpl in H.
    - destruct H as [H | [H | []]]; discriminate H.
    - destruct H. }
  inversion Hcall; subst f t a.
  assert (Hne : SwapScreen.amount st <> EmptyString)
    by (intros E; rewrite E in Hamount; discriminate).
  repeat (split; [assumption || reflexivity|]).
  split; [|split].
  - destruct swapped; simpl; split; intros H; try reflexivity; try discriminate H.
    + right. left. reflexivity.
    + destruct H as [H | []]. discriminate H.
  - destruct swapped; simpl; split; intros H; try reflexivity; try discriminate H.
    + right. right. left. reflexivity.
    + destruct H as [H | []]. discriminate H.
  - intros [Hempty | Hnum]; [contradiction|].
    now apply leb_zero_false_gtb.
Qed.

Lemma swap_is_called_only_with_a_checked_amount_witness :
  In (SwapAssets "SUI" "USDC" (JS.parseFloat "100"))
     (SwapScreen.handleSwap Scenario.swap_state SwapScreen.SwapRejected)
  /\ JS.leb (JS.parseFloat "100") JS.zero = false
  /\ SwapScreen.handleSwap Scenario.swap_state SwapScreen.SwapRejected
     = SwapAssets "SUI" "USDC" (JS.parseFloat "100") :: nil.
Proof.
  assert (Hin : In (SwapAssets "SUI" "USDC" (JS.parseFloat "100"))
                   (SwapScreen.handleSwap Scenario.swap_state
                      SwapScreen.SwapRejected))
    by (left; vm_compute; reflexivity).
  split; [exact Hin|].
  destruct (swap_is_called_only_with_a_checked_amount
              Scenario.swap_state SwapScreen.SwapRejected
              "SUI" "USDC" (JS.parseFloat "100") Hin)
    as (_ & _ & _ & _ & Hle & _ & _ & Hrejected & _).
  split; [exact Hle | exact Hrejected].
Defined.

(** X14: the quote is displayed exactly for the amounts that pass the first
    check of the swap: where the display falls back to [0.00] the swap is
    refused as an invalid amount, and where a quote is displayed it is not. *)
Theorem quote_is_shown_iff_amount_is_accepted
    (prices : Prices) (st : SwapScreen.State) (swapped : SwapScreen.SwapResult) :
  Spec.number_input (SwapScreen.amount st) ->
  (JS.truthy_string (SwapScreen.amount st)
   && JS.gtb (JS.parseFloat (SwapScreen.amount st)) JS.zero = true
   /\ SwapScreen.estimate prices st
      = JS.toLocaleString (SwapScreen.output prices st) 2 6
   /\ ~ In (Spec.notification Spec.InvalidAmount)
           (SwapScreen.handleSwap st swapped))
  \/ (JS.truthy_string (SwapScreen.amount st)
      && JS.gtb (JS.parseFloat (SwapScreen.amount st)) JS.zero = false
      /\ SwapScreen.estimate prices st = "0.00"%string
      /\ SwapScreen.handleSwap st swapped
         = Spec.notification Spec.InvalidAmount :: nil).
Proof.
  intros Hinput. unfold SwapScreen.estimate, SwapScreen.handleSwap.
  destruct (JS.truthy_string (SwapScreen.amount st)) eqn:Hamount; simpl.
  - destruct (JS.gtb (JS.parseFloat (SwapScreen.amount st)) JS.zero) eqn:Hpos.
    + left. rewrite (gtb_zero_true_leb _ Hpos).
      repeat split.
      destruct (JS.gtb _ (JS.parseFloat _)); destruct swapped; simpl;
        intros [H | H]; try discriminate H; try (destruct H as [H | H]);
        try discriminate H; try (destruct H as [H | H]); try discriminate H;
        try contradiction.
    + right. destruct Hinput as [Hempty | Hnum].
      * rewrite Hempty in Hamount. discriminate.
      * rewrite (gtb_zero_false_leb _ Hnum Hpos). repeat split.
  - right. repeat split.
Qed.

Lemma quote_is_shown_iff_amount_is_accepted_witness :
  Spec.number_input "-1"
  /\ SwapScreen.estimate Scenario.swap_prices (Scenario.swap_form "-1" false)
     = "0.00"%string
  /\ SwapScreen.handleSwap (Scenario.swap_form "-1" false) SwapScreen.SwapResolved
     = Spec.notification Spec.InvalidAmount :: nil.
Proof.
  assert (Hin : Spec.number_input "-1") by (right; vm_compute; discriminate).
  split; [exact Hin|].
  destruct (quote_is_shown_iff_amount_is_accepted
              Scenario.swap_prices (Scenario.swap_form "-1" false)
              SwapScreen.SwapResolved Hin)
    as [(Hcond & _) | (_ & Hshow & Hcalls)].
  - vm_compute in Hcond. discriminate Hcond.
  - split; [exact Hshow | exact Hcalls].
Defined.

Lemma find_none_listedBalance (wallets : list WalletAsset) (sym : string) :
  List.find (fun w => String.eqb (symbol w) sym) wallets = None ->
  SwapControls.listedBalance wallets sym = "0"%string.
Proof. unfold SwapControls.listedBalance. now intros ->. Qed.

(** X15: an asset that is listed for its price but for which the account
    holds no wallet is selected with the balance [0]; as the source of a
    swap it lets no amount through: a positive amount is refused for
    insufficient balance, any other as invalid. *)
Theorem asset_without_wallet_cannot_be_swapped
    (wallets : list WalletAsset) (sym : string) (st : SwapScreen.State)
    (swapped : SwapScreen.SwapResult) :
  List.find (fun w => String.eqb (symbol w) sym) wallets = None ->
  Spec.number_input (SwapScreen.amount st) ->
  let selected :=
    SwapControls.selectAsset SwapControls.modal_from
      (SwapControls.assetEntry wallets sym) st in
  symbol (SwapScreen.fromAsset selected) = sym
  /\ balance (SwapScreen.fromAsset selected) = "0"%string
  /\ SwapScreen.amount selected = SwapScreen.amount st
  /\ existsb is_context_call (SwapScreen.handleSwap selected swapped) = false
  /\ (JS.gtb (JS.parseFloat (SwapScreen.amount st)) JS.zero = true ->
      SwapScreen.handleSwap selected swapped
      = Spec.notification Spec.InsufficientFunds :: nil)
  /\ (JS.gtb (JS.parseFloat (SwapScreen.amount st)) JS.zero = false ->
      SwapScreen.handleSwap selected swapped
      = Spec.notification Spec.InvalidAmount :: nil).
Proof.
  intros Hnone Hinput selected. subst selected.
  assert (Hbal : balance (SwapScreen.fromAsset
                   (SwapControls.selectAsset SwapControls.modal_from
                      (SwapControls.assetEntry wallets sym) st)) = "0"%string)
    by (simpl; now apply find_none_listedBalance).
  assert (Hpos : JS.gtb (JS.parseFloat (SwapScreen.amount st)) JS.zero = true ->
            SwapScreen.handleSwap
              (SwapControls.selectAsset SwapControls.modal_from
                 (SwapControls.assetEntry wallets sym) st) swapped
            = Spec.notification Spec.InsufficientFunds :: nil).
  { intros Hgt. unfold SwapScreen.handleSwap. rewrite Hbal. simpl.
    rewrite (parseFloat_positive_nonempty _ Hgt), (gtb_zero_true_leb _ Hgt).
    simpl. change (JS.parseFloat "0") with JS.zero. now rewrite Hgt. }
  assert (Hnonpos : JS.gtb (JS.parseFloat (SwapScreen.amount st)) JS.zero = false ->
            SwapScreen.handleSwap
              (SwapControls.selectAsset SwapControls.modal_from
                 (SwapControls.assetEntry wallets sym) st) swapped
            = Spec.notification Spec.InvalidAmount :: nil).
  { intros Hgt. unfold SwapScreen.handleSwap. simpl.
    destruct Hinput as [Hempty | Hnum].
    - now rewrite Hempty.
    - rewrite (gtb_zero_false_leb _ Hnum Hgt). now rewrite orb_true_r. }
  split; [reflexivity | split; [exact Hbal | split; [reflexivity|]]].
  split; [|split; assumption].
  destruct (JS.gtb (JS.parseFloat (SwapScreen.amount st)) JS.zero) eqn:Hgt.
  - now rewrite (Hpos eq_refl).
  - now rewrite (Hnonpos eq_refl).
Qed.

Lemma asset_without_wallet_cannot_be_swapped_witness :
  List.find (fun w => String.eqb (symbol w) "BTC") (wallets Scenario.ctx0) = None
  /\ Spec.number_input "100"
  /\ SwapScreen.handleSwap
       (SwapControls.selectAsset SwapControls.modal_from
          (SwapControls.assetEntry (wallets Scenario.ctx0) "BTC")
          Scenario.swap_state) SwapScreen.SwapResolved
     = Spec.notification Spec.InsufficientFunds :: nil.
Proof.
  assert (Hnone : List.find (fun w => String.eqb (symbol w) "BTC")
                    (wallets Scenario.ctx0) = None) by reflexivity.
  assert (Hin : Spec.number_input "100") by (right; vm_compute; discriminate).
  split; [exact Hnone | split; [exact Hin|]].
  apply (asset_without_wallet_cannot_be_swapped
           (wallets Scenario.ctx0) "BTC" Scenario.swap_state
           SwapScreen.SwapResolved Hnone Hin).
  vm_compute. reflexivity.
Defined.

(** X16: switching the two assets turns the quote around, and switching
    again restores the form, and with it the quote and the checks. *)
Theorem switchAssets_turns_the_quote_around
    (prices : Prices) (st : SwapScreen.State) (swapped : SwapScreen.SwapResult) :
  SwapControls.switchAssets (SwapControls.switchAssets st) = st
  /\ SwapScreen.output prices (SwapControls.switchAssets st)
     = Spec.quote prices (symbol (SwapScreen.toAsset st))
                  (symbol (SwapScreen.fromAsset st))
                  (JS.parseFloat (SwapScreen.amount st))
  /\ SwapScreen.estimate prices (SwapControls.switchAssets (SwapControls.switchAssets st))
     = SwapScreen.estimate prices st
  /\ SwapScreen.handleSwap
       (SwapControls.switchAssets (SwapControls.switchAssets st)) swapped
     = SwapScreen.handleSwap st swapped.
Proof.
  assert (Hback : SwapControls.switchAssets (SwapControls.switchAssets st) = st)
    by (destruct st; reflexivity).
  split; [exact Hback | split; [|split]].
  - rewrite output_quote. reflexivity.
  - now rewrite Hback.
  - now rewrite Hback.
Qed.

(** X17: the balance check compares numbers: when the balance text of the
    source asset does not parse as a number, the comparison is false and
    every amount that passes the first check is handed to the wallet,
    however the call ends; the reset of the field and the way back follow
    only a call that resolves. *)
Theorem unparsable_balance_lets_every_amount_through (st : SwapScreen.State) :
  JS.parseFloat (JS.remove_commas (balance (SwapScreen.fromAsset st))) = JS.NaN ->
  SwapScreen.amount st <> EmptyString ->
  JS.leb (JS.parseFloat (SwapScreen.amount st)) JS.zero = false ->
  let call :=
    SwapAssets (symbol (SwapScreen.fromAsset st)) (symbol (SwapScreen.toAsset st))
               (JS.parseFloat (SwapScreen.amount st)) in
  (forall swapped, In call (SwapScreen.handleSwap st swapped))
  /\ SwapScreen.handleSwap st SwapScreen.SwapResolved
     = call :: SetAmount "" :: OnBack :: nil
  /\ SwapScreen.handleSwap st SwapScreen.SwapRejected = call :: nil.
Proof.
  intros Hbal Hne Hle call. subst call.
  assert (Hcalls : forall swapped,
            SwapScreen.handleSwap st swapped
            = SwapAssets (symbol (SwapScreen.fromAsset st))
                (symbol (SwapScreen.toAsset st))
                (JS.parseFloat (SwapScreen.amount st))
              :: match swapped with
                 | SwapScreen.SwapResolved => SetAmount "" :: OnBack :: nil
                 | SwapScreen.SwapRejected => nil
                 end).
  { intros swapped. unfold SwapScreen.handleSwap. rewrite Hbal, Hle.
    destruct (SwapScreen.amount st) as [|c r]; [contradiction|].
    cbn [JS.truthy_string negb orb].
    replace (JS.gtb (JS.parseFloat (String c r)) JS.NaN) with false;
      [reflexivity|].
    now destruct (JS.parseFloat (String c r)). }
  split; [|split].
  - intros swapped. rewrite Hcalls. left. reflexivity.
  - apply Hcalls.
  - apply Hcalls.
Qed.

Lemma unparsable_balance_lets_every_amount_through_witness :
  let st := {| SwapScreen.fromAsset := Scenario.asset "SUI" "N/A";
               SwapScreen.toAsset := Scenario.asset "USDC" "25.00";
               SwapScreen.amount := "1000000";
               SwapScreen.estimatedOutput := "0.00";
               SwapScreen.useMesh := false |} in
  JS.parseFloat (JS.remove_commas (balance (SwapScreen.fromAsset st))) = JS.NaN
  /\ SwapScreen.amount st <> EmptyString
  /\ JS.leb (JS.parseFloat (SwapScreen.amount st)) JS.zero = false
  /\ SwapScreen.handleSwap st SwapScreen.SwapRejected
     = SwapAssets "SUI" "USDC" (JS.parseFloat "1000000") :: nil.
Proof.
  intros st.
  assert (Hbal : JS.parseFloat (JS.remove_commas (balance (SwapScreen.fromAsset st)))
                 = JS.NaN) by reflexivity.
  assert (Hne : SwapScreen.amount st <> EmptyString) by discriminate.
  assert (Hle : JS.leb (JS.parseFloat (SwapScreen.amount st)) JS.zero = false)
    by (vm_compute; reflexivity).
  split; [exact Hbal | split; [exact Hne | split; [exact Hle|]]].
  exact (proj2 (proj2
    (unparsable_balance_lets_every_amount_through st Hbal Hne Hle))).
Defined.

(* ===================================================================== *)
(** * The payment link of the receive screen                              *)
(* ===================================================================== *)

Lemma unreserved_is_not_percent (c : ascii) :
  URI.unreserved c = true -> c <> "%"%char.
Proof. intros H ->. discriminate H. Qed.

Lemma hex_digit_unreserved (n : nat) :
  (n < 16)%nat -> URI.unreserved (URI.hex_digit n) = true.
Proof.
  intros Hn.
  do 16 (destruct n as [|n]; [reflexivity|]). lia.
Qed.

Lemma hex_digit_inj (n m : nat) :
  (n < 16)%nat -> (m < 16)%nat -> URI.hex_digit n = URI.hex_digit m -> n = m.
Proof.
  intros Hn Hm H.
  assert (Hcode : forall k, (k < 16)%nat ->
            nat_of_ascii (URI.hex_digit k)
            = if (k <? 10)%nat then (48 + k)%nat else (55 + k)%nat).
  { intros k Hk. do 16 (destruct k as [|k]; [reflexivity|]). lia. }
  apply (f_equal nat_of_ascii) in H. rewrite !Hcode in H by assumption.
  destruct (Nat.ltb_spec n 10), (Nat.ltb_spec m 10); lia.
Qed.

Lemma nat_of_ascii_bound (c : ascii) : (nat_of_ascii c < 256)%nat.
Proof. destruct c as [[] [] [] [] [] [] [] []]; vm_compute; lia. Qed.

Lemma percent_encode_inj (c1 c2 : ascii) :
  URI.percent_encode c1 = URI.percent_encode c2 -> c1 = c2.
Proof.
  unfold URI.percent_encode. intros H. injection H as Hhi Hlo.
  pose proof (nat_of_ascii_bound c1) as B1.
  pose proof (nat_of_ascii_bound c2) as B2.
  assert (Hq : (nat_of_ascii c1 / 16 = nat_of_ascii c2 / 16)%nat).
  { apply hex_digit_inj; [| |exact Hhi];
      apply Nat.Div0.div_lt_upper_bound; lia. }
  assert (Hr : (nat_of_ascii c1 mod 16 = nat_of_ascii c2 mod 16)%nat).
  { apply hex_digit_inj; [| |exact Hlo]; apply Nat.mod_upper_bound; lia. }
  assert (Hn : nat_of_ascii c1 = nat_of_ascii c2).
  { rewrite (Nat.div_mod_eq (nat_of_ascii c1) 16),
      (Nat.div_mod_eq (nat_of_ascii c2) 16). now rewrite Hq, Hr. }
  rewrite <- (ascii_nat_embedding c1), <- (ascii_nat_embedding c2).
  now rewrite Hn.
Qed.

Lemma encodeURIComponent_inj (s1 : string) :
  forall s2, URI.encodeURIComponent s1 = URI.encodeURIComponent s2 -> s1 = s2.
Proof.
  induction s1 as [|c1 s1 IH]; intros [|c2 s2] H;
    cbn [URI.encodeURIComponent] in H.
  - reflexivity.
  - destruct (URI.unreserved c2); discriminate H.
  - destruct (URI.unreserved c1); discriminate H.
  - destruct (URI.unreserved c1) eqn:U1, (URI.unreserved c2) eqn:U2.
    + inversion H. f_equal. now apply IH.
    + unfold URI.percent_encode in H. rewrite append_cons in H.
      inversion H. subst c1. discriminate U1.
    + unfold URI.percent_encode in H. rewrite append_cons in H.
      inversion H. subst c2. discriminate U2.
    + unfold URI.percent_encode in H. rewrite !append_cons in H.
      injection H as Hhi Hlo Hrest.
      f_equal; [|now apply IH].
      apply percent_encode_inj. unfold URI.percent_encode.
      f_equal. f_equal; [exact Hhi | f_equal; exact Hlo].
Qed.

Lemma encodeURIComponent_safe (s : string) :
  Notions.all_chars (fun c => URI.unreserved c || Ascii.eqb c "%")
    (URI.encodeURIComponent s) = true.
Proof.
  induction s as [|c s IH]; [reflexivity|].
  cbn [URI.encodeURIComponent].
  destruct (URI.unreserved c) eqn:U.
  - cbn [Notions.all_chars]. now rewrite U, IH.
  - unfold URI.percent_encode. rewrite !append_cons, append_empty_l.
    cbn [Notions.all_chars].
    pose proof (nat_of_ascii_bound c) as B.
    rewrite !hex_digit_unreserved;
      [now rewrite IH | apply Nat.mod_upper_bound; lia
       | apply Nat.Div0.div_lt_upper_bound; lia].
Qed.

Lemma all_chars_count_zero (p : ascii -> bool) (c : ascii) (s : string) :
  Notions.all_chars p s = true -> p c = false -> Notions.count_char c s = O.
Proof.
  intros Hall Hc. induction s as [|a s IH]; simpl in *; [reflexivity|].
  apply andb_true_iff in Hall as [Ha Hs].
  destruct (Ascii.eqb_spec a c) as [-> | _]; [congruence|].
  now rewrite IH.
Qed.

Lemma encodeURIComponent_unreserved (s : string) :
  Notions.all_chars URI.unreserved s = true -> URI.encodeURIComponent s = s.
Proof.
  induction s as [|c s IH]; simpl; [reflexivity|].
  intros H. apply andb_true_iff in H as [Hc Hs]. now rewrite Hc, IH.
Qed.

(** X18: in a payment request the note is written so that it cannot alter
    the link: the encoded note consists of unreserved characters and [%]
    only, so that no [&], [=], [?], [#] or space of the link comes from the
    note; a note of unreserved characters is written as it is; without a
    request, or with an empty amount, the link is the bare address. *)
Theorem note_cannot_alter_the_payment_link
    (address : string) (st : ReceiveScreen.State) (c : ascii) :
  (ReceiveScreen.isRequesting st = true ->
   ReceiveScreen.amount st <> EmptyString ->
   URI.unreserved c = false -> c <> "%"%char ->
   Notions.count_char c (ReceiveScreen.qrData address st)
   = (Notions.count_char c "hashpay:?amount=&token=&note="
      + Notions.count_char c address
      + Notions.count_char c (ReceiveScreen.amount st)
      + Notions.count_char c (ReceiveScreen.selectedToken st))%nat)
  /\ Notions.all_chars (fun c => URI.unreserved c || Ascii.eqb c "%")
       (URI.encodeURIComponent (ReceiveScreen.note st)) = true
  /\ (Notions.all_chars URI.unreserved (ReceiveScreen.note st) = true ->
      URI.encodeURIComponent (ReceiveScreen.note st) = ReceiveScreen.note st)
  /\ (ReceiveScreen.isRequesting st = false \/ ReceiveScreen.amount st = EmptyString ->
      ReceiveScreen.qrData address st = address).
Proof.
  split; [|split; [apply encodeURIComponent_safe
                  | split; [apply encodeURIComponent_unreserved|]]].
  - intros Hreq Hamount Hc Hpct. unfold ReceiveScreen.qrData. rewrite Hreq.
    destruct (ReceiveScreen.amount st) as [|a r] eqn:Ea; [congruence|].
    cbn [JS.truthy_string andb].
    rewrite !count_char_app.
    rewrite (all_chars_count_zero _ c _ (encodeURIComponent_safe _)).
    + assert (Hlit : Notions.count_char c "hashpay:?amount=&token=&note="
                = (Notions.count_char c "hashpay:" + Notions.count_char c "?amount="
                   + Notions.count_char c "&token=" + Notions.count_char c "&note=")%nat).
      { change "hashpay:?amount=&token=&note="%string
          with (String.append "hashpay:"
                  (String.append "?amount=" (String.append "&token=" "&note="))).
        rewrite !count_char_app. lia. }
      rewrite Hlit. lia.
    + rewrite Hc. simpl. now apply Ascii.eqb_neq.
  - intros [Hreq | Hamount]; unfold ReceiveScreen.qrData.
    + now rewrite Hreq.
    + rewrite Hamount. now rewrite andb_false_r.
Qed.

Lemma note_cannot_alter_the_payment_link_witness :
  Notions.count_char "&"
    (ReceiveScreen.qrData "0xA11CE"
       (ReceiveScreen.Build_State true "5" "SUI" "rent & more = 100%?"))
  = 2%nat.
Proof.
  rewrite (proj1 (note_cannot_alter_the_payment_link "0xA11CE"
             (ReceiveScreen.Build_State true "5" "SUI" "rent & more = 100%?") "&"));
    [reflexivity | reflexivity | discriminate | reflexivity | discriminate].
Defined.

(** X19: two payment requests that differ only in the note have different
    links: the note can be read back from the link. *)
Theorem payment_link_determines_the_note
    (address amount token note1 note2 : string) :
  amount <> EmptyString ->
  ReceiveScreen.qrData address (ReceiveScreen.Build_State true amount token note1)
  = ReceiveScreen.qrData address (ReceiveScreen.Build_State true amount token note2) ->
  note1 = note2.
Proof.
  intros Hamount. unfold ReceiveScreen.qrData. simpl.
  destruct amount as [|a r]; [congruence|]. cbn [JS.truthy_string].
  intros H.
  repeat match type of H with
         | String.append ?p _ = String.append ?p _ =>
             apply (String.app_inj p) in H
         end.
  now apply encodeURIComponent_inj.
Qed.

Lemma payment_link_determines_the_note_witness :
  ReceiveScreen.qrData "0xA11CE" (ReceiveScreen.Build_State true "5" "SUI" "a b")
  <> ReceiveScreen.qrData "0xA11CE" (ReceiveScreen.Build_State true "5" "SUI" "a%20b").
Proof.
  intros H.
  assert (Hne : "5"%string <> EmptyString) by discriminate.
  pose proof (payment_link_determines_the_note "0xA11CE" "5" "SUI" "a b" "a%20b"
                Hne H) as Heq.
  discriminate Heq.
Defined.

(** X20: sharing never copies silently and never fails silently: with
    native sharing the link is handed over and a rejection is reported by
    one error toast; without it the address (not the payment link) is put
    on the clipboard and two toasts say so. *)
Theorem handleShare_outcomes
    (navigatorShare : bool) (result : ReceiveScreen.ShareResult)
    (address : string) (st : ReceiveScreen.State) :
  let effects := ReceiveScreen.handleShare navigatorShare result address st in
  (navigatorShare = true ->
   (exists title text,
      In (ReceiveScreen.NavigatorShare title text (ReceiveScreen.qrData address st))
         effects)
   /\ (forall text, ~ In (ReceiveScreen.ClipboardWriteText text) effects)
   /\ (In (ReceiveScreen.ShowToast "Sharing failed" error) effects
       <-> result = ReceiveScreen.ShareRejected))
  /\ (navigatorShare = false ->
      effects
      = ReceiveScreen.ShowToast "Native sharing not supported, address copied" info
        :: ReceiveScreen.ClipboardWriteText address
        :: ReceiveScreen.ShowToast "Address copied to clipboard" success
        :: nil).
Proof.
  intros effects. subst effects. split; intros ->; simpl.
  - split; [eexists; eexists; left; reflexivity | split].
    + intros text [H | H]; [discriminate H|].
      destruct result; simpl in H; [exact H|].
      destruct H as [H | []]. discriminate H.
    + destruct result; simpl; split.
      * intros [H | []]. discriminate H.
      * discriminate.
      * reflexivity.
      * intros _. right. left. reflexivity.
  - reflexivity.
Qed.

(* ===================================================================== *)
(** * Further properties of the escrow screen                             *)
(* ===================================================================== *)

Section EscrowActions.

Variable swapAssets : string -> string -> JS.number -> Ctx -> Ctx.
Variable createEscrow : Escrow -> Ctx -> Ctx.
Variable releaseEscrow : string -> Ctx -> Ctx.

Local Abbreviation run := (Wallet.run swapAssets createEscrow releaseEscrow).

(** X21: of the three escrow actions only the release reaches the wallet
    context, with the identifier of the escrow it was clicked on; signing
    and disputing leave the context as it is; every action ends in exactly
    one toast, which is never an error. *)
Theorem handleAction_reaches_the_context_only_on_release
    (id : string) (action : EscrowScreen.Action) (w : Ctx) :
  run (EscrowScreen.handleAction id action) w
  = match action with
    | EscrowScreen.release => releaseEscrow id w
    | _ => w
    end
  /\ (forall id', In (ReleaseEscrow id') (EscrowScreen.handleAction id action) ->
                  action = EscrowScreen.release /\ id' = id)
  /\ List.length (List.filter Notions.is_toast (EscrowScreen.handleAction id action))
     = 1%nat
  /\ existsb is_error_toast (EscrowScreen.handleAction id action) = false
  /\ (forall e, EscrowScreen.offered e action = true <-> Esc.status e = pending).
Proof.
  split; [|split; [|split; [|split]]].
  - destruct action; reflexivity.
  - intros id' Hin. destruct action; simpl in Hin.
    + destruct Hin as [H | []]. discriminate H.
    + destruct Hin as [H | []]. discriminate H.
    + destruct Hin as [H | [H | []]]; [|discriminate H].
      inversion H. now split.
  - destruct action; reflexivity.
  - destruct action; reflexivity.
  - intros e. unfold EscrowScreen.offered.
    destruct (Esc.status e); split; intros H; try reflexivity; discriminate.
Qed.

End EscrowActions.

(** ** The identifier of a new escrow *)

Lemma int_digits_fuel_low (k : nat) :
  forall (fuel : nat) (n : Z),
    10 ^ Z.of_nat k <= n -> (k < fuel)%nat ->
    exists rest, JS.int_digits_fuel fuel n = JS.low_digits (S k) n ++ rest.
Proof.
  induction k as [|k IH]; intros fuel n Hn Hfuel.
  - destruct fuel as [|fuel]; [lia|]. simpl in Hn.
    cbn [JS.int_digits_fuel JS.low_digits].
    destruct (Z.ltb_spec n 10) as [Hlt | Hge].
    + exists nil. rewrite Z.mod_small by lia. reflexivity.
    + eexists. reflexivity.
  - destruct fuel as [|fuel]; [lia|].
    assert (Hpow : 10 ^ Z.of_nat (S k) = 10 * 10 ^ Z.of_nat k)
      by (rewrite Nat2Z.inj_succ, Z.pow_succ_r; lia).
    assert (Hpos : 0 < 10 ^ Z.of_nat k) by (apply Z.pow_pos_nonneg; lia).
    cbn [JS.int_digits_fuel].
    destruct (Z.ltb_spec n 10) as [Hlt | Hge]; [lia|].
    destruct (IH fuel (n / 10)) as [rest Hrest].
    + apply Z.div_le_lower_bound; lia.
    + lia.
    + exists rest. rewrite Hrest. reflexivity.
Qed.

Lemma write_digits_plain_pos (ds : list Z) :
  forall p q acc, JS.write_digits false p ds acc = JS.write_digits false q ds acc.
Proof.
  induction ds as [|d r IH]; intros p q acc; [reflexivity|].
  cbn [JS.write_digits andb]. apply IH.
Qed.

Lemma write_digits_plain_app (a b : list Z) :
  forall acc,
    JS.write_digits false O (a ++ b) acc
    = String.append (JS.write_digits false O b EmptyString)
        (JS.write_digits false O a acc).
Proof.
  induction a as [|d a IH]; intros acc.
  - simpl. apply write_digits_acc.
  - cbn [app JS.write_digits andb].
    rewrite (write_digits_plain_pos (a ++ b) 1 O).
    rewrite (write_digits_plain_pos a 1 O). apply IH.
Qed.

Lemma drop_app_length (a b : string) :
  JS.drop (String.length a) (String.append a b) = b.
Proof.
  induction a as [|c a IH]; [destruct b; reflexivity|].
  rewrite append_cons. cbn [String.length JS.drop]. exact IH.
Qed.

Lemma string_length_app (a b : string) :
  String.length (String.append a b) = (String.length a + String.length b)%nat.
Proof.
  induction a as [|c a IH]; [reflexivity|].
  rewrite append_cons. cbn [String.length]. now rewrite IH.
Qed.

Lemma low_digits_periodic (k : nat) :
  forall n m, JS.low_digits k (n + m * 10 ^ Z.of_nat k) = JS.low_digits k n.
Proof.
  induction k as [|k IH]; intros n m; [reflexivity|].
  assert (Hpow : 10 ^ Z.of_nat (S k) = 10 ^ Z.of_nat k * 10)
    by (rewrite Nat2Z.inj_succ, Z.pow_succ_r; lia).
  cbn [JS.low_digits]. rewrite Hpow.
  replace (n + m * (10 ^ Z.of_nat k * 10)) with (n + (m * 10 ^ Z.of_nat k) * 10)
    by lia.
  rewrite Z.mod_add, Z.div_add by lia. now rewrite IH.
Qed.

(** From the sixth digit on, the identifier is the last six digits of the
    clock. *)
Lemma newId_last_six_digits (dateNow : Z) :
  100000 <= dateNow ->
  JS.slice_last 6 (JS.Z_toString dateNow) = JS.pad_digits 6 dateNow.
Proof.
  intros Hn. unfold JS.Z_toString, JS.slice_last, JS.pad_digits.
  destruct (Z.ltb_spec dateNow 0) as [Hneg | _]; [lia|].
  rewrite Z.abs_eq by lia. unfold JS.int_digits.
  assert (Hlog : 16 <= Z.log2 dateNow).
  { change 16 with (Z.log2 100000). now apply Z.log2_le_mono. }
  destruct (int_digits_fuel_low 5 (S (Z.to_nat (Z.log2 dateNow))) dateNow)
    as [rest Hrest].
  { change (10 ^ Z.of_nat 5) with 100000. exact Hn. }
  { apply Nat.lt_succ_r. apply Nat2Z.inj_le. rewrite Z2Nat.id; [simpl; lia | lia]. }
  rewrite Hrest, write_digits_plain_app.
  rewrite string_length_app.
  rewrite (write_digits_plain_length (JS.low_digits 6 dateNow)), low_digits_length.
  cbn [String.length].
  replace (String.length (JS.write_digits false O rest EmptyString) + (6 + 0) - 6)%nat
    with (String.length (JS.write_digits false O rest EmptyString)) by lia.
  apply drop_app_length.
Qed.

(** X22: the identifier of a new escrow is the last six digits of the
    millisecond clock, so it consists of six digits and it repeats: two
    escrows created a multiple of 1,000,000 ms apart (about 16 minutes 40
    seconds) get the same identifier. *)
Theorem escrow_identifier_repeats
    (form1 form2 : EscrowScreen.Form) (dateNow k : Z) :
  100000 <= dateNow -> 0 <= k ->
  let id1 := Esc.id (EscrowScreen.newEscrow form1 dateNow) in
  let id2 := Esc.id (EscrowScreen.newEscrow form2 (dateNow + k * 1000000)) in
  id1 = id2
  /\ String.length id1 = 6%nat
  /\ JS.all_digits id1 = true
  /\ id1 = JS.pad_digits 6 (dateNow mod 1000000).
Proof.
  intros Hn Hk id1 id2. subst id1 id2. cbn [EscrowScreen.newEscrow Esc.id].
  rewrite !newId_last_six_digits by nia.
  unfold JS.pad_digits.
  assert (Hsame : JS.low_digits 6 (dateNow + k * 1000000) = JS.low_digits 6 dateNow)
    by apply (low_digits_periodic 6 dateNow k).
  assert (Hmod : JS.low_digits 6 (dateNow mod 1000000) = JS.low_digits 6 dateNow).
  { rewrite (Z.div_mod dateNow 1000000) at 2 by lia.
    rewrite Z.add_comm, Z.mul_comm.
    symmetry. apply (low_digits_periodic 6). }
  rewrite Hsame, Hmod. split; [reflexivity | split; [|split; [|reflexivity]]].
  - rewrite write_digits_plain_length, low_digits_length. reflexivity.
  - apply write_digits_plain_all_digits; [apply low_digits_range | reflexivity].
Qed.

Lemma escrow_identifier_repeats_witness :
  100000 <= Scenario.now /\ 0 <= 3
  /\ Esc.id (EscrowScreen.newEscrow Scenario.escrow_form Scenario.now)
     = Esc.id (EscrowScreen.newEscrow Scenario.escrow_form
                 (Scenario.now + 3 * 1000000)).
Proof.
  assert (H1 : 100000 <= Scenario.now) by (unfold Scenario.now; lia).
  assert (H2 : 0 <= 3) by lia.
  split; [exact H1 | split; [exact H2|]].
  exact (proj1 (escrow_identifier_repeats
                  Scenario.escrow_form Scenario.escrow_form Scenario.now 3 H1 H2)).
Defined.

(** ** The address handed to the settlement call *)

(** X23: the address handed to the settlement call is the address of the
    first contact with the name of the recipient, when there is one with a
    non-empty address, and the text of the recipient field otherwise; it is
    empty only when the recipient field is empty. *)
Theorem recipientAddress_falls_back_to_the_name
    (contacts : list Contact) (recipient : string) :
  (EscrowScreen.find_contact contacts recipient = None ->
   EscrowScreen.recipientAddress contacts recipient = recipient)
  /\ (forall c, EscrowScreen.find_contact contacts recipient = Some c ->
        In c contacts /\ name c = recipient
        /\ EscrowScreen.recipientAddress contacts recipient
           = (if JS.truthy_string (address c) then address c else recipient))
  /\ ((forall c, In c contacts -> name c <> recipient) ->
      EscrowScreen.recipientAddress contacts recipient = recipient)
  /\ (recipient <> EmptyString ->
      EscrowScreen.recipientAddress contacts recipient <> EmptyString).
Proof.
  unfold EscrowScreen.recipientAddress, EscrowScreen.find_contact.
  split; [|split; [|split]].
  - now intros ->.
  - intros c Hfind. rewrite Hfind.
    apply List.find_some in Hfind as [Hin Hname].
    apply String.eqb_eq in Hname. auto.
  - intros Hnone.
    destruct (List.find _ contacts) as [c|] eqn:Hfind; [|reflexivity].
    apply List.find_some in Hfind as [Hin Hname].
    apply String.eqb_eq in Hname. now apply Hnone in Hin.
  - intros Hne.
    destruct (List.find _ contacts) as [c|]; [|exact Hne].
    destruct (address c); [exact Hne | discriminate].
Qed.

Lemma recipientAddress_falls_back_to_the_name_witness :
  EscrowScreen.find_contact Scenario.contacts "Bob" = None
  /\ EscrowScreen.recipientAddress Scenario.contacts "Bob" = "Bob"%string
  /\ EscrowScreen.recipientAddress Scenario.contacts "Jane Cooper" = "0xA11CE"%string.
Proof.
  assert (Hnone : EscrowScreen.find_contact Scenario.contacts "Bob" = None)
    by reflexivity.
  split; [exact Hnone | split].
  - exact (proj1 (recipientAddress_falls_back_to_the_name Scenario.contacts "Bob")
             Hnone).
  - destruct (proj1 (proj2 (recipientAddress_falls_back_to_the_name
                              Scenario.contacts "Jane Cooper"))
                _ eq_refl) as (_ & _ & H).
    exact H.
Defined.

(* ===================================================================== *)
(** * Sample runs of the further properties                               *)
(* ===================================================================== *)

Lemma scenario_clock : Notions.usual_clock Scenario.tza Scenario.now.
Proof.
  unfold Notions.usual_clock, Scenario.tza, Scenario.now, JSDate.maxTime,
    JSDate.msPerDay.
  lia.
Qed.

Lemma date_ranges_are_nested_witness :
  Notions.usual_clock Scenario.tza Scenario.now
  /\ incl (History.filteredTransactions Scenario.tza Scenario.strict_parse
             (Scenario.T1 :: Scenario.T3 :: nil) "" History.type_all
             History.date_today Scenario.now)
          (History.filteredTransactions Scenario.tza Scenario.strict_parse
             (Scenario.T1 :: Scenario.T3 :: nil) "" History.type_all
             History.date_week Scenario.now).
Proof.
  split; [exact scenario_clock|].
  exact (proj1 (date_ranges_are_nested Scenario.tza Scenario.strict_parse
                  (Scenario.T1 :: Scenario.T3 :: nil) "" History.type_all
                  Scenario.now scenario_clock)).
Defined.

Lemma today_range_on_relative_dates_witness :
  Notions.usual_clock Scenario.tza Scenario.now
  /\ JS.includes (JS.toLowerCase (Tx.date Scenario.T1)) "today" = true
  /\ History.in_range Scenario.tza Scenario.strict_parse Scenario.now
       History.date_today Scenario.T1 = true.
Proof.
  assert (Htoday : JS.includes (JS.toLowerCase (Tx.date Scenario.T1)) "today" = true)
    by reflexivity.
  split; [exact scenario_clock | split; [exact Htoday|]].
  exact (proj1 (proj1 (today_range_on_relative_dates Scenario.tza
                         Scenario.strict_parse Scenario.now Scenario.T1
                         scenario_clock) Htoday)).
Defined.

Lemma parseDate_valid_and_not_in_the_future_witness :
  Notions.usual_clock Scenario.tza Scenario.now
  /\ JS.includes (JS.toLowerCase "Oct 24") "days ago" = false
  /\ exists p, History.parseDate Scenario.tza Scenario.strict_parse Scenario.now
                 "Oct 24" = Some p.
Proof.
  assert (Hnone : JS.includes (JS.toLowerCase "Oct 24") "days ago" = false)
    by reflexivity.
  split; [exact scenario_clock | split; [exact Hnone|]].
  exact (proj1 (parseDate_valid_and_not_in_the_future Scenario.tza
                  Scenario.strict_parse Scenario.now "Oct 24" scenario_clock)
           Hnone).
Defined.

Lemma days_ago_against_the_ranges_witness :
  Notions.usual_clock Scenario.tza Scenario.now
  /\ "8"%string <> EmptyString
  /\ JS.all_digits "8" = true
  /\ Tx.date Scenario.T3 = String.append "8" " days ago"
  /\ History.in_range Scenario.tza Scenario.strict_parse Scenario.now
       History.date_week Scenario.T3 = false
  /\ History.in_range Scenario.tza Scenario.strict_parse Scenario.now
       History.date_month Scenario.T3 = true.
Proof.
  assert (Hne : "8"%string <> EmptyString) by discriminate.
  assert (Hds : JS.all_digits "8" = true) by reflexivity.
  assert (Hdate : Tx.date Scenario.T3 = String.append "8" " days ago")
    by reflexivity.
  split; [exact scenario_clock | split; [exact Hne | split; [exact Hds |
    split; [exact Hdate|]]]].
  destruct (days_ago_against_the_ranges Scenario.tza Scenario.strict_parse
              Scenario.now "8" Scenario.T3 scenario_clock Hne Hds Hdate)
    as (_ & _ & _ & Hweek & Hmonth & _).
  split; [exact Hweek | apply Hmonth; vm_compute; discriminate].
Defined.

Lemma unparsable_amount_poisons_totals_witness :
  let bad := {| Tx.id := "T5"; Tx.type := sent; Tx.amount := "n/a";
                Tx.currency := "SUI"; Tx.recipient := "Jane"; Tx.date := "today" |} in
  In bad (Scenario.T1 :: bad :: nil)
  /\ JS.parseFloat (JS.remove_commas (Tx.amount bad)) = JS.NaN
  /\ History.netFlow (History.stats (Scenario.T1 :: bad :: nil) Scenario.swap_prices)
     = JS.NaN.
Proof.
  intros bad.
  assert (Hin : In bad (Scenario.T1 :: bad :: nil)) by (right; left; reflexivity).
  assert (Hbad : JS.parseFloat (JS.remove_commas (Tx.amount bad)) = JS.NaN)
    by reflexivity.
  split; [exact Hin | split; [exact Hbad|]].
  exact (proj1 (unparsable_amount_poisons_totals (Scenario.T1 :: bad :: nil)
                  Scenario.swap_prices bad Hin Hbad)).
Defined.
